(** * FormValidationPro: payment validation, pipeline and storage

    A shallow embedding of [server/routes.ts] and [server/storage.ts]:
    the field validators and sanitizers, the [POST /api/payment] pipeline,
    the [PATCH /api/payment/:id/status] handler and the two storage
    backends ([MemStorage], [DatabaseStorage]), with the properties the
    specification states about them. *)

From Stdlib Require Import ZArith NArith List String Ascii Bool Sorted Lia.
From stdpp Require Import base decidable option list numbers pretty.
Import ListNotations.

Local Open Scope Z_scope.

(** ** The JavaScript values the code works on

    A JavaScript string is a sequence of UTF-16 code units; [length],
    [slice], [substring] and the regular expressions of the source (none
    has the [u] flag) all count and match code units. *)

Definition jsstring := list N.

Fixpoint lit (s : string) : jsstring :=
  match s with
  | EmptyString => []
  | String a s' => N_of_ascii a :: lit s'
  end.

Definition jsstring_eqb (a b : jsstring) : bool := bool_decide (a = b).

Module JS.

(** [\s] in a regular expression, and the characters [trim] removes:
    WhiteSpace and LineTerminator of ECMA-262. *)
Definition isWhiteSpace (c : N) : bool :=
  ((9 <=? c) && (c <=? 13) || (c =? 32) || (c =? 160) || (c =? 5760)
   || (8192 <=? c) && (c <=? 8202) || (c =? 8232) || (c =? 8233)
   || (c =? 8239) || (c =? 8287) || (c =? 12288) || (c =? 65279))%N.

(** [\d] *)
Definition isDigit (c : N) : bool := ((48 <=? c) && (c <=? 57))%N.

Fixpoint dropWhile (p : N -> bool) (s : jsstring) : jsstring :=
  match s with
  | [] => []
  | c :: s' => if p c then dropWhile p s' else s
  end.

Fixpoint takeWhile (p : N -> bool) (s : jsstring) : jsstring :=
  match s with
  | [] => []
  | c :: s' => if p c then c :: takeWhile p s' else []
  end.

(** [String.prototype.trim] *)
Definition trim (s : jsstring) : jsstring :=
  rev (dropWhile isWhiteSpace (rev (dropWhile isWhiteSpace s))).

(** [s.replace(/[...]/g, '')]: every code unit of the class is dropped. *)
Definition remove (p : N -> bool) (s : jsstring) : jsstring :=
  List.filter (fun c => negb (p c)) s.

(** [s.substring(0, n)] *)
Definition substring0 (n : nat) (s : jsstring) : jsstring := take n s.

(** [s.substr(start, len)] for a start inside or past the string. *)
Definition substr (start len : nat) (s : jsstring) : jsstring :=
  take len (drop start s).

(** [s.slice(-n)]: the last [n] code units, the whole string when it is
    shorter. *)
Definition slice_last (n : nat) (s : jsstring) : jsstring :=
  drop (length s - n) s.

(** [s.slice(1)] *)
Definition slice1 (s : jsstring) : jsstring := drop 1 s.

(** [s.charAt(0)]: a string of one code unit, empty for the empty string *)
Definition charAt0 (s : jsstring) : jsstring := take 1 s.

(** ['*'.repeat(n)] *)
Definition repeat (c : N) (n : nat) : jsstring := replicate n c.

(** [s.split(sep)] for a separator of one code unit *)
Fixpoint split (sep : N) (s : jsstring) : list jsstring :=
  match s with
  | [] => [[]]
  | c :: s' =>
      if (c =? sep)%N then [] :: split sep s'
      else match split sep s' with
           | [] => [[c]]
           | w :: ws => (c :: w) :: ws
           end
  end.

(** [toUpperCase] on the Basic Latin block, where it is applied in the
    source: to the first letter of a field name. *)
Definition upper_latin (c : N) : N :=
  if ((97 <=? c) && (c <=? 122))%N then (c - 32)%N else c.

(** [toLowerCase] on the Basic Latin block. *)
Definition lower_latin (c : N) : N :=
  if ((65 <=? c) && (c <=? 90))%N then (c + 32)%N else c.

(** *** Regular expressions

    Every pattern of the source is anchored at both ends ([^...$], no
    [m] flag), so [test] is membership of the whole string in the
    language of the pattern, decided here by derivatives. *)
Inductive regex : Type :=
| Void : regex
| Eps : regex
| Cls : (N -> bool) -> regex
| Cat : regex -> regex -> regex
| Alt : regex -> regex -> regex
| Star : regex -> regex.

Fixpoint nullable (r : regex) : bool :=
  match r with
  | Void => false
  | Eps => true
  | Cls _ => false
  | Cat a b => nullable a && nullable b
  | Alt a b => nullable a || nullable b
  | Star _ => true
  end.

Definition cat (a b : regex) : regex :=
  match a, b with
  | Void, _ => Void
  | _, Void => Void
  | Eps, _ => b
  | _, _ => Cat a b
  end.

Definition alt (a b : regex) : regex :=
  match a, b with
  | Void, _ => b
  | _, Void => a
  | _, _ => Alt a b
  end.

Fixpoint deriv (c : N) (r : regex) : regex :=
  match r with
  | Void => Void
  | Eps => Void
  | Cls p => if p c then Eps else Void
  | Cat a b =>
      if nullable a then alt (cat (deriv c a) b) (deriv c b)
      else cat (deriv c a) b
  | Alt a b => alt (deriv c a) (deriv c b)
  | Star a => cat (deriv c a) (Star a)
  end.

(** [/^r$/.test(s)] *)
Definition test (r : regex) (s : jsstring) : bool :=
  nullable (fold_left (fun r c => deriv c r) s r).

Definition chr (c : N) : regex := Cls (N.eqb c).
Definition plus (r : regex) : regex := Cat r (Star r).
Definition opt (r : regex) : regex := Alt r Eps.
Fixpoint times (n : nat) (r : regex) : regex :=
  match n with
  | O => Eps
  | S n' => Cat r (times n' r)
  end.

(** *** Numbers

    [parseInt] and [parseFloat] read a prefix of the string. A result
    of [parseFloat] is kept as the decimal it denotes,
    [(-1)^neg * m * 10^e]; the double it rounds to is only ever compared
    with zero, with the thresholds written out where that is done. A
    result of [parseInt] is an integer or an infinity and is kept as the
    double it rounds to. *)
Inductive number : Type :=
| NaN : number
| Infinity : bool -> number
| Decimal : bool -> N -> Z -> number.

Definition isNaN (x : number) : bool :=
  match x with NaN => true | _ => false end.

Definition digits_value (ds : jsstring) : N :=
  fold_left (fun acc c => (10 * acc + (c - 48))%N) ds 0%N.

Definition strSign (s : jsstring) : bool * jsstring :=
  match s with
  | 45%N :: t => (true, t)
  | 43%N :: t => (false, t)
  | _ => (false, s)
  end.

(** ExponentPart: [e] or [E], an optional sign, at least one digit;
    anything else is not part of the literal. *)
Definition strExponent (s : jsstring) : Z :=
  match s with
  | c :: s1 =>
      if ((c =? 101) || (c =? 69))%N then
        let '(neg, s2) := strSign s1 in
        match takeWhile isDigit s2 with
        | [] => 0
        | ds => if neg then - Z.of_N (digits_value ds)
                else Z.of_N (digits_value ds)
        end
      else 0
  | [] => 0
  end.

Fixpoint isPrefix (p s : jsstring) : bool :=
  match p, s with
  | [], _ => true
  | a :: p', b :: s' => (a =? b)%N && isPrefix p' s'
  | _ :: _, [] => false
  end.

(** [parseFloat(s)]: leading white space is skipped, then the longest
    prefix that is a StrDecimalLiteral is read. *)
Definition parseFloat (input : jsstring) : number :=
  let '(neg, s1) := strSign (dropWhile isWhiteSpace input) in
  if isPrefix (lit "Infinity") s1 then Infinity neg
  else
    let ip := takeWhile isDigit s1 in
    let r1 := dropWhile isDigit s1 in
    let '(fp, r2) :=
      match r1 with
      | 46%N :: t => (takeWhile isDigit t, dropWhile isDigit t)
      | _ => ([], r1)
      end in
    match ip, fp with
    | [], [] => NaN
    | _, _ =>
        Decimal neg (digits_value (ip ++ fp))
                (strExponent r2 - Z.of_nat (length fp))
    end.

(** [x > 0] on the double a parse result rounds to. A positive decimal
    rounds to zero exactly when it is at most [2^-1075], half the
    smallest subnormal (the tie goes to the even neighbour, zero). *)
Definition gt0 (x : number) : bool :=
  match x with
  | NaN => false
  | Infinity neg => negb neg
  | Decimal neg m e =>
      negb neg &&
      (if 0 <=? e then (0 <? m)%N
       else 10 ^ (- e) <? Z.of_N m * 2 ^ 1075)
  end.

Definition isHexDigit (c : N) : bool :=
  (isDigit c || (97 <=? c) && (c <=? 102) || (65 <=? c) && (c <=? 70))%N.

Definition hex_value (c : N) : N :=
  (if isDigit c then c - 48
   else if (97 <=? c) then c - 87 else c - 55)%N.

(** The Number an integer that is not negative is read as: the nearest
    double, a tie going to the neighbour with the even significand. Up
    to [2^53] every integer is a double; above, the significand keeps 53
    bits. From [2^1024 - 2^970] on the result is [Infinity], which is
    kept as [2^1024], a value no double has and above all of them, so
    that comparing and looking up by the result is comparing and looking
    up by the Number. *)
Definition toNumber (n : N) : N :=
  if (n <? 2 ^ 53)%N then n
  else
    let e := (N.log2 n - 52)%N in
    let q := N.shiftr n e in
    let r := (n - N.shiftl q e)%N in
    let half := N.shiftl 1 (e - 1) in
    let q' := if (half <? r)%N || ((r =? half)%N && N.odd q)
              then (q + 1)%N else q in
    N.min (N.shiftl q' e) (2 ^ 1024).

(** [parseInt(s)] without a radix: [None] is [NaN]; white space and a
    sign are skipped, [0x] or [0X] announces hexadecimal digits, and the
    digits read are a Number, so an integer that no double holds is
    rounded ([-Infinity] is kept as [- 2^1024]). *)
Definition parseInt (input : jsstring) : option Z :=
  let '(neg, s1) := strSign (dropWhile isWhiteSpace input) in
  let sgn (n : N) :=
    if neg then - Z.of_N (toNumber n) else Z.of_N (toNumber n) in
  match s1 with
  | 48%N :: x :: t =>
      if ((x =? 120) || (x =? 88))%N then
        match takeWhile isHexDigit t with
        | [] => None
        | ds => Some (sgn (fold_left (fun acc c => (16 * acc + hex_value c)%N) ds 0%N))
        end
      else Some (sgn (digits_value (takeWhile isDigit s1)))
  | _ =>
      match takeWhile isDigit s1 with
      | [] => None
      | ds => Some (sgn (digits_value ds))
      end
  end.

(** Comparisons of numbers that may be [NaN]: every comparison with
    [NaN] is false. *)
Definition lt (a b : option Z) : bool :=
  match a, b with Some x, Some y => x <? y | _, _ => false end.
Definition gt (a b : option Z) : bool := lt b a.
Definition eq (a b : option Z) : bool :=
  match a, b with Some x, Some y => x =? y | _, _ => false end.

(** An integer in a template literal: its decimal digits. *)
Definition numberToString (n : Z) : jsstring := lit (pretty n).

End JS.

(** [toLowerCase] on arbitrary text is the engine's Unicode case mapping;
    the development is parametric in it. *)
Class CaseMapping := toLowerCase : jsstring -> jsstring.

(** The instance used on Basic Latin text. *)
Definition latinCaseMapping : CaseMapping := map JS.lower_latin.

(** ** Validation (routes.ts, lines 5-94) *)

Module PaymentFormData.
Record t : Type := mk {
  cardNumber : jsstring;
  cvc : jsstring;
  expiryDate : jsstring;
  amount : jsstring;
  firstName : jsstring;
  lastName : jsstring;
  email : jsstring;
  city : jsstring;
  state : jsstring;
  postalCode : jsstring;
  message : jsstring
}.
End PaymentFormData.

Record ValidationError : Type := mkError {
  field : jsstring;
  message : jsstring
}.

(** What [new Date()] shows of the day the request is validated. *)
Record Today : Type := mkToday {
  getFullYear : Z;
  getMonth : Z
}.

Definition digit : JS.regex := JS.Cls JS.isDigit.

Definition validateCardNumber (value : jsstring) : bool :=
  let cleaned := JS.remove JS.isWhiteSpace value in
  JS.test (JS.times 16 digit) cleaned.

Definition validateCVC (value : jsstring) : bool :=
  JS.test (JS.Cat (JS.times 3 digit) (JS.opt digit)) value.

Definition parseIntOpt (s : option jsstring) : option Z :=
  match s with
  | Some s => JS.parseInt s
  | None => None
  end.

Definition validateExpiryDate (today : Today) (value : jsstring) : bool :=
  if negb (JS.test (JS.Cat (JS.times 2 digit)
                      (JS.Cat (JS.chr 47) (JS.times 2 digit))) value)
  then false
  else
    let parts := JS.split 47 value in
    let month := nth_error parts 0 in
    let year := nth_error parts 1 in
    let currentYear := Z.rem (getFullYear today) 100 in
    let currentMonth := getMonth today + 1 in
    let expMonth := parseIntOpt month in
    let expYear := parseIntOpt year in
    if JS.lt expMonth (Some 1) || JS.gt expMonth (Some 12) then false
    else if JS.lt expYear (Some currentYear)
            || (JS.eq expYear (Some currentYear)
                && JS.lt expMonth (Some currentMonth))
    then false
    else true.

Definition validateAmount (value : jsstring) : bool :=
  let num := JS.parseFloat value in
  negb (JS.isNaN num) && JS.gt0 num.

(** [[^\s@]] *)
Definition notSpaceAt (c : N) : bool :=
  negb (JS.isWhiteSpace c || (c =? 64)%N).

Definition validateEmail (value : jsstring) : bool :=
  JS.test (JS.Cat (JS.plus (JS.Cls notSpaceAt))
             (JS.Cat (JS.chr 64)
                (JS.Cat (JS.plus (JS.Cls notSpaceAt))
                   (JS.Cat (JS.chr 46) (JS.plus (JS.Cls notSpaceAt))))))
          value.

Definition validatePostalCode (value : jsstring) : bool :=
  JS.test (JS.Cat (JS.times 5 digit)
             (JS.opt (JS.Cat (JS.chr 45) (JS.times 4 digit))))
          value.

Definition validateRequired (value : jsstring) : bool :=
  negb (jsstring_eqb (JS.trim value) []).

(** One entry of the [validations] table. *)
Module Rule.
Record t : Type := mk {
  field : jsstring;
  value : jsstring;
  validator : jsstring -> bool;
  message : jsstring;
  required : bool
}.
End Rule.

Definition validations (today : Today) (formData : PaymentFormData.t)
  : list Rule.t :=
  [ Rule.mk (lit "cardNumber") (PaymentFormData.cardNumber formData)
      validateCardNumber (lit "Card number must be 16 digits") true;
    Rule.mk (lit "cvc") (PaymentFormData.cvc formData)
      validateCVC (lit "CVC must be 3-4 digits") true;
    Rule.mk (lit "expiryDate") (PaymentFormData.expiryDate formData)
      (validateExpiryDate today)
      (lit "Expiry date must be valid and in the future (MM/YY)") true;
    Rule.mk (lit "amount") (PaymentFormData.amount formData)
      validateAmount (lit "Amount must be a valid positive number") true;
    Rule.mk (lit "firstName") (PaymentFormData.firstName formData)
      validateRequired (lit "First name is required") true;
    Rule.mk (lit "lastName") (PaymentFormData.lastName formData)
      validateRequired (lit "Last name is required") true;
    Rule.mk (lit "email") (PaymentFormData.email formData)
      validateEmail (lit "Please enter a valid email address") true;
    Rule.mk (lit "city") (PaymentFormData.city formData)
      validateRequired (lit "City is required") true;
    Rule.mk (lit "state") (PaymentFormData.state formData)
      validateRequired (lit "State is required") true;
    Rule.mk (lit "postalCode") (PaymentFormData.postalCode formData)
      validatePostalCode
      (lit "Postal code must be in format 12345 or 12345-6789") true ].

(** [`${field.charAt(0).toUpperCase() + field.slice(1)} is required`] *)
Definition requiredMessage (field : jsstring) : jsstring :=
  (map JS.upper_latin (JS.charAt0 field) ++ JS.slice1 field)
    ++ lit " is required".

(** A string in a condition: the empty string is falsy. *)
Definition truthy (s : jsstring) : bool :=
  match s with [] => false | _ => true end.

(** The body of the [forEach]: [errors.push] appends at the end. *)
Definition checkRule (errors : list ValidationError) (r : Rule.t)
  : list ValidationError :=
  if Rule.required r && negb (validateRequired (Rule.value r)) then
    errors ++ [mkError (Rule.field r) (requiredMessage (Rule.field r))]
  else if truthy (Rule.value r) && negb (Rule.validator r (Rule.value r)) then
    errors ++ [mkError (Rule.field r) (Rule.message r)]
  else errors.

Definition checkRules (rules : list Rule.t) : list ValidationError :=
  fold_left checkRule rules [].

Definition validatePaymentForm (today : Today) (formData : PaymentFormData.t)
  : list ValidationError :=
  checkRules (validations today formData).

(** *** What the specification calls a failing field *)

Definition fieldOrder : list jsstring :=
  map lit [ "cardNumber"; "cvc"; "expiryDate"; "amount"; "firstName";
            "lastName"; "email"; "city"; "state"; "postalCode" ]%string.

(** The value the form holds for a field. *)
Definition fieldValue (formData : PaymentFormData.t) (f : jsstring) : jsstring :=
  if jsstring_eqb f (lit "cardNumber") then PaymentFormData.cardNumber formData
  else if jsstring_eqb f (lit "cvc") then PaymentFormData.cvc formData
  else if jsstring_eqb f (lit "expiryDate") then
    PaymentFormData.expiryDate formData
  else if jsstring_eqb f (lit "amount") then PaymentFormData.amount formData
  else if jsstring_eqb f (lit "firstName") then
    PaymentFormData.firstName formData
  else if jsstring_eqb f (lit "lastName") then PaymentFormData.lastName formData
  else if jsstring_eqb f (lit "email") then PaymentFormData.email formData
  else if jsstring_eqb f (lit "city") then PaymentFormData.city formData
  else if jsstring_eqb f (lit "state") then PaymentFormData.state formData
  else if jsstring_eqb f (lit "postalCode") then
    PaymentFormData.postalCode formData
  else [].

(** The format a field has to have; a name, a city and a state have
    none. *)
Definition fieldFormat (today : Today) (f : jsstring) : jsstring -> bool :=
  if jsstring_eqb f (lit "cardNumber") then validateCardNumber
  else if jsstring_eqb f (lit "cvc") then validateCVC
  else if jsstring_eqb f (lit "expiryDate") then validateExpiryDate today
  else if jsstring_eqb f (lit "amount") then validateAmount
  else if jsstring_eqb f (lit "email") then validateEmail
  else if jsstring_eqb f (lit "postalCode") then validatePostalCode
  else fun _ => true.

(** The generic error of a field left empty. *)
Definition genericMessage (f : jsstring) : jsstring :=
  if jsstring_eqb f (lit "cardNumber") then lit "CardNumber is required"
  else if jsstring_eqb f (lit "cvc") then lit "Cvc is required"
  else if jsstring_eqb f (lit "expiryDate") then lit "ExpiryDate is required"
  else if jsstring_eqb f (lit "amount") then lit "Amount is required"
  else if jsstring_eqb f (lit "firstName") then lit "FirstName is required"
  else if jsstring_eqb f (lit "lastName") then lit "LastName is required"
  else if jsstring_eqb f (lit "email") then lit "Email is required"
  else if jsstring_eqb f (lit "city") then lit "City is required"
  else if jsstring_eqb f (lit "state") then lit "State is required"
  else if jsstring_eqb f (lit "postalCode") then lit "PostalCode is required"
  else [].

(** Empty after trimming. *)
Definition blank (value : jsstring) : bool :=
  jsstring_eqb (JS.trim value) [].

(** A field fails when its value is empty after trimming or does not
    have the format of the field. *)
Definition fieldFails (today : Today) (formData : PaymentFormData.t)
    (f : jsstring) : bool :=
  blank (fieldValue formData f)
  || negb (fieldFormat today f (fieldValue formData f)).

(** The same of an entry of the table of the code. *)
Definition ruleFails (r : Rule.t) : bool :=
  negb (validateRequired (Rule.value r))
  || negb (Rule.validator r (Rule.value r)).

(** ** Sanitizers (routes.ts, lines 96-110) *)

Definition isMarkup (c : N) : bool :=
  ((c =? 60) || (c =? 62) || (c =? 34) || (c =? 39))%N.

Definition sanitizeInput (input : jsstring) : jsstring :=
  JS.substring0 255 (JS.remove isMarkup (JS.trim input)).

Definition sanitizeEmail `{CaseMapping} (email : jsstring) : jsstring :=
  JS.substring0 254 (JS.trim (toLowerCase email)).

Definition isNumericChar (c : N) : bool :=
  (JS.isDigit c || (c =? 46) || (c =? 45))%N.

Definition sanitizeNumeric (input : jsstring) : jsstring :=
  JS.substring0 20 (JS.remove (fun c => negb (isNumericChar c)) input).

Definition today2026 : Today := mkToday 2026 10.

(** ** Entities (shared/schema.ts, as storage.ts uses them) *)

Module InsertUser.
Record t : Type := mk { username : jsstring; password : jsstring }.
End InsertUser.

(** [Partial<InsertUser>]: every key may be absent. *)
Module PartialUser.
Record t : Type := mk {
  username : option jsstring;
  password : option jsstring
}.
End PartialUser.

Module User.
Record t : Type := mk {
  id : Z;
  username : jsstring;
  password : jsstring
}.
End User.

Module InsertPayment.
Record t : Type := mk {
  cardNumber : jsstring;
  cvc : jsstring;
  expiryDate : jsstring;
  amount : jsstring;
  firstName : jsstring;
  lastName : jsstring;
  email : jsstring;
  city : jsstring;
  state : jsstring;
  postalCode : jsstring;
  message : option jsstring;
  transactionId : jsstring;
  status : option jsstring
}.
End InsertPayment.

(** Modelled from the spec: the [UpdatePayment] type of shared/schema.ts,
    which is not among the sources. The specification lets an update
    transition the status and fixes [transactionId] and [createdAt] for
    the life of a record, and every caller in routes.ts passes [{status}]
    alone: an update carries an optional status. *)
Module UpdatePayment.
Record t : Type := mk { status : option jsstring }.
End UpdatePayment.

Module Payment.
Record t : Type := mk {
  id : Z;
  transactionId : jsstring;
  cardNumber : jsstring;
  cvc : jsstring;
  expiryDate : jsstring;
  amount : jsstring;
  firstName : jsstring;
  lastName : jsstring;
  email : jsstring;
  city : jsstring;
  state : jsstring;
  postalCode : jsstring;
  message : option jsstring;
  status : jsstring;
  createdAt : Z;
  updatedAt : Z
}.

(** [{ ...existing, ...paymentData, updatedAt: now }] *)
Definition update (existing : t) (paymentData : UpdatePayment.t) (now : Z) : t :=
  mk (id existing) (transactionId existing) (cardNumber existing)
     (cvc existing) (expiryDate existing) (amount existing)
     (firstName existing) (lastName existing) (email existing)
     (city existing) (state existing) (postalCode existing)
     (message existing)
     (default (status existing) (UpdatePayment.status paymentData))
     (createdAt existing) now.
End Payment.

(** [x || fallback] on an optional string: absent and empty are falsy. *)
Definition orElse (x : option jsstring) (fallback : jsstring) : jsstring :=
  match x with
  | Some s => if truthy s then s else fallback
  | None => fallback
  end.

(** [message || null] *)
Definition orNull (x : option jsstring) : option jsstring :=
  match x with
  | Some s => if truthy s then Some s else None
  | None => None
  end.

Definition star : N := 42%N.

(** [maskCardNumber], the same text in both backends
    (storage.ts, lines 719-726 and 837-844). *)
Definition maskCardNumber (cardNumber : jsstring) : jsstring :=
  let cleaned := JS.remove JS.isWhiteSpace cardNumber in
  if (length cleaned <? 4)%nat then JS.repeat star (length cleaned)
  else
    let lastFour := JS.slice_last 4 cleaned in
    let masked := JS.repeat star (length cleaned - 4) ++ lastFour in
    masked.

(** The record both backends build from an [InsertPayment]; the id and
    the two timestamps come from the backend. *)
Definition newPayment (insertPayment : InsertPayment.t) (id now : Z) : Payment.t :=
  Payment.mk id
    (InsertPayment.transactionId insertPayment)
    (maskCardNumber (InsertPayment.cardNumber insertPayment))
    (InsertPayment.cvc insertPayment)
    (InsertPayment.expiryDate insertPayment)
    (InsertPayment.amount insertPayment)
    (InsertPayment.firstName insertPayment)
    (InsertPayment.lastName insertPayment)
    (InsertPayment.email insertPayment)
    (InsertPayment.city insertPayment)
    (InsertPayment.state insertPayment)
    (InsertPayment.postalCode insertPayment)
    (orNull (InsertPayment.message insertPayment))
    (orElse (InsertPayment.status insertPayment) (lit "pending"))
    now now.

(** What the specification says of the stored card number: the stripped
    input with all but its last four characters replaced by the mask. *)
Definition maskAllButLastFour (cardNumber : jsstring) : jsstring :=
  let cleaned := JS.remove JS.isWhiteSpace cardNumber in
  replicate (length cleaned - 4) star ++ drop (length cleaned - 4) cleaned.

(** ** A JavaScript [Map] with number keys: insertion ordered, [set] on a
    present key replaces the value in place. *)
Module JSMap.
Definition t (V : Type) : Type := list (Z * V).

Definition empty {V : Type} : t V := [].

Fixpoint get {V : Type} (k : Z) (m : t V) : option V :=
  match m with
  | [] => None
  | (k', v) :: m' => if k' =? k then Some v else get k m'
  end.

Fixpoint set {V : Type} (k : Z) (v : V) (m : t V) : t V :=
  match m with
  | [] => [(k, v)]
  | (k', v') :: m' =>
      if k' =? k then (k, v) :: m' else (k', v') :: set k v m'
  end.

Definition has {V : Type} (k : Z) (m : t V) : bool :=
  match get k m with Some _ => true | None => false end.

(** [delete] answers whether the key was present. *)
Definition delete {V : Type} (k : Z) (m : t V) : bool * t V :=
  (has k m, List.filter (fun kv => negb (fst kv =? k)) m).

Definition values {V : Type} (m : t V) : list V := map snd m.
End JSMap.

(** [n++] on a counter held in a Number: exact below [2^53]; at [2^53]
    the sum [2^53 + 1] is a tie between two doubles and rounds to the even
    one, [2^53] itself. A counter that starts at 1 never passes it. *)
Definition increment (n : Z) : Z :=
  if n <? 2 ^ 53 then n + 1 else n.

(** ** The ephemeral backend (storage.ts, lines 534-727) *)
Module MemStorage.

Record t : Type := mk {
  users : JSMap.t User.t;
  payments : JSMap.t Payment.t;
  currentUserId : Z;
  currentPaymentId : Z
}.

Definition constructor : t := mk JSMap.empty JSMap.empty 1 1.

Definition createUser (insertUser : InsertUser.t) (this : t) : User.t * t :=
  let id := currentUserId this in
  let user := User.mk id (InsertUser.username insertUser)
                (InsertUser.password insertUser) in
  (user, mk (JSMap.set id user (users this)) (payments this)
            (increment id) (currentPaymentId this)).

Definition getUser (id : Z) (this : t) : option User.t :=
  JSMap.get id (users this).

Definition getUserByUsername (username : jsstring) (this : t) : option User.t :=
  List.find (fun user => jsstring_eqb (User.username user) username)
            (JSMap.values (users this)).

Definition updateUser (id : Z) (userData : PartialUser.t) (this : t)
  : option User.t * t :=
  match JSMap.get id (users this) with
  | None => (None, this)
  | Some existingUser =>
      let updatedUser :=
        User.mk (User.id existingUser)
          (default (User.username existingUser) (PartialUser.username userData))
          (default (User.password existingUser) (PartialUser.password userData)) in
      (Some updatedUser,
       mk (JSMap.set id updatedUser (users this)) (payments this)
          (currentUserId this) (currentPaymentId this))
  end.

Definition deleteUser (id : Z) (this : t) : bool * t :=
  let '(deleted, users') := JSMap.delete id (users this) in
  (deleted, mk users' (payments this) (currentUserId this)
               (currentPaymentId this)).

(** [now] is the instant [new Date()] reads. *)
Definition createPayment (now : Z) (insertPayment : InsertPayment.t) (this : t)
  : Payment.t * t :=
  let id := currentPaymentId this in
  let payment := newPayment insertPayment id now in
  (payment, mk (users this) (JSMap.set id payment (payments this))
               (currentUserId this) (increment id)).

Definition getPayment (id : Z) (this : t) : option Payment.t :=
  JSMap.get id (payments this).

Definition getPaymentByTransactionId (transactionId : jsstring) (this : t)
  : option Payment.t :=
  List.find (fun payment =>
               jsstring_eqb (Payment.transactionId payment) transactionId)
            (JSMap.values (payments this)).

Definition updatePayment (now : Z) (id : Z) (paymentData : UpdatePayment.t)
    (this : t) : option Payment.t * t :=
  match JSMap.get id (payments this) with
  | None => (None, this)
  | Some existingPayment =>
      let updatedPayment := Payment.update existingPayment paymentData now in
      (Some updatedPayment,
       mk (users this) (JSMap.set id updatedPayment (payments this))
          (currentUserId this) (currentPaymentId this))
  end.

Definition deletePayment (id : Z) (this : t) : bool * t :=
  let '(deleted, payments') := JSMap.delete id (payments this) in
  (deleted, mk (users this) payments' (currentUserId this)
               (currentPaymentId this)).

Definition getAllPayments (this : t) : list Payment.t :=
  JSMap.values (payments this).

Definition getPaymentsByEmail `{CaseMapping} (email : jsstring) (this : t)
  : list Payment.t :=
  List.filter (fun payment =>
                 jsstring_eqb (toLowerCase (Payment.email payment))
                              (toLowerCase email))
              (JSMap.values (payments this)).

Definition getPaymentsByStatus (status : jsstring) (this : t)
  : list Payment.t :=
  List.filter (fun payment => jsstring_eqb (Payment.status payment) status)
              (JSMap.values (payments this)).

End MemStorage.

(** A call either returns or throws. *)
Inductive outcome (A : Type) : Type :=
| Returned : A -> outcome A
| Thrown : outcome A.
Arguments Returned {A} _.
Arguments Thrown {A}.

(** ** The durable backend (storage.ts, lines 733-845)

    The payment methods; the user methods go to a [users] table in the
    same way. *)
Module DatabaseStorage.

(** Modelled from the spec: the [payments] table behind [db]
    (server/db.ts and shared/schema.ts are not among the sources). Its
    rows are kept in insertion order; [id] comes from a sequence the
    engine owns, which advances on every attempted insert;
    [transactionId] is UNIQUE, so an insert that repeats one is
    rejected; [createdAt] and [updatedAt] default to the instant of the
    insert. *)
Record t : Type := mk {
  payments : list Payment.t;
  payments_id_seq : Z
}.

Definition empty : t := mk [] 1.

Definition createPayment (now : Z) (insertPayment : InsertPayment.t) (db : t)
  : outcome Payment.t * t :=
  let id := payments_id_seq db in
  let payment := newPayment insertPayment id now in
  if existsb (fun row => jsstring_eqb (Payment.transactionId row)
                           (Payment.transactionId payment))
             (payments db)
  then (Thrown, mk (payments db) (id + 1))
  else (Returned payment, mk (payments db ++ [payment]) (id + 1)).

Definition getPayment (id : Z) (db : t) : option Payment.t :=
  List.find (fun row => Payment.id row =? id) (payments db).

Definition getPaymentByTransactionId (transactionId : jsstring) (db : t)
  : option Payment.t :=
  List.find (fun row => jsstring_eqb (Payment.transactionId row) transactionId)
            (payments db).

(** [update ... set ... where id = ... returning]: the rows that match
    are rewritten in place and returned; the method answers the first. *)
Definition updatePayment (now : Z) (id : Z) (paymentData : UpdatePayment.t)
    (db : t) : option Payment.t * t :=
  let rewrite row :=
    if Payment.id row =? id then Payment.update row paymentData now else row in
  let rows := map rewrite (payments db) in
  (List.find (fun row => Payment.id row =? id) rows,
   mk rows (payments_id_seq db)).

Definition deletePayment (id : Z) (db : t) : bool * t :=
  let rowCount :=
    length (List.filter (fun row => Payment.id row =? id) (payments db)) in
  ((0 <? rowCount)%nat,
   mk (List.filter (fun row => negb (Payment.id row =? id)) (payments db))
      (payments_id_seq db)).

Definition getAllPayments (db : t) : list Payment.t := payments db.

Definition getPaymentsByEmail (email : jsstring) (db : t) : list Payment.t :=
  List.filter (fun row => jsstring_eqb (Payment.email row) email)
              (payments db).

Definition getPaymentsByStatus (status : jsstring) (db : t) : list Payment.t :=
  List.filter (fun row => jsstring_eqb (Payment.status row) status)
              (payments db).

End DatabaseStorage.

(** ** The storage interface the routes are written against *)
Class IStorage (S : Type) : Type := {
  createPayment : Z -> InsertPayment.t -> S -> outcome Payment.t * S;
  getPayment : Z -> S -> option Payment.t;
  updatePayment : Z -> Z -> UpdatePayment.t -> S -> outcome (option Payment.t) * S;
  deletePayment : Z -> S -> outcome bool * S;
  getAllPayments : S -> list Payment.t;
  getPaymentsByEmail : jsstring -> S -> list Payment.t
}.

Definition returning {A S : Type} (r : A * S) : outcome A * S :=
  (Returned (fst r), snd r).

#[export] Instance memStorage `{CaseMapping} : IStorage MemStorage.t := {
  createPayment now p s := returning (MemStorage.createPayment now p s);
  getPayment := MemStorage.getPayment;
  updatePayment now id d s := returning (MemStorage.updatePayment now id d s);
  deletePayment id s := returning (MemStorage.deletePayment id s);
  getAllPayments := MemStorage.getAllPayments;
  getPaymentsByEmail := MemStorage.getPaymentsByEmail
}.

#[export] Instance databaseStorage : IStorage DatabaseStorage.t := {
  createPayment := DatabaseStorage.createPayment;
  getPayment := DatabaseStorage.getPayment;
  updatePayment now id d s := returning (DatabaseStorage.updatePayment now id d s);
  deletePayment id s := returning (DatabaseStorage.deletePayment id s);
  getAllPayments := DatabaseStorage.getAllPayments;
  getPaymentsByEmail := DatabaseStorage.getPaymentsByEmail
}.

(** ** Request handlers

    A handler runs against the store and may throw; the storage calls it
    makes are recorded in the order they are made. *)
Inductive Call : Type :=
| CreatePayment : InsertPayment.t -> Call
| UpdatePaymentCall : Z -> UpdatePayment.t -> Call.

Record World (S : Type) : Type := mkWorld {
  store : S;
  calls : list Call
}.
Arguments mkWorld {S} _ _.
Arguments store {S} _.
Arguments calls {S} _.

Definition Handler (S A : Type) : Type := World S -> outcome A * World S.

Definition ret {S A : Type} (a : A) : Handler S A := fun w => (Returned a, w).

Definition throw {S A : Type} : Handler S A := fun w => (Thrown, w).

Definition bind {S A B : Type} (m : Handler S A) (k : A -> Handler S B)
  : Handler S B :=
  fun w => match m w with
           | (Returned a, w') => k a w'
           | (Thrown, w') => (Thrown, w')
           end.

(** [try { body } catch { recover }] *)
Definition tryCatch {S A : Type} (body : Handler S A) (recover : Handler S A)
  : Handler S A :=
  fun w => match body w with
           | (Returned a, w') => (Returned a, w')
           | (Thrown, w') => recover w'
           end.

(** A storage call: logged, then run on the store. *)
Definition call {S A : Type} (c : Call) (op : S -> outcome A * S) : Handler S A :=
  fun w => let '(r, s) := op (store w) in
           (r, mkWorld s (calls w ++ [c])).

(** What other requests do to the store while this one awaits. *)
Definition await {S : Type} (others : S -> S) : Handler S unit :=
  fun w => (Returned tt, mkWorld (others (store w)) (calls w)).

Declare Scope handler_scope.
Delimit Scope handler_scope with handler.
Notation "'let*' x ':=' m 'in' k" := (bind m (fun x => k))
  (at level 10, x name, m at level 100, k at level 200) : handler_scope.

(** A value of a JSON body, as far as the handlers tell values apart: a
    string, a falsy value that is not a string ([undefined], [null], [0],
    [false]), or a truthy one that is not a string. *)
Inductive jsvalue : Type :=
| JSString : jsstring -> jsvalue
| JSFalsy : jsvalue
| JSTruthy : jsvalue.

(** A string method called on a value: a [TypeError] ([None]) unless it
    is a string. *)
Definition asString (v : jsvalue) : option jsstring :=
  match v with
  | JSString s => Some s
  | _ => None
  end.

(** An evaluation that may raise, inside a handler. *)
Definition orThrow {S A : Type} (x : option A) : Handler S A :=
  match x with
  | Some a => ret a
  | None => throw
  end.

(** [v || ''] *)
Definition orEmpty (v : jsvalue) : jsvalue :=
  match v with
  | JSString s => JSString s
  | JSFalsy => JSString []
  | JSTruthy => JSTruthy
  end.

Module Response.
Inductive payload : Type :=
| NoData : payload
| PaymentData (amount email name status : jsstring) : payload
| StatusData (id : Z) (transactionId status : jsstring) (updatedAt : Z) : payload.

(** [res.status(code).json({ success, message, errors, transactionId,
    paymentId, data })]; keys a response leaves out are [None] or empty. *)
Record t : Type := mk {
  status : Z;
  success : bool;
  message : jsstring;
  errors : list ValidationError;
  transactionId : option jsstring;
  paymentId : option Z;
  data : payload
}.
End Response.

(** The result of [Math.random()], through the two observations the
    source makes of it: the comparison with [0.1], and the digits that
    [toString(36)] prints after ["0."] (none for the draw 0, which prints
    as ["0"]). *)
Record Random : Type := mkRandom {
  lessThanTenth : bool;
  fraction36 : list N
}.

Definition digit36 (d : N) : N :=
  let d := (d mod 36)%N in
  if (d <? 10)%N then (48 + d)%N else (87 + d)%N.

Definition toString36 (x : Random) : jsstring :=
  match fraction36 x with
  | [] => lit "0"
  | ds => lit "0." ++ map digit36 ds
  end.

Definition isBase36 (c : N) : bool :=
  (JS.isDigit c || (97 <=? c) && (c <=? 122))%N.

(** ** POST /api/payment (routes.ts, lines 120-208) *)

Module RequestBody.
Record t : Type := mk {
  cardNumber : jsvalue;
  cvc : jsvalue;
  expiryDate : jsvalue;
  amount : jsvalue;
  firstName : jsvalue;
  lastName : jsvalue;
  email : jsvalue;
  city : jsvalue;
  state : jsvalue;
  postalCode : jsvalue;
  message : jsvalue
}.
End RequestBody.

(** What a run of the handler reads from its environment. *)
Record Env (S : Type) : Type := mkEnv {
  today : Today;             (* [new Date()] in [validateExpiryDate] *)
  dateNow : Z;               (* [Date.now()] *)
  suffixDraw : Random;       (* [Math.random()] of the transaction id *)
  createdInstant : Z;        (* the instant the record is created *)
  otherRequests : S -> S;    (* the store's fate during the delay *)
  outcomeDraw : Random;      (* [Math.random()] of the gateway *)
  updatedInstant : Z         (* the instant the status is updated *)
}.
Arguments mkEnv {S} _ _ _ _ _ _ _.
Arguments today {S} _.
Arguments dateNow {S} _.
Arguments suffixDraw {S} _.
Arguments createdInstant {S} _.
Arguments otherRequests {S} _.
Arguments outcomeDraw {S} _.
Arguments updatedInstant {S} _.

Local Open Scope handler_scope.

Definition sanitizeBody `{CaseMapping} (formData : RequestBody.t)
  : option PaymentFormData.t :=
  cardNumber ← asString (RequestBody.cardNumber formData);
  cvc ← asString (RequestBody.cvc formData);
  expiryDate ← asString (RequestBody.expiryDate formData);
  amount ← asString (RequestBody.amount formData);
  firstName ← asString (RequestBody.firstName formData);
  lastName ← asString (RequestBody.lastName formData);
  email ← asString (RequestBody.email formData);
  city ← asString (RequestBody.city formData);
  state ← asString (RequestBody.state formData);
  postalCode ← asString (RequestBody.postalCode formData);
  message ← asString (orEmpty (RequestBody.message formData));
  Some (PaymentFormData.mk
          (sanitizeNumeric cardNumber) (sanitizeNumeric cvc)
          (sanitizeInput expiryDate) (sanitizeNumeric amount)
          (sanitizeInput firstName) (sanitizeInput lastName)
          (sanitizeEmail email) (sanitizeInput city) (sanitizeInput state)
          (sanitizeNumeric postalCode) (sanitizeInput message)).

(** [`TXN-${Date.now()}-${Math.random().toString(36).substr(2, 9)}`] *)
Definition transactionSuffix (x : Random) : jsstring :=
  JS.substr 2 9 (toString36 x).

Definition newTransactionId (dateNow : Z) (x : Random) : jsstring :=
  lit "TXN-" ++ JS.numberToString dateNow ++ lit "-" ++ transactionSuffix x.

(** [{ ...sanitizedData, transactionId, status: 'pending' }] *)
Definition pendingPayment (sanitizedData : PaymentFormData.t)
    (transactionId : jsstring) : InsertPayment.t :=
  InsertPayment.mk
    (PaymentFormData.cardNumber sanitizedData)
    (PaymentFormData.cvc sanitizedData)
    (PaymentFormData.expiryDate sanitizedData)
    (PaymentFormData.amount sanitizedData)
    (PaymentFormData.firstName sanitizedData)
    (PaymentFormData.lastName sanitizedData)
    (PaymentFormData.email sanitizedData)
    (PaymentFormData.city sanitizedData)
    (PaymentFormData.state sanitizedData)
    (PaymentFormData.postalCode sanitizedData)
    (Some (PaymentFormData.message sanitizedData))
    transactionId
    (Some (lit "pending")).

Definition statusOf (s : string) : UpdatePayment.t :=
  UpdatePayment.mk (Some (lit s)).

Definition validationFailed (validationErrors : list ValidationError)
  : Response.t :=
  Response.mk 400 false (lit "Validation failed") validationErrors
              None None Response.NoData.

Definition declined : Response.t :=
  Response.mk 422 false
    (lit "Payment could not be processed. Please try again or use a different payment method.")
    [mkError (lit "cardNumber") (lit "Card was declined")]
    None None Response.NoData.

Definition processed (sanitizedData : PaymentFormData.t)
    (paymentRecord : Payment.t) (completedPayment : option Payment.t)
  : Response.t :=
  Response.mk 200 true
    (lit "Payment of $" ++ PaymentFormData.amount sanitizedData
       ++ lit " processed successfully!")
    []
    (Some (Payment.transactionId paymentRecord))
    (Some (Payment.id paymentRecord))
    (Response.PaymentData
       (PaymentFormData.amount sanitizedData)
       (PaymentFormData.email sanitizedData)
       (PaymentFormData.firstName sanitizedData ++ lit " "
          ++ PaymentFormData.lastName sanitizedData)
       (orElse (Payment.status <$> completedPayment) (lit "completed"))).

Definition serverError : Response.t :=
  Response.mk 500 false
    (lit "Internal server error. Please try again later.")
    [mkError (lit "general") (lit "Server error occurred")]
    None None Response.NoData.

Definition postPayment `{CaseMapping} {S : Type} {storage : IStorage S}
    (env : Env S) (formData : RequestBody.t) : Handler S Response.t :=
  tryCatch
    (let* sanitizedData := orThrow (sanitizeBody formData) in
     let validationErrors := validatePaymentForm (today env) sanitizedData in
     if (0 <? length validationErrors)%nat then
       ret (validationFailed validationErrors)
     else
       let transactionId := newTransactionId (dateNow env) (suffixDraw env) in
       let insert := pendingPayment sanitizedData transactionId in
       let* paymentRecord :=
         call (CreatePayment insert)
              (createPayment (createdInstant env) insert) in
       let* _ := await (otherRequests env) in
       let shouldFail := lessThanTenth (outcomeDraw env) in
       if shouldFail then
         let* _ :=
           call (UpdatePaymentCall (Payment.id paymentRecord) (statusOf "failed"))
                (updatePayment (updatedInstant env) (Payment.id paymentRecord)
                               (statusOf "failed")) in
         ret declined
       else
         let* completedPayment :=
           call (UpdatePaymentCall (Payment.id paymentRecord) (statusOf "completed"))
                (updatePayment (updatedInstant env) (Payment.id paymentRecord)
                               (statusOf "completed")) in
         ret (processed sanitizedData paymentRecord completedPayment))
    (ret serverError).

(** ** PATCH /api/payment/:id/status (routes.ts, lines 307-365) *)

Definition validStatuses : list jsstring :=
  map lit ["pending"; "completed"; "failed"; "refunded"]%string.

(** [validStatuses.includes(s)] *)
Definition includes (l : list jsstring) (s : jsstring) : bool :=
  existsb (jsstring_eqb s) l.

Definition badRequest (message : jsstring) : Response.t :=
  Response.mk 400 false message [] None None Response.NoData.

Definition notFound : Response.t :=
  Response.mk 404 false (lit "Payment not found") [] None None Response.NoData.

Definition statusUpdated (sanitizedStatus : jsstring)
    (updatedPayment : Payment.t) : Response.t :=
  Response.mk 200 true (lit "Payment status updated to " ++ sanitizedStatus)
    [] None None
    (Response.StatusData (Payment.id updatedPayment)
       (Payment.transactionId updatedPayment)
       (Payment.status updatedPayment)
       (Payment.updatedAt updatedPayment)).

Definition updateFailed : Response.t :=
  Response.mk 500 false (lit "Error updating payment status") []
              None None Response.NoData.

Definition patchPaymentStatus {S : Type} {storage : IStorage S}
    (now : Z) (id : jsstring) (status : jsvalue) : Handler S Response.t :=
  tryCatch
    (let paymentId := JS.parseInt id in
     let* status := orThrow (asString status) in
     let sanitizedStatus := sanitizeInput status in
     match paymentId with
     | None => ret (badRequest (lit "Invalid payment ID"))
     | Some paymentId =>
         if negb (includes validStatuses sanitizedStatus) then
           ret (badRequest
                  (lit "Invalid status. Must be one of: pending, completed, failed, refunded"))
         else
           let* updatedPayment :=
             call (UpdatePaymentCall paymentId
                     (UpdatePayment.mk (Some sanitizedStatus)))
                  (updatePayment now paymentId
                     (UpdatePayment.mk (Some sanitizedStatus))) in
           match updatedPayment with
           | None => ret notFound
           | Some updatedPayment =>
               ret (statusUpdated sanitizedStatus updatedPayment)
           end
     end)
    (ret updateFailed).

(** Running a handler on a store, with an empty call log. *)
Definition run {S A : Type} (h : Handler S A) (s : S) : outcome A * World S :=
  h (mkWorld s []).

(** ** Histories of the ephemeral backend *)

Inductive Op : Type :=
| OpCreate (now : Z) (insertPayment : InsertPayment.t)
| OpUpdate (now : Z) (id : Z) (paymentData : UpdatePayment.t)
| OpDelete (id : Z).

Definition step (op : Op) (this : MemStorage.t) : MemStorage.t :=
  match op with
  | OpCreate now p => snd (MemStorage.createPayment now p this)
  | OpUpdate now id d => snd (MemStorage.updatePayment now id d this)
  | OpDelete id => snd (MemStorage.deletePayment id this)
  end.

(** The id an operation assigns, if it creates a payment. *)
Definition assigned (op : Op) (this : MemStorage.t) : list Z :=
  match op with
  | OpCreate now p => [Payment.id (fst (MemStorage.createPayment now p this))]
  | _ => []
  end.

Definition finalStore (ops : list Op) (this : MemStorage.t) : MemStorage.t :=
  fold_left (fun s op => step op s) ops this.

(** The ids the creations of a history return, in order. *)
Fixpoint assignedIds (ops : list Op) (this : MemStorage.t) : list Z :=
  match ops with
  | [] => []
  | op :: ops' => assigned op this ++ assignedIds ops' (step op this)
  end.

Definition isCreate (op : Op) : bool :=
  match op with OpCreate _ _ => true | _ => false end.

Definition creations (ops : list Op) : nat :=
  length (List.filter isCreate ops).

(** The instants [new Date()] reads along a history. *)
Definition instant (op : Op) : list Z :=
  match op with
  | OpCreate now _ => [now]
  | OpUpdate now _ _ => [now]
  | OpDelete _ => []
  end.

Fixpoint nondecreasing (ts : list Z) : bool :=
  match ts with
  | [] => true
  | t :: ts' =>
      match ts' with
      | [] => true
      | t' :: _ => (t <=? t') && nondecreasing ts'
      end
  end.

(** The clock does not run backwards along the history. *)
Definition wellTimed (ops : list Op) : bool :=
  nondecreasing (flat_map instant ops).

(** The pipeline's submission is fully valid: sanitizing raises nothing
    and validation reports no error. *)
Definition fullyValid `{CaseMapping} (today : Today) (formData : RequestBody.t)
  : bool :=
  match sanitizeBody formData with
  | Some sanitizedData =>
      (length (validatePaymentForm today sanitizedData) =? 0)%nat
  | None => false
  end.

(** ** The vocabulary of the statements, and sample data *)

Definition unmasked (s : jsstring) : nat :=
  length (List.filter (fun c => negb (c =? star)%N) s).

(** An [InsertPayment] with the given card number, e-mail address and
    transaction id, the other fields as a valid submission has them. *)
Definition sampleInsert (cardNumber email transactionId : string)
  : InsertPayment.t :=
  InsertPayment.mk (lit cardNumber) (lit "123") (lit "12/30") (lit "25.00")
    (lit "Ada") (lit "Lovelace") (lit email) (lit "London") (lit "LN")
    (lit "12345") (Some []) (lit transactionId) (Some (lit "pending")).

(** What one rule contributes to the error list. *)
Definition ruleErrors (r : Rule.t) : list ValidationError :=
  checkRule [] r.

Definition formWithoutEmail : PaymentFormData.t :=
  PaymentFormData.mk (lit "4111111111111111") (lit "12") (lit "12/30")
    (lit "25.00") (lit "Ada") (lit "  ") [] (lit "London") (lit "LN")
    (lit "1234") [].

(** The draws 0.5 and 0: [(0.5).toString(36)] is ["0.i"] and
    [(0).toString(36)] is ["0"]. *)
Definition drawHalf : Random := mkRandom false [18%N].
Definition drawZero : Random := mkRandom true [].

(** Every payment of the store was created no later than it was last
    updated, and last updated no later than [T]. *)
Definition settledBy (T : Z) (this : MemStorage.t) : Prop :=
  forall p, In p (MemStorage.getAllPayments this) ->
            Payment.createdAt p <= Payment.updatedAt p
            /\ Payment.updatedAt p <= T.

Definition sampleHistory : list Op :=
  [ OpCreate 100 (sampleInsert "4111111111111111" "ada@example.com" "TXN-100-a");
    OpCreate 100 (sampleInsert "4222222222222222" "bob@example.com" "TXN-100-b");
    OpUpdate 250 1 (statusOf "completed");
    OpDelete 2;
    OpUpdate 300 1 (statusOf "refunded") ].

(** A history during which the clock is set back: the payment is
    created at the instant 100 and updated at the instant 50. *)
Definition clockSetBack : list Op :=
  [ OpCreate 100 (sampleInsert "4111111111111111" "ada@example.com" "TXN-100-a");
    OpUpdate 50 1 (statusOf "completed") ].

Definition maxCounter : Z := 2 ^ 53.

Definition churn : list Op :=
  [ OpCreate 100 (sampleInsert "4111111111111111" "ada@example.com" "TXN-100-a");
    OpDelete 1;
    OpCreate 200 (sampleInsert "4111111111111111" "ada@example.com" "TXN-200-a");
    OpCreate 300 (sampleInsert "4222222222222222" "bob@example.com" "TXN-300-b");
    OpDelete 3 ].

(** A history of [2^53 + 1] creations. *)
Definition oneCreation : Op :=
  OpCreate 0 (sampleInsert "4111111111111111" "ada@example.com" "TXN-0-a").

Definition pastTheLimit : list Op :=
  replicate (Z.to_nat (maxCounter - 1)) oneCreation
    ++ [oneCreation; oneCreation].

Definition finalStatus (x : Random) : jsstring :=
  if lessThanTenth x then lit "failed" else lit "completed".

Definition finalCode (x : Random) : Z :=
  if lessThanTenth x then 422 else 200.

(** The rows of a table are numbered by its sequence. *)
Definition sequenced (db : DatabaseStorage.t) : Prop :=
  Forall (fun row => Payment.id row < DatabaseStorage.payments_id_seq db)
         (DatabaseStorage.payments db).

(** What a run of the pipeline on a fully valid submission comes to.
    [wf] is what the backend needs of the store to find a record it has
    just created. *)
Definition settles `{CaseMapping} {S : Type} {storage : IStorage S}
    (wf : S -> Prop) (env : Env S) (formData : RequestBody.t) (s : S) : Prop :=
  exists sanitizedData response w,
    sanitizeBody formData = Some sanitizedData
    /\ run (postPayment env formData) s = (Returned response, w)
    /\ let insert :=
         pendingPayment sanitizedData
           (newTransactionId (dateNow env) (suffixDraw env)) in
       match createPayment (createdInstant env) insert s with
       | (Thrown, s') =>
           (* the unexpected error *)
           Response.status response = 500 /\ store w = s'
       | (Returned paymentRecord, s1) =>
           Payment.status paymentRecord = lit "pending"
           /\ Response.status response = finalCode (outcomeDraw env)
           /\ finalStatus (outcomeDraw env) <> lit "pending"
           (* whatever other requests did to the store during the delay *)
           /\ match getPayment (Payment.id paymentRecord) (store w) with
              | Some p => Payment.status p = finalStatus (outcomeDraw env)
              | None =>
                  getPayment (Payment.id paymentRecord)
                             (otherRequests env s1) = None
              end
           (* when they left the new record in place *)
           /\ (wf s ->
               getPayment (Payment.id paymentRecord) (otherRequests env s1)
                 = getPayment (Payment.id paymentRecord) s1 ->
               getPayment (Payment.id paymentRecord) (store w)
               = Some (Payment.update paymentRecord
                         (UpdatePayment.mk (Some (finalStatus (outcomeDraw env))))
                         (updatedInstant env)))
       end.

(** A submission, its environment and the runs of the pipeline on it. *)
Definition sampleBody : RequestBody.t :=
  RequestBody.mk (JSString (lit "4111 1111 1111 1111")) (JSString (lit "123"))
    (JSString (lit "12/30")) (JSString (lit "25.00")) (JSString (lit " Ada "))
    (JSString (lit "Lovelace")) (JSString (lit "Ada@Example.com"))
    (JSString (lit "London")) (JSString (lit "LN")) (JSString (lit "12345"))
    JSFalsy.

Definition sampleEnv {S : Type} (outcome : Random) : Env S :=
  mkEnv today2026 1762041600000 (mkRandom false [10; 11; 12; 1; 2; 3; 35; 0; 7; 9; 4]%N)
        1762041600001 (fun s => s) outcome 1762041601502.

Definition approved : Random := mkRandom false [18%N].
Definition rejected : Random := mkRandom true [1; 2; 3]%N.

(** ** Further vocabulary: patterns, routes and histories *)

(** The language of a pattern: the strings [/^r$/] accepts. *)
Inductive Lang : JS.regex -> jsstring -> Prop :=
| LangEps : Lang JS.Eps []
| LangCls (p : N -> bool) (c : N) : p c = true -> Lang (JS.Cls p) [c]
| LangCat (a b : JS.regex) (s t : jsstring) :
    Lang a s -> Lang b t -> Lang (JS.Cat a b) (s ++ t)
| LangAltL (a b : JS.regex) (s : jsstring) : Lang a s -> Lang (JS.Alt a b) s
| LangAltR (a b : JS.regex) (s : jsstring) : Lang b s -> Lang (JS.Alt a b) s
| LangStarNil (a : JS.regex) : Lang (JS.Star a) []
| LangStarApp (a : JS.regex) (s t : jsstring) :
    Lang a s -> Lang (JS.Star a) t -> Lang (JS.Star a) (s ++ t).

(** The number two digits spell. *)
Definition twoDigits (a b : N) : Z := Z.of_N (10 * (a - 48) + (b - 48)).

Definition digitCodes : list N := [48; 49; 50; 51; 52; 53; 54; 55; 56; 57]%N.

(** The characters of a transaction id: base-36 digits, [T], [X], [N]
    and the hyphen. *)
Definition isIdChar (c : N) : bool :=
  (isBase36 c || (c =? 84) || (c =? 88) || (c =? 78) || (c =? 45))%N.

(** ** The read and delete routes (routes.ts, lines 210-301 and 367-470) *)

(** The two look-ups of [IStorage] the routes above do not need. *)
Class IStorageQueries (S : Type) : Type := {
  getPaymentByTransactionId : jsstring -> S -> option Payment.t;
  getPaymentsByStatus : jsstring -> S -> list Payment.t
}.

#[export] Instance memQueries : IStorageQueries MemStorage.t := {
  getPaymentByTransactionId := MemStorage.getPaymentByTransactionId;
  getPaymentsByStatus := MemStorage.getPaymentsByStatus
}.

#[export] Instance databaseQueries : IStorageQueries DatabaseStorage.t := {
  getPaymentByTransactionId := DatabaseStorage.getPaymentByTransactionId;
  getPaymentsByStatus := DatabaseStorage.getPaymentsByStatus
}.

(** [res.status(code).json({ success, message, data })] of these routes;
    a key the response leaves out is [None]. *)
Module Reply.
Record t (D : Type) : Type := mk {
  status : Z;
  success : bool;
  message : option jsstring;
  data : option D
}.
Arguments mk {D} _ _ _ _.
Arguments status {D} _.
Arguments success {D} _.
Arguments message {D} _.
Arguments data {D} _.
End Reply.

Module PaymentDetails.
Record t : Type := mk {
  id : Z;
  transactionId : jsstring;
  amount : jsstring;
  status : jsstring;
  customerName : jsstring;
  email : jsstring;
  createdAt : Z;
  updatedAt : Z
}.
End PaymentDetails.

Module CustomerPayment.
Record t : Type := mk {
  id : Z;
  transactionId : jsstring;
  amount : jsstring;
  status : jsstring;
  createdAt : Z
}.
End CustomerPayment.

Module CustomerHistory.
Record t : Type := mk {
  email : jsstring;
  paymentCount : nat;
  payments : list CustomerPayment.t
}.
End CustomerHistory.

Module ReportedPayment.
Record t : Type := mk {
  id : Z;
  transactionId : jsstring;
  amount : jsstring;
  customerEmail : jsstring;
  createdAt : Z;
  updatedAt : Z
}.
End ReportedPayment.

Module StatusReport.
Record t : Type := mk {
  status : jsstring;
  count : nat;
  payments : list ReportedPayment.t
}.
End StatusReport.

Module DeletedPayment.
Record t : Type := mk {
  deletedId : Z;
  transactionId : jsstring
}.
End DeletedPayment.

(** A read of the store, and a storage call that is not logged. *)
Definition peek {S A : Type} (read : S -> A) : Handler S A :=
  fun w => (Returned (read (store w)), w).

Definition quiet {S A : Type} (op : S -> outcome A * S) : Handler S A :=
  fun w => let '(r, s) := op (store w) in (r, mkWorld s (calls w)).

Definition paymentDetails (payment : Payment.t) : PaymentDetails.t :=
  PaymentDetails.mk (Payment.id payment) (Payment.transactionId payment)
    (Payment.amount payment) (Payment.status payment)
    (Payment.firstName payment ++ lit " " ++ Payment.lastName payment)
    (Payment.email payment) (Payment.createdAt payment)
    (Payment.updatedAt payment).

(** GET /api/payment/:transactionId *)
Definition getPaymentRoute {S : Type} {queries : IStorageQueries S}
    (transactionId : jsstring) : Handler S (Reply.t PaymentDetails.t) :=
  tryCatch
    (let sanitizedTxnId := sanitizeInput transactionId in
     let* payment := peek (getPaymentByTransactionId sanitizedTxnId) in
     match payment with
     | None => ret (Reply.mk 404 false (Some (lit "Payment not found")) None)
     | Some payment =>
         ret (Reply.mk 200 true None (Some (paymentDetails payment)))
     end)
    (ret (Reply.mk 500 false
            (Some (lit "Error retrieving payment information")) None)).

Definition customerPayment (payment : Payment.t) : CustomerPayment.t :=
  CustomerPayment.mk (Payment.id payment) (Payment.transactionId payment)
    (Payment.amount payment) (Payment.status payment)
    (Payment.createdAt payment).

(** GET /api/payments/customer/:email *)
Definition getCustomerPaymentsRoute `{CaseMapping} {S : Type}
    {storage : IStorage S} (email : jsstring)
  : Handler S (Reply.t CustomerHistory.t) :=
  tryCatch
    (let sanitizedEmail := sanitizeEmail email in
     let* payments := peek (getPaymentsByEmail sanitizedEmail) in
     let customerPayments := map customerPayment payments in
     ret (Reply.mk 200 true None
            (Some (CustomerHistory.mk sanitizedEmail (length payments)
                     customerPayments))))
    (ret (Reply.mk 500 false
            (Some (lit "Error retrieving customer payments")) None)).

Definition reportedPayment (payment : Payment.t) : ReportedPayment.t :=
  ReportedPayment.mk (Payment.id payment) (Payment.transactionId payment)
    (Payment.amount payment) (Payment.email payment)
    (Payment.createdAt payment) (Payment.updatedAt payment).

(** GET /api/payments/status/:status *)
Definition getPaymentsByStatusRoute {S : Type} {queries : IStorageQueries S}
    (status : jsstring) : Handler S (Reply.t StatusReport.t) :=
  tryCatch
    (let sanitizedStatus := sanitizeInput status in
     let* payments := peek (getPaymentsByStatus sanitizedStatus) in
     let statusReport := map reportedPayment payments in
     ret (Reply.mk 200 true None
            (Some (StatusReport.mk sanitizedStatus (length payments)
                     statusReport))))
    (ret (Reply.mk 500 false
            (Some (lit "Error generating status report")) None)).

(** DELETE /api/payment/:id *)
Definition deletePaymentRoute {S : Type} {storage : IStorage S}
    (id : jsstring) : Handler S (Reply.t DeletedPayment.t) :=
  tryCatch
    (let paymentId := JS.parseInt id in
     match paymentId with
     | None => ret (Reply.mk 400 false (Some (lit "Invalid payment ID")) None)
     | Some paymentId =>
         let* existingPayment := peek (getPayment paymentId) in
         match existingPayment with
         | None =>
             ret (Reply.mk 404 false (Some (lit "Payment not found")) None)
         | Some existingPayment =>
             let* deleted := quiet (deletePayment paymentId) in
             if (deleted : bool) then
               ret (Reply.mk 200 true
                      (Some (lit "Payment record deleted successfully"))
                      (Some (DeletedPayment.mk paymentId
                               (Payment.transactionId existingPayment))))
             else
               ret (Reply.mk 500 false
                      (Some (lit "Failed to delete payment record")) None)
         end
     end)
    (ret (Reply.mk 500 false
            (Some (lit "Error deleting payment record")) None)).

(** The ten fields of a body that a string method is called on. *)
Definition stringFields (formData : RequestBody.t) : list jsvalue :=
  [ RequestBody.cardNumber formData; RequestBody.cvc formData;
    RequestBody.expiryDate formData; RequestBody.amount formData;
    RequestBody.firstName formData; RequestBody.lastName formData;
    RequestBody.email formData; RequestBody.city formData;
    RequestBody.state formData; RequestBody.postalCode formData ].

(** What a PATCH with a numeric id [n] and a valid status comes to. *)
Definition patched {S : Type} {storage : IStorage S}
    (now : Z) (id status : jsstring) (n : Z) (s : S) : Prop :=
  let update := UpdatePayment.mk (Some (sanitizeInput status)) in
  exists response s',
    run (patchPaymentStatus now id (JSString status)) s
    = (Returned response, mkWorld s' [UpdatePaymentCall n update])
    /\ match getPayment n s with
       | Some p =>
           response
           = Response.mk 200 true
               (lit "Payment status updated to " ++ sanitizeInput status)
               [] None None
               (Response.StatusData (Payment.id p) (Payment.transactionId p)
                  (sanitizeInput status) now)
           /\ getPayment n s'
              = Some (Payment.mk (Payment.id p) (Payment.transactionId p)
                        (Payment.cardNumber p) (Payment.cvc p)
                        (Payment.expiryDate p) (Payment.amount p)
                        (Payment.firstName p) (Payment.lastName p)
                        (Payment.email p) (Payment.city p) (Payment.state p)
                        (Payment.postalCode p) (Payment.message p)
                        (sanitizeInput status) (Payment.createdAt p) now)
       | None =>
           response
           = Response.mk 404 false (lit "Payment not found") [] None None
               Response.NoData
           /\ getPayment n s' = None
       end.

Definition bodyWithBadCvc : RequestBody.t :=
  RequestBody.mk (JSString (lit "4111 1111 1111 1111")) (JSString (lit "12"))
    (JSString (lit "12/30")) (JSString (lit "25.00")) (JSString (lit "Ada"))
    (JSString (lit "Lovelace")) (JSString (lit "ada@example.com"))
    (JSString (lit "London")) (JSString (lit "LN")) (JSString (lit "12345"))
    JSFalsy.

Definition bodyWithoutCvc : RequestBody.t :=
  RequestBody.mk (JSString (lit "4111 1111 1111 1111")) JSFalsy
    (JSString (lit "12/30")) (JSString (lit "25.00")) (JSString (lit "Ada"))
    (JSString (lit "Lovelace")) (JSString (lit "ada@example.com"))
    (JSString (lit "London")) (JSString (lit "LN")) (JSString (lit "12345"))
    JSFalsy.

Definition invalidId : Reply.t DeletedPayment.t :=
  Reply.mk 400 false (Some (lit "Invalid payment ID")) None.

Definition nothingToDelete : Reply.t DeletedPayment.t :=
  Reply.mk 404 false (Some (lit "Payment not found")) None.

Definition deletedReply (n : Z) (payment : Payment.t) : Reply.t DeletedPayment.t :=
  Reply.mk 200 true (Some (lit "Payment record deleted successfully"))
    (Some (DeletedPayment.mk n (Payment.transactionId payment))).

(** What a DELETE comes to, by what [parseInt] reads in the id and what
    the store holds under it. *)
Definition deleteOutcome {S : Type} {storage : IStorage S}
    (id : jsstring) (s : S) : Prop :=
  match JS.parseInt id with
  | None => run (deletePaymentRoute id) s = (Returned invalidId, mkWorld s [])
  | Some n =>
      match getPayment n s with
      | None =>
          run (deletePaymentRoute id) s = (Returned nothingToDelete, mkWorld s [])
      | Some payment =>
          exists s',
            run (deletePaymentRoute id) s
            = (Returned (deletedReply n payment), mkWorld s' [])
            /\ getPayment n s' = None
            /\ (forall n', n' <> n -> getPayment n' s' = getPayment n' s)
            /\ run (deletePaymentRoute id) s'
               = (Returned nothingToDelete, mkWorld s' [])
      end
  end.

(** ** Vocabulary for the store of the ephemeral backend *)

(** A PATCH of payment [n] to [status] answers, and the status report for
    the same [status], asked next, lists the payment [p] as updated. *)
Definition reportedAfterPatch {S : Type} {storage : IStorage S}
    {queries : IStorageQueries S}
    (now : Z) (id status : jsstring) (n : Z) (s : S) (p : Payment.t) : Prop :=
  let update := UpdatePayment.mk (Some (sanitizeInput status)) in
  exists response s' report,
    run (patchPaymentStatus now id (JSString status)) s
    = (Returned response, mkWorld s' [UpdatePaymentCall n update])
    /\ run (getPaymentsByStatusRoute status) s'
       = (Returned (Reply.mk 200 true None (Some report)), mkWorld s' [])
    /\ StatusReport.status report = sanitizeInput status
    /\ StatusReport.count report = length (StatusReport.payments report)
    /\ In (reportedPayment (Payment.update p update now))
          (StatusReport.payments report).

(** The keys of the payments map are distinct, every payment sits under
    its own id, and no id is above the counter. *)
Definition keyed (m : JSMap.t Payment.t) (counter : Z) : Prop :=
  NoDup (map fst m)
  /\ Forall (fun kv => Payment.id (snd kv) = fst kv /\ 1 <= fst kv <= counter) m.

(** What GET /api/payment/:transactionId answers on a store whose
    payments are [all]. *)
Definition lookupOutcome {S : Type} {queries : IStorageQueries S}
    (all : S -> list Payment.t) (transactionId : jsstring) (s : S) : Prop :=
  exists reply,
    run (getPaymentRoute transactionId) s = (Returned reply, mkWorld s [])
    /\ ((Reply.status reply = 404 /\ Reply.data reply = None
         /\ Forall (fun p => Payment.transactionId p
                             <> sanitizeInput transactionId) (all s))
        \/ (Reply.status reply = 200
            /\ exists p,
                 In p (all s)
                 /\ Payment.transactionId p = sanitizeInput transactionId
                 /\ Reply.data reply = Some (paymentDetails p))).

(** * Properties *)

(** ** The validators on the examples of the specification *)

Example ex_card : validateCardNumber (lit "4111 1111 1111 1111") = true.
Proof. vm_compute. reflexivity. Qed.

Example ex_card15 : validateCardNumber (lit "411111111111111") = false.
Proof. vm_compute. reflexivity. Qed.

Example ex_expiry :
  map (validateExpiryDate today2026)
      (map lit ["01/20"; "11/26"; "10/26"; "12/99"; "13/30"; "00/30";
                "1/30"; "12/2030"]%string)
  = [false; true; false; true; false; false; false; false].
Proof. vm_compute. reflexivity. Qed.

Example ex_amount :
  map validateAmount
      (map lit ["12.50"; "0"; "-3"; ".5"; "abc"; "1e-400"; "1e-300"; "0.0";
                "5."; "."; "Infinity"; "  7x"]%string)
  = [true; false; false; true; false; false; true; false;
     true; false; true; true].
Proof. vm_compute. reflexivity. Qed.

Example ex_email :
  map validateEmail
      (map lit ["a@b.co"; "a@b"; "a b@c.d"; "a@@b.c"; "a@b.c.d"; "@b.c";
                "a@.c"; "a@b."]%string ++ [[]])
  = [true; false; false; false; true; false; false; false; false].
Proof. vm_compute. reflexivity. Qed.

Example ex_postalCode :
  map validatePostalCode
      (map lit ["12345"; "12345-6789"; "1234"; "12345-"; "123456"]%string)
  = [true; true; false; false; false].
Proof. vm_compute. reflexivity. Qed.

Example ex_cvc :
  map validateCVC (map lit ["123"; "1234"; "12"; "12345"; "12a"]%string)
  = [true; true; false; false; false].
Proof. vm_compute. reflexivity. Qed.

Example ex_requiredMessage :
  map requiredMessage fieldOrder
  = map lit ["CardNumber is required"; "Cvc is required";
             "ExpiryDate is required"; "Amount is required";
             "FirstName is required"; "LastName is required";
             "Email is required"; "City is required"; "State is required";
             "PostalCode is required"]%string.
Proof. vm_compute. reflexivity. Qed.

Example ex_parseInt :
  map JS.parseInt
      (map lit ["12"; "abc"; "12abc"; " -7"; "0x1f"; "0x"; "08"]%string ++ [[]])
  = [Some 12; None; Some 12; Some (-7); Some 31; None; Some 8; None].
Proof. vm_compute. reflexivity. Qed.

(** Above [2^53] the integer read is the nearest double, and from 309
    digits on it is [Infinity]. *)
Example ex_parseInt_rounds :
  map JS.parseInt
      (map lit ["9007199254740992"; "9007199254740993"; "9007199254740995";
                "-9007199254740993"; "0x20000000000001"]%string)
  = [Some 9007199254740992; Some 9007199254740992; Some 9007199254740996;
     Some (-9007199254740992); Some 9007199254740992]
  /\ JS.parseInt (lit "1" ++ replicate 400 48%N) = Some (2 ^ 1024).
Proof. vm_compute. split; reflexivity. Qed.

Example ex_sanitize :
  sanitizeInput (lit "  <b>O'Neil</b>  ") = lit "bONeil/b"
  /\ sanitizeNumeric (lit "4111 1111-1111.1111 x") = lit "41111111-1111.1111"
  /\ @sanitizeEmail latinCaseMapping (lit "  Ada@Example.COM ")
     = lit "ada@example.com".
Proof. vm_compute. repeat split. Qed.

(** ** The map *)

Section JSMapFacts.
Context {V : Type}.
Implicit Types (m : JSMap.t V) (k : Z) (v : V).

Lemma get_set_eq m k v : JSMap.get k (JSMap.set k v m) = Some v.
Proof.
  induction m as [|[k' v'] m IH]; simpl.
  - by rewrite Z.eqb_refl.
  - destruct (k' =? k) eqn:E; simpl.
    + by rewrite Z.eqb_refl.
    + by rewrite E.
Qed.

Lemma get_set_ne m k k' v :
  k <> k' -> JSMap.get k' (JSMap.set k v m) = JSMap.get k' m.
Proof.
  intros Hne. induction m as [|[k0 v0] m IH]; simpl.
  - destruct (k =? k') eqn:E; [lia | done].
  - destruct (k0 =? k) eqn:E; simpl.
    + apply Z.eqb_eq in E. subst k0.
      destruct (k =? k') eqn:E'; [lia | done].
    + by rewrite IH.
Qed.

Lemma get_delete_eq m k : JSMap.get k (snd (JSMap.delete k m)) = None.
Proof.
  unfold JSMap.delete. simpl.
  induction m as [|[k0 v0] m IH]; simpl; [done|].
  destruct (k0 =? k) eqn:E; simpl; [done|]. by rewrite E.
Qed.

Lemma get_delete_ne m k k' :
  k <> k' -> JSMap.get k' (snd (JSMap.delete k m)) = JSMap.get k' m.
Proof.
  intros Hne. unfold JSMap.delete. simpl.
  induction m as [|[k0 v0] m IH]; simpl; [done|].
  destruct (k0 =? k) eqn:E; simpl.
  - apply Z.eqb_eq in E. subst k0.
    destruct (k =? k') eqn:E'; [lia | done].
  - by rewrite IH.
Qed.

Lemma get_In_values m k v : JSMap.get k m = Some v -> In v (JSMap.values m).
Proof.
  induction m as [|[k0 v0] m IH]; simpl; [done|].
  destruct (k0 =? k); [intros [= ->]; by left | right; auto].
Qed.
End JSMapFacts.

(** ** Masking *)

Lemma jsstring_eqb_eq (a b : jsstring) : jsstring_eqb a b = true <-> a = b.
Proof. unfold jsstring_eqb. apply bool_decide_eq_true. Qed.

Lemma jsstring_eqb_neq (a b : jsstring) : jsstring_eqb a b = false <-> a <> b.
Proof. unfold jsstring_eqb. apply bool_decide_eq_false. Qed.

Lemma maskCardNumber_short (cardNumber : jsstring) :
  (length (JS.remove JS.isWhiteSpace cardNumber) < 4)%nat ->
  maskCardNumber cardNumber
  = replicate (length (JS.remove JS.isWhiteSpace cardNumber)) star.
Proof.
  intros Hlen. unfold maskCardNumber.
  destruct (Nat.ltb_spec (length (JS.remove JS.isWhiteSpace cardNumber)) 4);
    [done | lia].
Qed.

Lemma maskCardNumber_long (cardNumber : jsstring) :
  (4 <= length (JS.remove JS.isWhiteSpace cardNumber))%nat ->
  maskCardNumber cardNumber = maskAllButLastFour cardNumber.
Proof.
  intros Hlen. unfold maskCardNumber, maskAllButLastFour.
  destruct (Nat.ltb_spec (length (JS.remove JS.isWhiteSpace cardNumber)) 4);
    [lia | done].
Qed.

Lemma maskCardNumber_length (cardNumber : jsstring) :
  length (maskCardNumber cardNumber)
  = length (JS.remove JS.isWhiteSpace cardNumber).
Proof.
  unfold maskCardNumber, JS.repeat, JS.slice_last.
  destruct (Nat.ltb_spec (length (JS.remove JS.isWhiteSpace cardNumber)) 4).
  - by rewrite length_replicate.
  - rewrite length_app, length_replicate, length_drop. lia.
Qed.

Lemma maskCardNumber_prefix (cardNumber : jsstring) :
  Forall (eq star)
    (take (length (JS.remove JS.isWhiteSpace cardNumber) - 4)
          (maskCardNumber cardNumber)).
Proof.
  unfold maskCardNumber, JS.repeat, JS.slice_last.
  destruct (Nat.ltb_spec (length (JS.remove JS.isWhiteSpace cardNumber)) 4).
  - apply Forall_take, Forall_replicate. reflexivity.
  - rewrite take_app_length'; [|by rewrite length_replicate].
    apply Forall_replicate. reflexivity.
Qed.

Lemma unmasked_replicate (n : nat) : unmasked (replicate n star) = 0%nat.
Proof. induction n; [done|]. unfold unmasked in *. simpl. exact IHn. Qed.

Lemma unmasked_le_length (s : jsstring) : (unmasked s <= length s)%nat.
Proof. unfold unmasked. apply List.filter_length_le. Qed.

Lemma maskCardNumber_unmasked (cardNumber : jsstring) :
  (unmasked (maskCardNumber cardNumber) <= 4)%nat.
Proof.
  unfold maskCardNumber, JS.repeat, JS.slice_last.
  destruct (Nat.ltb_spec (length (JS.remove JS.isWhiteSpace cardNumber)) 4).
  - rewrite unmasked_replicate. lia.
  - unfold unmasked. rewrite List.filter_app, length_app.
    fold (unmasked (replicate (length (JS.remove JS.isWhiteSpace cardNumber) - 4) star)).
    rewrite unmasked_replicate.
    etransitivity; [apply Nat.add_le_mono_l, List.filter_length_le|].
    rewrite length_drop. lia.
Qed.

(** C9. [maskCardNumber] on an input with fewer than four characters
    after stripping white space returns that many mask characters and
    nothing else; on an input with exactly four it returns the stripped
    input itself, nothing masked. *)
Theorem maskCardNumber_at_most_four (cardNumber : jsstring) :
  let cleaned := JS.remove JS.isWhiteSpace cardNumber in
  ((length cleaned < 4)%nat ->
     maskCardNumber cardNumber = replicate (length cleaned) star
     /\ Forall (eq star) (maskCardNumber cardNumber)
     /\ length (maskCardNumber cardNumber) = length cleaned)
  /\ (length cleaned = 4%nat -> maskCardNumber cardNumber = cleaned).
Proof.
  intros cleaned. split.
  - intros Hlen. rewrite maskCardNumber_short by exact Hlen.
    fold cleaned. split; [done|]. split.
    + apply Forall_replicate. reflexivity.
    + apply length_replicate.
  - intros Hlen. rewrite maskCardNumber_long by (fold cleaned; lia).
    unfold maskAllButLastFour. fold cleaned. rewrite Hlen. reflexivity.
Qed.

Lemma maskCardNumber_at_most_four_witness :
  maskCardNumber (lit "12 3") = lit "***"
  /\ maskCardNumber (lit "1 2 3 4") = lit "1234".
Proof.
  split.
  - apply (proj1 (maskCardNumber_at_most_four (lit "12 3"))). vm_compute. lia.
  - apply (proj2 (maskCardNumber_at_most_four (lit "1 2 3 4"))). reflexivity.
Defined.

(** C1, amended. A payment stored by [createPayment], in either backend,
    carries [maskCardNumber] of the submitted card number: when the
    stripped input has at least four characters, that input with all but
    its last four replaced by the mask; when it has fewer, mask characters
    only. Either way the stored value is as long as the stripped input,
    everything before its last four characters is the mask, and at most
    four characters are not the mask; ["4111111111111111"] is stored as
    ["************1111"]. *)
Theorem createPayment_masks_card_number
    (now : Z) (insertPayment : InsertPayment.t)
    (mem : MemStorage.t) (db : DatabaseStorage.t) :
  let cleaned :=
    JS.remove JS.isWhiteSpace (InsertPayment.cardNumber insertPayment) in
  let stored :=
    if (4 <=? length cleaned)%nat
    then maskAllButLastFour (InsertPayment.cardNumber insertPayment)
    else replicate (length cleaned) star in
  (let '(payment, mem') := MemStorage.createPayment now insertPayment mem in
   Payment.cardNumber payment = stored
   /\ MemStorage.getPayment (Payment.id payment) mem' = Some payment)
  /\ match DatabaseStorage.createPayment now insertPayment db with
     | (Returned payment, db') =>
         Payment.cardNumber payment = stored
         /\ DatabaseStorage.payments db' = DatabaseStorage.payments db ++ [payment]
     | (Thrown, db') => DatabaseStorage.payments db' = DatabaseStorage.payments db
     end
  /\ length stored = length cleaned
  /\ Forall (eq star) (take (length cleaned - 4) stored)
  /\ (unmasked stored <= 4)%nat
  /\ maskCardNumber (lit "4111111111111111") = lit "************1111".
Proof.
  intros cleaned stored.
  assert (Hstored : maskCardNumber (InsertPayment.cardNumber insertPayment) = stored).
  { unfold stored. destruct (Nat.leb_spec 4 (length cleaned)) as [Hle|Hlt].
    - by apply maskCardNumber_long.
    - by apply maskCardNumber_short. }
  repeat split.
  - exact Hstored.
  - unfold MemStorage.getPayment. simpl. apply get_set_eq.
  - unfold DatabaseStorage.createPayment.
    destruct (existsb _ _); simpl; [done|]. split; [exact Hstored | done].
  - rewrite <- Hstored. apply maskCardNumber_length.
  - rewrite <- Hstored. apply maskCardNumber_prefix.
  - rewrite <- Hstored. apply maskCardNumber_unmasked.
Qed.

(** C1 as stated fails on a short card number: ["123"] is stored as
    ["***"], where the stripped input with all but its last four
    characters masked is ["123"] itself. *)
Lemma short_card_number_is_masked_whole :
  let stored :=
    Payment.cardNumber
      (fst (MemStorage.createPayment 0 (sampleInsert "123" "ada@example.com" "TXN-1-a")
              MemStorage.constructor)) in
  stored = lit "***"
  /\ maskAllButLastFour (lit "123") = lit "123"
  /\ stored <> maskAllButLastFour (lit "123").
Proof. vm_compute. repeat split; discriminate. Qed.

(** ** Updates of an absent id *)

Lemma databaseStorage_update_absent (now id : Z) (paymentData : UpdatePayment.t)
    (db : DatabaseStorage.t) :
  DatabaseStorage.getPayment id db = None ->
  DatabaseStorage.updatePayment now id paymentData db = (None, db).
Proof.
  destruct db as [rows next]. unfold DatabaseStorage.getPayment,
    DatabaseStorage.updatePayment. simpl. intros Hnone.
  assert (Hrows : map (fun row => if Payment.id row =? id
                                  then Payment.update row paymentData now
                                  else row) rows = rows).
  { induction rows as [|row rows IH]; simpl in *; [done|].
    destruct (Payment.id row =? id); [discriminate|]. by rewrite IH. }
  by rewrite Hrows, Hnone.
Qed.

(** C7. In the ephemeral backend [updatePayment] and [updateUser] on an
    id that is not in the store answer "not found" and leave the whole
    store as it was: nothing is created. *)
Theorem update_absent_is_not_found
    (now id : Z) (paymentData : UpdatePayment.t) (userData : PartialUser.t)
    (this : MemStorage.t) :
  (MemStorage.getPayment id this = None ->
     MemStorage.updatePayment now id paymentData this = (None, this))
  /\ (MemStorage.getUser id this = None ->
        MemStorage.updateUser id userData this = (None, this)).
Proof.
  unfold MemStorage.getPayment, MemStorage.updatePayment,
    MemStorage.getUser, MemStorage.updateUser.
  split; intros ->; reflexivity.
Qed.

Lemma update_absent_is_not_found_witness :
  MemStorage.updatePayment 5 7 (statusOf "failed") MemStorage.constructor
    = (None, MemStorage.constructor)
  /\ MemStorage.updateUser 7 (PartialUser.mk (Some (lit "eve")) None)
       MemStorage.constructor
     = (None, MemStorage.constructor).
Proof.
  split.
  - apply (proj1 (update_absent_is_not_found 5 7 (statusOf "failed")
                    (PartialUser.mk None None) MemStorage.constructor)).
    reflexivity.
  - apply (proj2 (update_absent_is_not_found 5 7 (statusOf "failed")
                    (PartialUser.mk (Some (lit "eve")) None)
                    MemStorage.constructor)).
    reflexivity.
Defined.

(** ** Validation *)

Lemma checkRule_app (errors : list ValidationError) (r : Rule.t) :
  checkRule errors r = errors ++ ruleErrors r.
Proof.
  unfold ruleErrors, checkRule.
  destruct (Rule.required r && negb (validateRequired (Rule.value r)));
    [done|].
  destruct (truthy (Rule.value r) && negb (Rule.validator r (Rule.value r)));
    [done|].
  by rewrite app_nil_r.
Qed.

Lemma fold_checkRule (rules : list Rule.t) (errors : list ValidationError) :
  fold_left checkRule rules errors = errors ++ flat_map ruleErrors rules.
Proof.
  revert errors. induction rules as [|r rules IH]; intros errors; simpl.
  - by rewrite app_nil_r.
  - rewrite IH, checkRule_app, <- app_assoc. reflexivity.
Qed.

Lemma checkRules_flat_map (rules : list Rule.t) :
  checkRules rules = flat_map ruleErrors rules.
Proof. unfold checkRules. by rewrite fold_checkRule. Qed.

Lemma trim_nonempty_truthy (value : jsstring) :
  validateRequired value = true -> truthy value = true.
Proof.
  destruct value; [|done]. intros Hreq. vm_compute in Hreq. discriminate.
Qed.

(** A required rule reports one error when it fails and none otherwise,
    and the error of an empty value is the generic one. *)
Lemma ruleErrors_required (r : Rule.t) :
  Rule.required r = true ->
  ruleErrors r =
    if negb (validateRequired (Rule.value r)) then
      [mkError (Rule.field r) (requiredMessage (Rule.field r))]
    else if negb (Rule.validator r (Rule.value r)) then
      [mkError (Rule.field r) (Rule.message r)]
    else [].
Proof.
  intros Hreq. unfold ruleErrors, checkRule. rewrite Hreq. simpl.
  destruct (validateRequired (Rule.value r)) eqn:E; simpl; [|done].
  by rewrite (trim_nonempty_truthy _ E).
Qed.

Lemma ruleErrors_fields (rules : list Rule.t) :
  Forall (fun r => Rule.required r = true) rules ->
  map field (flat_map ruleErrors rules)
  = map Rule.field (List.filter ruleFails rules).
Proof.
  induction 1 as [|r rules Hreq _ IH]; simpl; [done|].
  rewrite map_app, IH, (ruleErrors_required r Hreq). unfold ruleFails.
  destruct (validateRequired (Rule.value r)); simpl; [|done].
  destruct (Rule.validator r (Rule.value r)); simpl; done.
Qed.

Lemma validations_required (today : Today) (formData : PaymentFormData.t) :
  Forall (fun r => Rule.required r = true) (validations today formData).
Proof. unfold validations. repeat constructor. Qed.

Lemma validations_fields (today : Today) (formData : PaymentFormData.t) :
  map Rule.field (validations today formData) = fieldOrder.
Proof. reflexivity. Qed.

Lemma fieldOrder_NoDup : NoDup fieldOrder.
Proof. apply (bool_decide_unpack _). vm_compute. exact I. Qed.

Lemma rule_of_field (rules : list Rule.t) (r r' : Rule.t) :
  NoDup (map Rule.field rules) ->
  In r rules -> In r' rules -> Rule.field r = Rule.field r' -> r = r'.
Proof.
  induction rules as [|r0 rules IH]; simpl; [done|].
  intros Hnd [->|Hr] [->|Hr'] Heq; inversion_clear Hnd as [|?? Hnotin Hnd'].
  - done.
  - exfalso. apply Hnotin. rewrite Heq. apply list_elem_of_In, in_map, Hr'.
  - exfalso. apply Hnotin. rewrite <- Heq. apply list_elem_of_In, in_map, Hr.
  - by apply IH.
Qed.

(** Every entry of the table of the code is about the field it names:
    it holds the value of that field and fails when the field does. *)
Lemma rule_is_about_its_field (today : Today) (formData : PaymentFormData.t)
    (r : Rule.t) :
  In r (validations today formData) ->
  Rule.value r = fieldValue formData (Rule.field r)
  /\ requiredMessage (Rule.field r) = genericMessage (Rule.field r)
  /\ ruleFails r = fieldFails today formData (Rule.field r).
Proof.
  unfold validations. intros Hr.
  repeat (destruct Hr as [<-|Hr]; [
    split; [reflexivity|]; split; [reflexivity|];
    unfold ruleFails, fieldFails, blank, validateRequired;
    cbn [Rule.value Rule.validator Rule.field];
    try reflexivity;
    by destruct (jsstring_eqb (JS.trim _) []) |]).
  destruct Hr.
Qed.

Lemma rule_of_fieldOrder (today : Today) (formData : PaymentFormData.t)
    (f : jsstring) :
  In f fieldOrder ->
  exists r, In r (validations today formData) /\ Rule.field r = f.
Proof.
  rewrite <- (validations_fields today formData). intros Hf.
  apply in_map_iff in Hf as (r & Hfield & Hr). by exists r.
Qed.

Lemma failing_fields_of_rules (today : Today) (formData : PaymentFormData.t) :
  map Rule.field (List.filter ruleFails (validations today formData))
  = List.filter (fieldFails today formData) fieldOrder.
Proof.
  rewrite <- (validations_fields today formData), List.filter_map_swap.
  f_equal. apply List.filter_ext_in. intros r Hr.
  by destruct (rule_is_about_its_field today formData r Hr) as (_ & _ & ->).
Qed.

Lemma error_of_rule (rules : list Rule.t) (e : ValidationError) :
  In e (flat_map ruleErrors rules) ->
  exists r, In r rules /\ In e (ruleErrors r).
Proof. intros He. apply in_flat_map in He. exact He. Qed.

Lemma ruleErrors_field (r : Rule.t) (e : ValidationError) :
  In e (ruleErrors r) -> field e = Rule.field r.
Proof.
  unfold ruleErrors, checkRule.
  destruct (Rule.required r && negb (validateRequired (Rule.value r))).
  - intros [<-|[]]. reflexivity.
  - destruct (truthy (Rule.value r) && negb (Rule.validator r (Rule.value r))).
    + intros [<-|[]]. reflexivity.
    + intros [].
Qed.

Lemma ruleErrors_empty_value (r : Rule.t) :
  Rule.required r = true -> JS.trim (Rule.value r) = [] ->
  ruleErrors r = [mkError (Rule.field r) (requiredMessage (Rule.field r))].
Proof.
  intros Hreq Hempty. rewrite (ruleErrors_required r Hreq).
  unfold validateRequired. rewrite Hempty. reflexivity.
Qed.

(** The generic error of an empty value, and no other error for that
    field. *)
Lemma empty_value_is_required (rules : list Rule.t) (r : Rule.t) :
  Forall (fun r => Rule.required r = true) rules ->
  NoDup (map Rule.field rules) ->
  In r rules -> JS.trim (Rule.value r) = [] ->
  In (mkError (Rule.field r) (requiredMessage (Rule.field r)))
     (checkRules rules)
  /\ forall e, In e (checkRules rules) -> field e = Rule.field r ->
               message e = requiredMessage (Rule.field r).
Proof.
  intros Hreq Hnd Hr Hempty. rewrite checkRules_flat_map.
  assert (Hr_req : Rule.required r = true).
  { rewrite Forall_forall in Hreq. apply Hreq, list_elem_of_In, Hr. }
  pose proof (ruleErrors_empty_value r Hr_req Hempty) as Hone.
  split.
  - apply in_flat_map. exists r. split; [done|]. rewrite Hone. by left.
  - intros e He Hfield. apply error_of_rule in He as (r' & Hr' & He).
    pose proof (ruleErrors_field r' e He) as Hfield'.
    assert (r' = r) as ->.
    { apply (rule_of_field rules); [done..|congruence]. }
    rewrite Hone in He. destruct He as [<-|[]]. reflexivity.
Qed.

(** C2. [validatePaymentForm] reports every failing field, once, in the
    order cardNumber, cvc, expiryDate, amount, firstName, lastName,
    email, city, state, postalCode, where a field fails when its own
    value is empty after trimming or does not have the format of the
    field; a field that is empty after trimming is reported with
    ["<Field> is required"] and with no other message; a form without an
    e-mail address has the entry ["Email is required"] and not the
    message about the format of the address. *)
Theorem validatePaymentForm_reports_all
    (today : Today) (formData : PaymentFormData.t) :
  let errors := validatePaymentForm today formData in
  map field errors = List.filter (fieldFails today formData) fieldOrder
  /\ (forall f, In f fieldOrder ->
        JS.trim (fieldValue formData f) = [] ->
        In (mkError f (genericMessage f)) errors
        /\ forall e, In e errors -> field e = f ->
                     message e = genericMessage f)
  /\ (JS.trim (PaymentFormData.email formData) = [] ->
        In (mkError (lit "email") (lit "Email is required")) errors
        /\ ~ In (mkError (lit "email") (lit "Please enter a valid email address"))
                errors).
Proof.
  intros errors.
  pose proof (validations_required today formData) as Hreq.
  assert (Hnd : NoDup (map Rule.field (validations today formData))).
  { rewrite validations_fields. apply fieldOrder_NoDup. }
  assert (Hgeneric : forall f, In f fieldOrder ->
            JS.trim (fieldValue formData f) = [] ->
            In (mkError f (genericMessage f)) errors
            /\ forall e, In e errors -> field e = f ->
                         message e = genericMessage f).
  { intros f Hf Hempty.
    destruct (rule_of_fieldOrder today formData f Hf) as (r & Hr & <-).
    destruct (rule_is_about_its_field today formData r Hr)
      as (Hvalue & <- & _).
    rewrite <- Hvalue in Hempty. by apply empty_value_is_required. }
  split; [|split].
  - unfold errors, validatePaymentForm. rewrite checkRules_flat_map.
    rewrite (ruleErrors_fields _ Hreq). apply failing_fields_of_rules.
  - exact Hgeneric.
  - intros Hempty.
    destruct (Hgeneric (lit "email")) as [Hin Honly].
    { unfold fieldOrder. cbn [map In]. do 6 right. by left. }
    { exact Hempty. }
    split; [exact Hin|].
    intros Hformat. specialize (Honly _ Hformat eq_refl).
    vm_compute in Honly. discriminate.
Qed.

Lemma validatePaymentForm_reports_all_witness :
  validatePaymentForm today2026 formWithoutEmail
  = [ mkError (lit "cvc") (lit "CVC must be 3-4 digits");
      mkError (lit "lastName") (lit "LastName is required");
      mkError (lit "email") (lit "Email is required");
      mkError (lit "postalCode")
              (lit "Postal code must be in format 12345 or 12345-6789") ]
  /\ In (mkError (lit "email") (lit "Email is required"))
        (validatePaymentForm today2026 formWithoutEmail)
  /\ ~ In (mkError (lit "email") (lit "Please enter a valid email address"))
          (validatePaymentForm today2026 formWithoutEmail).
Proof.
  split; [vm_compute; reflexivity|].
  apply (proj2 (proj2 (validatePaymentForm_reports_all today2026 formWithoutEmail))).
  reflexivity.
Defined.

(** ** Transaction ids *)

Lemma digit36_isBase36 (d : N) : isBase36 (digit36 d) = true.
Proof.
  unfold isBase36, digit36, JS.isDigit.
  assert (Hlt : (d mod 36 < 36)%N) by (apply N.mod_upper_bound; lia).
  generalize dependent (d mod 36)%N. intros r Hlt.
  destruct (N.ltb_spec r 10); apply orb_true_iff; [left|right];
    apply andb_true_iff; split; apply N.leb_le; lia.
Qed.

Lemma transactionSuffix_digits (x : Random) :
  transactionSuffix x = take 9 (map digit36 (fraction36 x)).
Proof.
  unfold transactionSuffix, JS.substr, toString36.
  destruct (fraction36 x); reflexivity.
Qed.

(** C5, amended. A transaction id is ["TXN-"], the timestamp in decimal,
    ["-"] and a suffix of at most nine base-36 characters: the first nine
    digits the draw prints after the point in radix 36, all of them when
    it prints fewer. *)
Theorem transactionId_shape (dateNow : Z) (x : Random) :
  let suffix := transactionSuffix x in
  newTransactionId dateNow x
  = lit "TXN-" ++ JS.numberToString dateNow ++ lit "-" ++ suffix
  /\ suffix = take 9 (map digit36 (fraction36 x))
  /\ length suffix = Nat.min 9 (length (fraction36 x))
  /\ (length suffix <= 9)%nat
  /\ forallb isBase36 suffix = true.
Proof.
  intros suffix. unfold suffix, newTransactionId.
  rewrite transactionSuffix_digits.
  split; [reflexivity|]. split; [reflexivity|]. split; [|split].
  - rewrite length_take, length_map. lia.
  - rewrite length_take. lia.
  - apply forallb_forall. intros c Hc.
    apply list_elem_of_In, elem_of_take in Hc as (i & Hc & _).
    apply list_lookup_fmap_Some in Hc as (d & -> & _).
    apply digit36_isBase36.
Qed.

(** C5 as stated fails: the draw 0.5 gives a suffix of one character,
    the draw 0 an empty one. *)
Lemma transactionId_suffix_shorter_than_nine :
  newTransactionId 1762041600000 drawHalf = lit "TXN-1762041600000-i"
  /\ length (transactionSuffix drawHalf) <> 9%nat
  /\ newTransactionId 1762041600000 drawZero = lit "TXN-1762041600000-"
  /\ length (transactionSuffix drawZero) <> 9%nat.
Proof. vm_compute. repeat split; discriminate. Qed.

(** ** Payments by e-mail address *)

Lemma memStorage_getPaymentsByEmail_spec `{CaseMapping}
    (email : jsstring) (this : MemStorage.t) (payment : Payment.t) :
  In payment (MemStorage.getPaymentsByEmail email this)
  <-> In payment (MemStorage.getAllPayments this)
      /\ toLowerCase (Payment.email payment) = toLowerCase email.
Proof.
  unfold MemStorage.getPaymentsByEmail, MemStorage.getAllPayments.
  rewrite List.filter_In, jsstring_eqb_eq. reflexivity.
Qed.

Lemma databaseStorage_getPaymentsByEmail_spec
    (email : jsstring) (db : DatabaseStorage.t) (payment : Payment.t) :
  In payment (DatabaseStorage.getPaymentsByEmail email db)
  <-> In payment (DatabaseStorage.getAllPayments db)
      /\ Payment.email payment = email.
Proof.
  unfold DatabaseStorage.getPaymentsByEmail, DatabaseStorage.getAllPayments.
  rewrite List.filter_In, jsstring_eqb_eq. reflexivity.
Qed.

(** C4, at the input where the backends part: the same payment, stored
    with the address ["alice@example.com"], and the query
    ["ALICE@EXAMPLE.COM"]. The two addresses are equal up to case; the
    ephemeral backend returns the payment, the durable one returns
    nothing. *)
Theorem getPaymentsByEmail_backends_differ :
  let insert := sampleInsert "4111111111111111" "alice@example.com" "TXN-1-a" in
  let query := lit "ALICE@EXAMPLE.COM" in
  let mem := snd (MemStorage.createPayment 0 insert MemStorage.constructor) in
  let db := snd (DatabaseStorage.createPayment 0 insert DatabaseStorage.empty) in
  map Payment.email (MemStorage.getAllPayments mem) = [lit "alice@example.com"]
  /\ map Payment.email (DatabaseStorage.getAllPayments db) = [lit "alice@example.com"]
  /\ latinCaseMapping (lit "alice@example.com") = latinCaseMapping query
  /\ map Payment.email
       (@MemStorage.getPaymentsByEmail latinCaseMapping query mem)
     = [lit "alice@example.com"]
  /\ DatabaseStorage.getPaymentsByEmail query db = [].
Proof. vm_compute. repeat split. Qed.

(** ** PATCH /api/payment/:id/status *)

Section Patch.
Context {S : Type} {storage : IStorage S}.

Lemma patch_invalid_id (now : Z) (id status : jsstring) (s : S) :
  JS.parseInt id = None ->
  run (patchPaymentStatus now id (JSString status)) s
  = (Returned (badRequest (lit "Invalid payment ID")), mkWorld s []).
Proof.
  intros Hnan. unfold run, patchPaymentStatus, tryCatch, bind. simpl.
  rewrite Hnan. reflexivity.
Qed.

Lemma patch_invalid_status (now : Z) (id status : jsstring) (s : S) :
  JS.parseInt id <> None ->
  includes validStatuses (sanitizeInput status) = false ->
  run (patchPaymentStatus now id (JSString status)) s
  = (Returned
       (badRequest
          (lit "Invalid status. Must be one of: pending, completed, failed, refunded")),
     mkWorld s []).
Proof.
  intros Hid Hbad.
  unfold run, patchPaymentStatus, tryCatch, bind, orThrow, asString, ret.
  cbv beta iota.
  destruct (JS.parseInt id); [|done]. rewrite Hbad. reflexivity.
Qed.

Lemma patch_missing_status (now : Z) (id : jsstring) (status : jsvalue) (s : S) :
  asString status = None ->
  run (patchPaymentStatus now id status) s
  = (Returned updateFailed, mkWorld s []).
Proof.
  intros Hnot. unfold run, patchPaymentStatus, tryCatch, bind.
  rewrite Hnot. reflexivity.
Qed.
End Patch.

(** X29. When the body of a PATCH carries a string as its status: a
    status that is not one of pending, completed, failed, refunded after
    sanitizing is answered with 400, and so is an id that [parseInt]
    reads as [NaN]; no storage call is made and the store is untouched,
    whatever it holds. When the status is not a string the answer is
    500, again without a storage call. *)
Theorem patch_rejects_without_storage {S : Type} {storage : IStorage S}
    (now : Z) (id : jsstring) (status : jsvalue) (s : S) :
  (forall text, status = JSString text ->
     (JS.parseInt id = None ->
      run (patchPaymentStatus now id status) s
      = (Returned (Response.mk 400 false (lit "Invalid payment ID")
                     [] None None Response.NoData),
         mkWorld s []))
     /\ (JS.parseInt id <> None ->
         includes validStatuses (sanitizeInput text) = false ->
         run (patchPaymentStatus now id status) s
         = (Returned
              (Response.mk 400 false
                 (lit "Invalid status. Must be one of: pending, completed, failed, refunded")
                 [] None None Response.NoData),
            mkWorld s [])))
  /\ (asString status = None ->
      run (patchPaymentStatus now id status) s
      = (Returned (Response.mk 500 false (lit "Error updating payment status")
                     [] None None Response.NoData),
         mkWorld s [])).
Proof.
  split.
  - intros text ->. split.
    + intros Hnan. apply (patch_invalid_id now id text s Hnan).
    + intros Hid Hbad. apply (patch_invalid_status now id text s Hid Hbad).
  - intros Hnot. apply (patch_missing_status now id status s Hnot).
Qed.

Lemma patch_rejects_without_storage_witness :
  run (patchPaymentStatus (storage := @memStorage latinCaseMapping)
         0 (lit "1") (JSString (lit "archived")))
      (snd (MemStorage.createPayment 0
              (sampleInsert "4111111111111111" "ada@example.com" "TXN-1-a")
              MemStorage.constructor))
  = (Returned
       (Response.mk 400 false
          (lit "Invalid status. Must be one of: pending, completed, failed, refunded")
          [] None None Response.NoData),
     mkWorld (snd (MemStorage.createPayment 0
                     (sampleInsert "4111111111111111" "ada@example.com" "TXN-1-a")
                     MemStorage.constructor)) [])
  /\ run (patchPaymentStatus (storage := @memStorage latinCaseMapping)
            0 (lit "abc") JSTruthy) MemStorage.constructor
     = (Returned (Response.mk 500 false (lit "Error updating payment status")
                    [] None None Response.NoData),
        mkWorld MemStorage.constructor []).
Proof.
  split.
  - apply (proj2 (proj1 (patch_rejects_without_storage
                           (storage := @memStorage latinCaseMapping)
                           0 (lit "1") (JSString (lit "archived")) _)
                    (lit "archived") eq_refl)).
    + discriminate.
    + vm_compute. reflexivity.
  - apply (proj2 (patch_rejects_without_storage
                    (storage := @memStorage latinCaseMapping)
                    0 (lit "abc") JSTruthy MemStorage.constructor)).
    reflexivity.
Defined.

(** C8. On PATCH /api/payment/abc/status with a body that has no status
    the handler answers 500 where the claim says 400:
    [sanitizeInput(undefined)] raises before the test [isNaN(paymentId)]
    is reached, and the [catch] answers. With the same id and a status
    in the body the test is reached and answers 400. Neither request
    makes a storage call. *)
Theorem patch_invalid_id_without_status_is_500 :
  JS.parseInt (lit "abc") = None
  /\ run (patchPaymentStatus (storage := @memStorage latinCaseMapping)
            0 (lit "abc") JSFalsy) MemStorage.constructor
     = (Returned (Response.mk 500 false (lit "Error updating payment status")
                    [] None None Response.NoData),
        mkWorld MemStorage.constructor [])
  /\ run (patchPaymentStatus (storage := @memStorage latinCaseMapping)
            0 (lit "abc") (JSString (lit "completed"))) MemStorage.constructor
     = (Returned (Response.mk 400 false (lit "Invalid payment ID")
                    [] None None Response.NoData),
        mkWorld MemStorage.constructor []).
Proof. vm_compute. repeat split. Qed.

(** ** Timestamps *)

Lemma values_set_In {V : Type} (m : JSMap.t V) (k : Z) (v v' : V) :
  In v' (JSMap.values (JSMap.set k v m)) -> v' = v \/ In v' (JSMap.values m).
Proof.
  induction m as [|[k0 v0] m IH]; simpl.
  - intros [<-|[]]. by left.
  - destruct (k0 =? k); simpl.
    + intros [<-|Hin]; [by left | right; by right].
    + intros [<-|Hin]; [right; by left|].
      destruct (IH Hin); [by left | right; by right].
Qed.

Lemma values_delete_In {V : Type} (m : JSMap.t V) (k : Z) (v : V) :
  In v (JSMap.values (snd (JSMap.delete k m))) -> In v (JSMap.values m).
Proof.
  unfold JSMap.delete, JSMap.values. simpl. rewrite !in_map_iff.
  intros (kv & <- & Hin). apply List.filter_In in Hin as [Hin _]. eauto.
Qed.

Lemma payments_deletePayment (id : Z) (this : MemStorage.t) :
  MemStorage.payments (snd (MemStorage.deletePayment id this))
  = snd (JSMap.delete id (MemStorage.payments this)).
Proof. reflexivity. Qed.

Lemma settledBy_mono (T T' : Z) (this : MemStorage.t) :
  T <= T' -> settledBy T this -> settledBy T' this.
Proof. intros Hle Hs p Hp. destruct (Hs p Hp). lia. Qed.

Lemma nondecreasing_cons (t t' : Z) (ts : list Z) :
  nondecreasing (t :: t' :: ts) = true ->
  t <= t' /\ nondecreasing (t' :: ts) = true.
Proof.
  change (nondecreasing (t :: t' :: ts))
    with ((t <=? t') && nondecreasing (t' :: ts)).
  intros Hnd. apply andb_true_iff in Hnd as [Hle Hnd].
  apply Z.leb_le in Hle. done.
Qed.

Lemma step_settled (op : Op) (T : Z) (this : MemStorage.t) (rest : list Z) :
  settledBy T this ->
  nondecreasing (T :: instant op ++ rest) = true ->
  exists T', settledBy T' (step op this)
             /\ nondecreasing (T' :: rest) = true.
Proof.
  intros Hs Hclock. destruct op as [now ins|now id d|id].
  - apply nondecreasing_cons in Hclock as [Hle Hrest].
    exists now. split; [|exact Hrest].
    intros p Hp. apply values_set_In in Hp as [->|Hp]; simpl; [lia|].
    destruct (Hs p Hp). lia.
  - apply nondecreasing_cons in Hclock as [Hle Hrest].
    exists now. split; [|exact Hrest].
    simpl. unfold MemStorage.updatePayment.
    destruct (JSMap.get id (MemStorage.payments this)) as [existing|] eqn:Hget;
      simpl.
    + intros p Hp. apply values_set_In in Hp as [->|Hp]; simpl.
      * destruct (Hs existing (get_In_values _ _ _ Hget)). lia.
      * destruct (Hs p Hp). lia.
    + by apply (settledBy_mono T).
  - exists T. split; [|exact Hclock].
    intros p Hp. apply Hs. unfold MemStorage.getAllPayments in *.
    cbn [step] in Hp. rewrite payments_deletePayment in Hp.
    by apply values_delete_In in Hp.
Qed.

(** A history under a clock that does not run backwards keeps the store
    settled, and leaves it settled by an instant the rest of the history
    does not precede. *)
Lemma history_settled (before after : list Op) (T : Z) (this : MemStorage.t) :
  settledBy T this ->
  nondecreasing (T :: flat_map instant (before ++ after)) = true ->
  exists T', settledBy T' (finalStore before this)
             /\ nondecreasing (T' :: flat_map instant after) = true.
Proof.
  revert T this. induction before as [|op before IH]; intros T this Hs Hclock.
  - exists T. done.
  - simpl in Hclock.
    destruct (step_settled op T this _ Hs Hclock) as (T1 & Hs1 & Hrest).
    apply (IH T1 (step op this) Hs1 Hrest).
Qed.

Lemma constructor_settled (T : Z) : settledBy T MemStorage.constructor.
Proof. intros p []. Qed.

Lemma wellTimed_from (ops : list Op) :
  wellTimed ops = true ->
  exists T, nondecreasing (T :: flat_map instant ops) = true.
Proof.
  unfold wellTimed. destruct (flat_map instant ops) as [|t ts] eqn:E.
  - exists 0. done.
  - intros Hnd. exists t.
    change (((t <=? t) && nondecreasing (t :: ts)) = true).
    rewrite Hnd, andb_true_r. apply Z.leb_refl.
Qed.

Lemma createdAt_kept (op : Op) (this : MemStorage.t) (id : Z) :
  In id (assigned op this)
  \/ match MemStorage.getPayment id this,
           MemStorage.getPayment id (step op this) with
     | Some p, Some p' => Payment.createdAt p' = Payment.createdAt p
     | _, _ => True
     end.
Proof.
  unfold MemStorage.getPayment.
  destruct op as [now ins|now id0 d|id0]; cbn [step assigned].
  - simpl.
    destruct (decide (MemStorage.currentPaymentId this = id)) as [->|Hne];
      [left; by left | right].
    rewrite get_set_ne by done.
    by destruct (JSMap.get id (MemStorage.payments this)).
  - right. unfold MemStorage.updatePayment.
    destruct (JSMap.get id0 (MemStorage.payments this)) as [existing|] eqn:Hget;
      simpl.
    + destruct (decide (id0 = id)) as [->|Hne].
      * by rewrite Hget, get_set_eq.
      * rewrite get_set_ne by done.
        by destruct (JSMap.get id (MemStorage.payments this)).
    + by destruct (JSMap.get id (MemStorage.payments this)).
  - right. rewrite payments_deletePayment.
    destruct (decide (id0 = id)) as [->|Hne].
    + rewrite get_delete_eq.
      by destruct (JSMap.get id (MemStorage.payments this)).
    + rewrite get_delete_ne by done.
      by destruct (JSMap.get id (MemStorage.payments this)).
Qed.

Lemma finalStore_app (ops1 ops2 : list Op) (this : MemStorage.t) :
  finalStore (ops1 ++ ops2) this = finalStore ops2 (finalStore ops1 this).
Proof. unfold finalStore. apply fold_left_app. Qed.

(** C6, amended. Along any history of the ephemeral backend whose clock
    does not run backwards, every stored payment has
    [updatedAt >= createdAt], and
    every update that finds its payment moves [updatedAt] to an instant
    that is not earlier than the one it replaces. [createPayment] sets
    both timestamps to the same instant; a successful [updatePayment]
    sets [updatedAt] to the instant of the update and keeps [createdAt];
    no operation changes the [createdAt] of a payment it does not
    create. *)
Theorem timestamps_ordered (ops : list Op) :
  wellTimed ops = true ->
  Forall (fun p => Payment.createdAt p <= Payment.updatedAt p)
         (MemStorage.getAllPayments (finalStore ops MemStorage.constructor))
  /\ (forall before now id d after p,
        ops = before ++ OpUpdate now id d :: after ->
        MemStorage.getPayment id (finalStore before MemStorage.constructor)
          = Some p ->
        Payment.updatedAt p <= now
        /\ MemStorage.getPayment id
             (finalStore (before ++ [OpUpdate now id d]) MemStorage.constructor)
           = Some (Payment.update p d now))
  /\ (forall now insertPayment this,
        let '(p, this') := MemStorage.createPayment now insertPayment this in
        Payment.createdAt p = now /\ Payment.updatedAt p = now
        /\ MemStorage.getPayment (Payment.id p) this' = Some p)
  /\ (forall now id d this,
        match MemStorage.updatePayment now id d this with
        | (Some p', this') =>
            exists p, MemStorage.getPayment id this = Some p
                      /\ Payment.createdAt p' = Payment.createdAt p
                      /\ Payment.updatedAt p' = now
                      /\ MemStorage.getPayment id this' = Some p'
        | (None, this') => this' = this
        end)
  /\ (forall op this id,
        In id (assigned op this)
        \/ match MemStorage.getPayment id this,
                 MemStorage.getPayment id (step op this) with
           | Some p, Some p' => Payment.createdAt p' = Payment.createdAt p
           | _, _ => True
           end).
Proof.
  intros Hclock. destruct (wellTimed_from ops Hclock) as [T HT].
  split; [|split; [|split; [|split]]].
  - rewrite <- (app_nil_r ops) in HT.
    destruct (history_settled ops [] T _ (constructor_settled T) HT)
      as (T' & Hs & _).
    apply Forall_forall. intros p Hp. apply list_elem_of_In in Hp.
    by destruct (Hs p Hp).
  - intros before now id d after p -> Hget.
    destruct (history_settled before (OpUpdate now id d :: after) T _
                (constructor_settled T) HT) as (T' & Hs & Hnext).
    apply nondecreasing_cons in Hnext as [Hle _]. split.
    + unfold MemStorage.getPayment in Hget.
      destruct (Hs p (get_In_values _ _ _ Hget)). lia.
    + rewrite finalStore_app. simpl. unfold MemStorage.getPayment in *.
      unfold MemStorage.updatePayment. rewrite Hget. simpl. apply get_set_eq.
  - intros now insertPayment this. simpl. repeat split.
    unfold MemStorage.getPayment. simpl. apply get_set_eq.
  - intros now id d this. unfold MemStorage.updatePayment, MemStorage.getPayment.
    destruct (JSMap.get id (MemStorage.payments this)) as [existing|]; [|done].
    exists existing. simpl. repeat split. apply get_set_eq.
  - apply createdAt_kept.
Qed.

Lemma timestamps_ordered_witness :
  wellTimed sampleHistory = true
  /\ Forall (fun p => Payment.createdAt p <= Payment.updatedAt p)
            (MemStorage.getAllPayments
               (finalStore sampleHistory MemStorage.constructor)).
Proof.
  split; [reflexivity|].
  apply (proj1 (timestamps_ordered sampleHistory eq_refl)).
Defined.

(** C6 as stated fails when the clock is set back between two calls:
    [createPayment] and [updatePayment] each read [new Date()], and a
    payment created at the instant 100 and updated at the instant 50 is
    stored with [updatedAt] earlier than [createdAt]. *)
Lemma clock_set_back_breaks_order :
  MemStorage.getPayment 1 (finalStore clockSetBack MemStorage.constructor)
  = Some (Payment.mk 1 (lit "TXN-100-a") (lit "************1111") (lit "123")
            (lit "12/30") (lit "25.00") (lit "Ada") (lit "Lovelace")
            (lit "ada@example.com") (lit "London") (lit "LN") (lit "12345")
            None (lit "completed") 100 50)
  /\ ~ Forall (fun p => Payment.createdAt p <= Payment.updatedAt p)
         (MemStorage.getAllPayments
            (finalStore clockSetBack MemStorage.constructor)).
Proof.
  split; [vm_compute; reflexivity|].
  intros Hall. apply Forall_inv in Hall. vm_compute in Hall. by apply Hall.
Qed.

(** ** Payment ids of the ephemeral backend *)

Lemma increment_le (n : Z) : n <= increment n.
Proof. unfold increment. destruct (n <? 2 ^ 53); lia. Qed.

Lemma increment_below (n : Z) : n < maxCounter -> increment n = n + 1.
Proof.
  unfold increment, maxCounter. intros Hlt.
  destruct (Z.ltb_spec n (2 ^ 53)); lia.
Qed.

Lemma increment_at_max : increment maxCounter = maxCounter.
Proof. reflexivity. Qed.

(** The counter never goes down. *)
Lemma counter_monotone (op : Op) (this : MemStorage.t) :
  MemStorage.currentPaymentId this
  <= MemStorage.currentPaymentId (step op this).
Proof.
  destruct op as [now ins|now id d|id]; simpl.
  - apply increment_le.
  - unfold MemStorage.updatePayment.
    destruct (JSMap.get id (MemStorage.payments this)); simpl; lia.
  - lia.
Qed.

Lemma counter_step (op : Op) (this : MemStorage.t) :
  MemStorage.currentPaymentId (step op this)
  = if isCreate op then increment (MemStorage.currentPaymentId this)
    else MemStorage.currentPaymentId this.
Proof.
  destruct op as [now ins|now id d|id]; simpl; [done| |done].
  unfold MemStorage.updatePayment.
  by destruct (JSMap.get id (MemStorage.payments this)).
Qed.

Lemma assigned_step (op : Op) (this : MemStorage.t) :
  assigned op this
  = if isCreate op then [MemStorage.currentPaymentId this] else [].
Proof. by destruct op. Qed.

Lemma creations_cons (op : Op) (ops : list Op) :
  creations (op :: ops)
  = ((if isCreate op then 1 else 0) + creations ops)%nat.
Proof. unfold creations. simpl. by destruct (isCreate op). Qed.

Lemma assignedIds_length (ops : list Op) (this : MemStorage.t) :
  length (assignedIds ops this) = creations ops.
Proof.
  revert this. induction ops as [|op ops IH]; intros this; [done|].
  simpl. rewrite length_app, IH, creations_cons, assigned_step.
  by destruct (isCreate op).
Qed.

(** Below the limit of the counter the ids of a history go up strictly,
    starting at the counter. *)
Lemma assignedIds_increasing (ops : list Op) (this : MemStorage.t) :
  MemStorage.currentPaymentId this + Z.of_nat (creations ops)
    <= maxCounter + 1 ->
  StronglySorted Z.lt (assignedIds ops this)
  /\ Forall (Z.le (MemStorage.currentPaymentId this)) (assignedIds ops this).
Proof.
  revert this. induction ops as [|op ops IH]; intros this Hroom.
  - split; constructor.
  - cbn [assignedIds]. rewrite assigned_step.
    rewrite creations_cons in Hroom.
    pose proof (counter_step op this) as Hcounter.
    destruct (isCreate op).
    + destruct (decide (creations ops = 0%nat)) as [Hnone|Hsome].
      * pose proof (assignedIds_length ops (step op this)) as Hlen.
        rewrite Hnone in Hlen. apply nil_length_inv in Hlen. rewrite Hlen.
        split; repeat constructor. lia.
      * rewrite increment_below in Hcounter by lia.
        destruct (IH (step op this)) as [Hsorted Hall]; [lia|].
        rewrite Hcounter in Hall. split.
        -- constructor; [exact Hsorted|].
           eapply Forall_impl; [exact Hall|]. simpl. intros. lia.
        -- constructor; [lia|].
           eapply Forall_impl; [exact Hall|]. simpl. intros. lia.
    + destruct (IH (step op this)) as [Hsorted Hall]; [lia|].
      rewrite Hcounter in Hall. done.
Qed.

(** C10, amended. In the ephemeral backend the payment counter never
    goes down, and along any history of creations, updates and deletions
    with at most [2^53] creations every [createPayment] returns an id
    strictly greater than all ids assigned before it, so no id is
    assigned twice, whatever was deleted in between. *)
Theorem payment_ids_increase (ops : list Op) :
  Z.of_nat (creations ops) <= maxCounter ->
  StronglySorted Z.lt (assignedIds ops MemStorage.constructor)
  /\ NoDup (assignedIds ops MemStorage.constructor)
  /\ (forall op this,
        MemStorage.currentPaymentId this
        <= MemStorage.currentPaymentId (step op this)).
Proof.
  intros Hroom.
  destruct (assignedIds_increasing ops MemStorage.constructor) as [Hsorted _];
    [simpl; lia|].
  split; [exact Hsorted|]. split; [|apply counter_monotone].
  clear Hroom. induction Hsorted as [|i ids Hsorted IH Hall]; constructor.
  - intros Hin. rewrite Forall_forall in Hall. specialize (Hall i Hin). lia.
  - exact IH.
Qed.

Lemma payment_ids_increase_witness :
  assignedIds churn MemStorage.constructor = [1; 2; 3]
  /\ StronglySorted Z.lt (assignedIds churn MemStorage.constructor).
Proof.
  split; [reflexivity|].
  apply (proj1 (payment_ids_increase churn ltac:(vm_compute; discriminate))).
Defined.

Lemma counter_after_creations (n : nat) (this : MemStorage.t) :
  MemStorage.currentPaymentId this + Z.of_nat n <= maxCounter ->
  MemStorage.currentPaymentId (finalStore (replicate n oneCreation) this)
  = MemStorage.currentPaymentId this + Z.of_nat n.
Proof.
  revert this. induction n as [|n IH]; intros this Hroom.
  - unfold finalStore. simpl. lia.
  - change (finalStore (replicate (Datatypes.S n) oneCreation) this)
      with (finalStore (replicate n oneCreation) (step oneCreation this)).
    rewrite IH; rewrite (counter_step oneCreation this); simpl;
      rewrite increment_below; lia.
Qed.

Lemma assignedIds_app (ops1 ops2 : list Op) (this : MemStorage.t) :
  assignedIds (ops1 ++ ops2) this
  = assignedIds ops1 this ++ assignedIds ops2 (finalStore ops1 this).
Proof.
  revert this. induction ops1 as [|op ops1 IH]; intros this; [done|].
  simpl. by rewrite IH, <- app_assoc.
Qed.

Lemma assignedIds_at_max (this : MemStorage.t) :
  MemStorage.currentPaymentId this = maxCounter ->
  assignedIds [oneCreation; oneCreation] this = [maxCounter; maxCounter].
Proof.
  intros Hmax. cbn [assignedIds]. rewrite !assigned_step. simpl isCreate.
  cbv iota. rewrite (counter_step oneCreation this). simpl isCreate. cbv iota.
  rewrite Hmax, increment_at_max. reflexivity.
Qed.

Lemma StronglySorted_app_r {A : Type} (R : A -> A -> Prop) (l1 l2 : list A) :
  StronglySorted R (l1 ++ l2) -> StronglySorted R l2.
Proof.
  induction l1 as [|a l1 IH]; simpl; [done|].
  intros Hs. inversion Hs; subst. by apply IH.
Qed.

Lemma ids_repeat_at_max (n : nat) :
  Z.of_nat n = maxCounter - 1 ->
  assignedIds (replicate n oneCreation ++ [oneCreation; oneCreation])
              MemStorage.constructor
  = assignedIds (replicate n oneCreation) MemStorage.constructor
      ++ [maxCounter; maxCounter].
Proof.
  intros Hn. rewrite assignedIds_app. f_equal.
  apply assignedIds_at_max. rewrite counter_after_creations.
  - change (MemStorage.currentPaymentId MemStorage.constructor) with 1. lia.
  - change (MemStorage.currentPaymentId MemStorage.constructor) with 1. lia.
Qed.

Lemma repeated_id_not_sorted (ids : list Z) (i : Z) :
  ~ StronglySorted Z.lt (ids ++ [i; i]).
Proof.
  intros Hsorted. apply StronglySorted_app_r in Hsorted.
  inversion Hsorted as [|?? _ Hall]; subst.
  inversion Hall; subst. lia.
Qed.

Lemma creations_to_limit : Z.of_nat (Z.to_nat (maxCounter - 1)) = maxCounter - 1.
Proof. apply Z2Nat.id. discriminate. Qed.

(** C10 as stated fails past the limit of the counter: the creation
    number [2^53] and the one after it both return the id [2^53]. *)
Lemma payment_id_repeats_past_the_limit :
  exists ids : list Z,
    assignedIds pastTheLimit MemStorage.constructor
    = ids ++ [maxCounter; maxCounter]
    /\ ~ StronglySorted Z.lt (assignedIds pastTheLimit MemStorage.constructor).
Proof.
  unfold pastTheLimit.
  pose proof (ids_repeat_at_max _ creations_to_limit) as Hids.
  eexists. split; [exact Hids|].
  rewrite Hids. apply repeated_id_not_sorted.
Qed.

(** ** The payment pipeline *)

Section Pipeline.
Context `{CaseMapping} {S : Type} {storage : IStorage S}.
Variable wf : S -> Prop.

Hypothesis created_is_new :
  forall now insert s p s',
    createPayment now insert s = (Returned p, s') ->
    p = newPayment insert (Payment.id p) now.

Hypothesis created_is_stored :
  forall now insert s p s',
    wf s -> createPayment now insert s = (Returned p, s') ->
    getPayment (Payment.id p) s' = Some p.

Hypothesis update_rewrites :
  forall now id d s,
    exists s',
      updatePayment now id d s
      = (Returned ((fun p => Payment.update p d now) <$> getPayment id s), s')
      /\ getPayment id s'
         = (fun p => Payment.update p d now) <$> getPayment id s.

Lemma fullyValid_sanitized (today : Today) (formData : RequestBody.t) :
  fullyValid today formData = true ->
  exists sanitizedData,
    sanitizeBody formData = Some sanitizedData
    /\ validatePaymentForm today sanitizedData = [].
Proof.
  unfold fullyValid. destruct (sanitizeBody formData) as [d|]; [|done].
  intros Hlen. exists d. split; [done|].
  apply Nat.eqb_eq in Hlen. by apply nil_length_inv.
Qed.

Lemma pipeline_settles_with (env : Env S) (formData : RequestBody.t) (s : S) :
  fullyValid (today env) formData = true ->
  settles wf env formData s.
Proof.
  intros Hvalid.
  destruct (fullyValid_sanitized _ _ Hvalid) as (d & Hsan & Hnone).
  unfold settles. exists d.
  unfold run, postPayment, tryCatch, bind, orThrow, call, await, ret.
  rewrite Hsan, Hnone. cbn [length Nat.ltb Nat.leb store calls app].
  set (insert := pendingPayment d (newTransactionId (dateNow env) (suffixDraw env))).
  destruct (createPayment (createdInstant env) insert s) as [[rec|] s1] eqn:Hcreate;
  cbn [store calls app].
  - pose proof (created_is_new _ _ _ _ _ Hcreate) as Hrec.
    assert (Hpending : Payment.status rec = lit "pending").
    { rewrite Hrec. reflexivity. }
    unfold finalCode, finalStatus.
    destruct (lessThanTenth (outcomeDraw env)); cbn [store calls app].
    + destruct (update_rewrites (updatedInstant env) (Payment.id rec)
                  (statusOf "failed") (otherRequests env s1))
        as (s2 & Hupdate & Hget).
      rewrite Hupdate. do 2 eexists. split; [done|]. split; [reflexivity|].
      cbn [store]. rewrite Hget.
      split; [done|]. split; [done|]. split; [done|]. split.
      * by destruct (getPayment (Payment.id rec) (otherRequests env s1)).
      * intros Hwf ->. by rewrite (created_is_stored _ _ _ _ _ Hwf Hcreate).
    + destruct (update_rewrites (updatedInstant env) (Payment.id rec)
                  (statusOf "completed") (otherRequests env s1))
        as (s2 & Hupdate & Hget).
      rewrite Hupdate. do 2 eexists. split; [done|]. split; [reflexivity|].
      cbn [store]. rewrite Hget.
      split; [done|]. split; [done|]. split; [done|]. split.
      * by destruct (getPayment (Payment.id rec) (otherRequests env s1)).
      * intros Hwf ->. by rewrite (created_is_stored _ _ _ _ _ Hwf Hcreate).
  - do 2 eexists. split; [done|]. split; [reflexivity|]. done.
Qed.
End Pipeline.

Lemma memStorage_created_is_new `{CaseMapping} now insert s p s' :
  createPayment (S := MemStorage.t) now insert s = (Returned p, s') ->
  p = newPayment insert (Payment.id p) now.
Proof. intros [= <- _]. reflexivity. Qed.

Lemma memStorage_created_is_stored `{CaseMapping} now insert s p s' :
  True -> createPayment (S := MemStorage.t) now insert s = (Returned p, s') ->
  getPayment (Payment.id p) s' = Some p.
Proof.
  intros _ [= <- <-]. simpl. unfold MemStorage.getPayment. simpl.
  apply get_set_eq.
Qed.

Lemma memStorage_update_rewrites `{CaseMapping} now id d (s : MemStorage.t) :
  exists s',
    updatePayment now id d s
    = (Returned ((fun p => Payment.update p d now) <$> getPayment id s), s')
    /\ getPayment id s'
       = (fun p => Payment.update p d now) <$> getPayment id s.
Proof.
  simpl. unfold returning, MemStorage.updatePayment, MemStorage.getPayment.
  destruct (JSMap.get id (MemStorage.payments s)) as [existing|] eqn:Hget;
    simpl; eexists; (split; [reflexivity|]); simpl.
  - apply get_set_eq.
  - exact Hget.
Qed.

Lemma find_fresh (rows : list Payment.t) (p : Payment.t) :
  Forall (fun row => Payment.id row < Payment.id p) rows ->
  List.find (fun row => Payment.id row =? Payment.id p) (rows ++ [p]) = Some p.
Proof.
  induction 1 as [|row rows Hlt _ IH]; simpl.
  - by rewrite Z.eqb_refl.
  - destruct (Z.eqb_spec (Payment.id row) (Payment.id p)); [lia | exact IH].
Qed.

Lemma find_rewritten (rows : list Payment.t) (id now : Z) (d : UpdatePayment.t) :
  List.find (fun row => Payment.id row =? id)
    (map (fun row => if Payment.id row =? id then Payment.update row d now
                     else row) rows)
  = (fun p => Payment.update p d now)
      <$> List.find (fun row => Payment.id row =? id) rows.
Proof.
  induction rows as [|row rows IH]; simpl; [done|].
  destruct (Payment.id row =? id) eqn:E; simpl.
  - by rewrite E.
  - by rewrite E, IH.
Qed.

Lemma databaseStorage_created_is_new now insert s p s' :
  createPayment (S := DatabaseStorage.t) now insert s = (Returned p, s') ->
  p = newPayment insert (Payment.id p) now.
Proof.
  simpl. unfold DatabaseStorage.createPayment.
  destruct (existsb _ _); [discriminate|]. intros [= <- _]. reflexivity.
Qed.

Lemma databaseStorage_created_is_stored now insert s p s' :
  sequenced s ->
  createPayment (S := DatabaseStorage.t) now insert s = (Returned p, s') ->
  getPayment (Payment.id p) s' = Some p.
Proof.
  intros Hseq. simpl. unfold DatabaseStorage.createPayment.
  destruct (existsb _ _); [discriminate|]. intros [= <- <-].
  unfold DatabaseStorage.getPayment. simpl.
  apply (find_fresh (DatabaseStorage.payments s)
           (newPayment insert (DatabaseStorage.payments_id_seq s) now)).
  exact Hseq.
Qed.

Lemma databaseStorage_update_rewrites now id d (s : DatabaseStorage.t) :
  exists s',
    updatePayment now id d s
    = (Returned ((fun p => Payment.update p d now) <$> getPayment id s), s')
    /\ getPayment id s'
       = (fun p => Payment.update p d now) <$> getPayment id s.
Proof.
  simpl. unfold returning, DatabaseStorage.updatePayment,
    DatabaseStorage.getPayment. simpl.
  eexists. split; [by rewrite find_rewritten | apply find_rewritten].
Qed.

Example pipeline_approved :
  let '(r, w) := run (postPayment (H := latinCaseMapping) (storage := @memStorage latinCaseMapping)
                        (sampleEnv approved) sampleBody) MemStorage.constructor in
  (Response.status <$> (match r with Returned x => Some x | Thrown => None end),
   map (fun p => (Payment.id p, Payment.transactionId p, Payment.cardNumber p,
                  Payment.email p, Payment.status p, Payment.createdAt p,
                  Payment.updatedAt p))
       (MemStorage.getAllPayments (store w)),
   length (calls w))
  = (Some 200,
     [(1, lit "TXN-1762041600000-abc123z07", lit "************1111",
       lit "ada@example.com", lit "completed", 1762041600001, 1762041601502)],
     2%nat).
Proof. vm_compute. reflexivity. Qed.

Example pipeline_declined :
  let '(r, w) := run (postPayment (H := latinCaseMapping) (storage := databaseStorage)
                        (sampleEnv rejected) sampleBody) DatabaseStorage.empty in
  (Response.status <$> (match r with Returned x => Some x | Thrown => None end),
   map (fun p => (Payment.id p, Payment.cardNumber p, Payment.status p))
       (DatabaseStorage.getAllPayments (store w)))
  = (Some 422, [(1, lit "************1111", lit "failed")]).
Proof. vm_compute. reflexivity. Qed.

(** C3. On a fully valid submission the pipeline always answers. In the
    ephemeral backend, and in the durable one unless the insert is
    rejected (the unexpected error, answered with 500), the record is
    created pending, the answer is 200 when the gateway approves and 422
    when it declines, and once the pipeline has finished the record is
    [completed] in the first case and [failed] in the second: whatever
    other requests did to the store during the delay, the record is never
    left pending (it is gone only if they removed it), and when they left
    it in place it is stored with its final status. *)
Theorem pipeline_never_rests_pending `{CaseMapping} :
  (forall (env : Env MemStorage.t) formData mem,
     fullyValid (today env) formData = true ->
     settles (fun _ => True) env formData mem
     /\ exists response w,
          run (postPayment env formData) mem = (Returned response, w)
          /\ Response.status response = finalCode (outcomeDraw env))
  /\ (forall (env : Env DatabaseStorage.t) formData db,
        fullyValid (today env) formData = true ->
        settles sequenced env formData db).
Proof.
  split; intros env formData s Hvalid.
  - assert (Hsettles : settles (fun _ => True) env formData s).
    { apply pipeline_settles_with; [| | |exact Hvalid].
      + apply memStorage_created_is_new.
      + apply memStorage_created_is_stored.
      + apply memStorage_update_rewrites. }
    split; [exact Hsettles|].
    destruct Hsettles as (d & response & w & _ & Hrun & Hcase).
    exists response, w. split; [exact Hrun|].
    simpl in Hcase. tauto.
  - apply pipeline_settles_with; [| | |exact Hvalid].
    + apply databaseStorage_created_is_new.
    + apply databaseStorage_created_is_stored.
    + apply databaseStorage_update_rewrites.
Qed.

Lemma pipeline_never_rests_pending_witness :
  settles (H := latinCaseMapping) (storage := @memStorage latinCaseMapping)
          (fun _ => True) (sampleEnv approved) sampleBody MemStorage.constructor
  /\ settles (H := latinCaseMapping) (storage := databaseStorage)
             sequenced (sampleEnv rejected) sampleBody DatabaseStorage.empty.
Proof.
  split.
  - apply (proj1 (pipeline_never_rests_pending (H := latinCaseMapping)) _ _ _).
    vm_compute. reflexivity.
  - apply (proj2 (pipeline_never_rests_pending (H := latinCaseMapping))).
    vm_compute. reflexivity.
Defined.

(** * Further properties of the routes and the stores *)

(** ** Patterns: the matcher decides the language *)

Ltac invert H := inversion H; subst; clear H.

Lemma Lang_Void (s : jsstring) : ~ Lang JS.Void s.
Proof. intros HL. invert HL. Qed.

Lemma Lang_Eps (s : jsstring) : Lang JS.Eps s <-> s = [].
Proof. split; [intros HL; by invert HL | intros ->; constructor]. Qed.

Lemma Lang_Cls (p : N -> bool) (s : jsstring) :
  Lang (JS.Cls p) s <-> exists c, s = [c] /\ p c = true.
Proof.
  split.
  - intros HL. invert HL. eauto.
  - intros (c & -> & Hp). by constructor.
Qed.

Lemma Lang_Cat (a b : JS.regex) (s : jsstring) :
  Lang (JS.Cat a b) s <-> exists s1 s2, s = s1 ++ s2 /\ Lang a s1 /\ Lang b s2.
Proof.
  split.
  - intros HL. invert HL. eauto.
  - intros (s1 & s2 & -> & H1 & H2). by constructor.
Qed.

Lemma Lang_Alt (a b : JS.regex) (s : jsstring) :
  Lang (JS.Alt a b) s <-> Lang a s \/ Lang b s.
Proof.
  split.
  - intros HL. invert HL; eauto.
  - intros [H1|H2]; [by apply LangAltL | by apply LangAltR].
Qed.

Lemma nullable_Lang (r : JS.regex) : JS.nullable r = true <-> Lang r [].
Proof.
  induction r as [| |p|a IHa b IHb|a IHa b IHb|a IHa]; simpl.
  - split; [done | intros HL; invert HL].
  - split; [constructor | done].
  - split; [done | intros HL; invert HL].
  - rewrite andb_true_iff, IHa, IHb, Lang_Cat. split.
    + intros [H1 H2]. exists [], []. done.
    + intros (s1 & s2 & Heq & H1 & H2). symmetry in Heq.
      apply app_eq_nil in Heq as [-> ->]. done.
  - rewrite orb_true_iff, IHa, IHb, Lang_Alt. done.
  - split; [constructor | done].
Qed.

Lemma cat_Lang (a b : JS.regex) (s : jsstring) :
  Lang (JS.cat a b) s <-> Lang (JS.Cat a b) s.
Proof.
  rewrite Lang_Cat.
  destruct a; destruct b; simpl;
    first
      [ split;
        [ intros HL; by apply Lang_Void in HL
        | intros (s1 & s2 & _ & H1 & H2);
          first [by apply Lang_Void in H1 | by apply Lang_Void in H2] ]
      | split;
        [ intros HL; exists [], s; split; [done|];
          split; [constructor | exact HL]
        | intros (s1 & s2 & -> & H1 & H2); apply Lang_Eps in H1 as ->;
          exact H2 ]
      | apply Lang_Cat ].
Qed.

Lemma alt_Lang (a b : JS.regex) (s : jsstring) :
  Lang (JS.alt a b) s <-> Lang (JS.Alt a b) s.
Proof.
  rewrite Lang_Alt.
  destruct a; destruct b; simpl;
    first
      [ apply Lang_Alt
      | split;
        [ intros HL; first [by left | by right]
        | intros [HL|HL]; first [exact HL | by apply Lang_Void in HL] ] ].
Qed.

Lemma Lang_Star_cons (a : JS.regex) (c : N) (s : jsstring) :
  Lang (JS.Star a) (c :: s) ->
  exists s1 s2, s = s1 ++ s2 /\ Lang a (c :: s1) /\ Lang (JS.Star a) s2.
Proof.
  intros HL. remember (JS.Star a) as r eqn:Hr. remember (c :: s) as cs eqn:Hcs.
  revert c s Hcs.
  induction HL as [| | | | | |a' s1 s2 H1 _ H2 IH2]; intros c0 s0 Hcs;
    try discriminate.
  injection Hr as ->. destruct s1 as [|c1 s1]; simpl in Hcs.
  - by apply IH2.
  - injection Hcs as -> <-. eauto.
Qed.

Lemma deriv_Lang (r : JS.regex) (c : N) (s : jsstring) :
  Lang (JS.deriv c r) s <-> Lang r (c :: s).
Proof.
  revert s. induction r as [| |p|a IHa b IHb|a IHa b IHb|a IHa]; intros s; simpl.
  - split; intros HL; invert HL.
  - split; intros HL; invert HL.
  - rewrite Lang_Cls. destruct (p c) eqn:Hp.
    + rewrite Lang_Eps. split.
      * intros ->. eauto.
      * intros (c' & [= -> ->] & _). done.
    + split; [intros HL; invert HL|].
      intros (c' & [= -> ->] & Hp'). congruence.
  - assert (Hcat : Lang (JS.cat (JS.deriv c a) b) s
                   <-> exists s1 s2, s = s1 ++ s2 /\ Lang a (c :: s1) /\ Lang b s2).
    { rewrite cat_Lang, Lang_Cat. by setoid_rewrite IHa. }
    rewrite Lang_Cat. destruct (JS.nullable a) eqn:Hnull.
    + rewrite alt_Lang, Lang_Alt, Hcat, IHb. split.
      * intros [(s1 & s2 & -> & H1 & H2)|Hb].
        -- exists (c :: s1), s2. done.
        -- apply nullable_Lang in Hnull. exists [], (c :: s). done.
      * intros (s1 & s2 & Heq & H1 & H2). destruct s1 as [|c1 s1]; simpl in Heq.
        -- right. by subst s2.
        -- injection Heq as -> ->. left. eauto.
    + rewrite Hcat. split.
      * intros (s1 & s2 & -> & H1 & H2). exists (c :: s1), s2. done.
      * intros (s1 & s2 & Heq & H1 & H2). destruct s1 as [|c1 s1]; simpl in Heq.
        -- apply nullable_Lang in H1. congruence.
        -- injection Heq as -> ->. eauto.
  - rewrite alt_Lang, !Lang_Alt, IHa, IHb. done.
  - rewrite cat_Lang, Lang_Cat. setoid_rewrite IHa. split.
    + intros (s1 & s2 & -> & H1 & H2).
      change (c :: s1 ++ s2) with ((c :: s1) ++ s2). by constructor.
    + apply Lang_Star_cons.
Qed.

(** [test] accepts exactly the strings of the language. *)
Lemma test_Lang (r : JS.regex) (s : jsstring) : JS.test r s = true <-> Lang r s.
Proof.
  unfold JS.test. revert r. induction s as [|c s IH]; intros r; simpl.
  - apply nullable_Lang.
  - rewrite IH. apply deriv_Lang.
Qed.

(** ** The validators, pattern by pattern *)

Lemma forallb_all (p : N -> bool) (s : jsstring) :
  forallb p s = true <-> Forall (fun c => p c = true) s.
Proof. rewrite forallb_forall, Forall_forall. by setoid_rewrite list_elem_of_In. Qed.

Lemma Lang_times (n : nat) (p : N -> bool) (s : jsstring) :
  Lang (JS.times n (JS.Cls p)) s <-> length s = n /\ forallb p s = true.
Proof.
  revert s. induction n as [|n IH]; intros s; simpl.
  - rewrite Lang_Eps. split; [by intros -> | intros [Hlen _]].
    by apply nil_length_inv.
  - rewrite Lang_Cat. split.
    + intros (s1 & s2 & -> & H1 & H2). apply Lang_Cls in H1 as (c & -> & Hp).
      apply IH in H2 as [<- Hall]. simpl. by rewrite Hp, Hall.
    + intros [Hlen Hall]. destruct s as [|c s]; [done|].
      simpl in Hall. apply andb_true_iff in Hall as [Hp Hall].
      exists [c], s. split; [done|]. split; [by constructor|].
      apply IH. split; [by injection Hlen | done].
Qed.

Lemma Lang_Star_Cls (p : N -> bool) (s : jsstring) :
  Lang (JS.Star (JS.Cls p)) s <-> forallb p s = true.
Proof.
  split.
  - intros HL. remember (JS.Star (JS.Cls p)) as r eqn:Hr.
    induction HL as [| | | | | |a s1 s2 H1 _ H2 IH2]; try discriminate; [done|].
    injection Hr as ->. apply Lang_Cls in H1 as (c & -> & Hp).
    simpl. by rewrite Hp, IH2.
  - induction s as [|c s IH]; simpl; [constructor|].
    intros Hall. apply andb_true_iff in Hall as [Hp Hall].
    change (c :: s) with ([c] ++ s). constructor; [by constructor | auto].
Qed.

Lemma Lang_plus (p : N -> bool) (s : jsstring) :
  Lang (JS.plus (JS.Cls p)) s <-> s <> [] /\ forallb p s = true.
Proof.
  unfold JS.plus. rewrite Lang_Cat. split.
  - intros (s1 & s2 & -> & H1 & H2). apply Lang_Cls in H1 as (c & -> & Hp).
    apply Lang_Star_Cls in H2. simpl. by rewrite Hp, H2.
  - intros [Hne Hall]. destruct s as [|c s]; [done|].
    simpl in Hall. apply andb_true_iff in Hall as [Hp Hall].
    exists [c], s. split; [done|]. split; [by constructor|].
    by apply Lang_Star_Cls.
Qed.

Lemma Lang_chr (c : N) (s : jsstring) : Lang (JS.chr c) s <-> s = [c].
Proof.
  unfold JS.chr. rewrite Lang_Cls. split.
  - intros (c' & -> & Heq). apply N.eqb_eq in Heq. by subst.
  - intros ->. exists c. by rewrite N.eqb_refl.
Qed.

Lemma Lang_opt (r : JS.regex) (s : jsstring) :
  Lang (JS.opt r) s <-> Lang r s \/ s = [].
Proof. unfold JS.opt. by rewrite Lang_Alt, Lang_Eps. Qed.

(** X1. [validateCardNumber] accepts a value exactly when what is left
    of it after removing white space is sixteen digits. *)
Theorem validateCardNumber_sixteen_digits (value : jsstring) :
  validateCardNumber value
  = (length (JS.remove JS.isWhiteSpace value) =? 16)%nat
    && forallb JS.isDigit (JS.remove JS.isWhiteSpace value).
Proof.
  apply eq_true_iff_eq. unfold validateCardNumber, digit.
  rewrite test_Lang, Lang_times, andb_true_iff, Nat.eqb_eq. reflexivity.
Qed.

(** X2. [validateCVC] accepts exactly the strings of three or four
    digits. *)
Theorem validateCVC_three_or_four_digits (value : jsstring) :
  validateCVC value
  = ((length value =? 3)%nat || (length value =? 4)%nat)
    && forallb JS.isDigit value.
Proof.
  apply eq_true_iff_eq. unfold validateCVC, digit.
  rewrite test_Lang, Lang_Cat, andb_true_iff, orb_true_iff, !Nat.eqb_eq.
  split.
  - intros (s1 & s2 & -> & H1 & H2). apply Lang_times in H1 as [Hlen Hall].
    rewrite length_app, forallb_app, Hall, Hlen.
    apply Lang_opt in H2 as [H2| ->].
    + apply Lang_Cls in H2 as (c & -> & Hc). simpl. rewrite Hc. auto.
    + simpl. auto.
  - intros [Hlen Hall].
    exists (take 3 value), (drop 3 value). rewrite take_drop.
    rewrite <- (take_drop 3 value), forallb_app in Hall.
    apply andb_true_iff in Hall as [Hall1 Hall2].
    split; [done|]. split.
    + apply Lang_times. rewrite length_take. split; [lia | done].
    + apply Lang_opt.
      destruct (drop 3 value) as [|c [|c' rest]] eqn:Hdrop.
      * by right.
      * left. apply Lang_Cls. exists c. simpl in Hall2.
        apply andb_true_iff in Hall2 as [Hc _]. done.
      * exfalso. pose proof (length_drop value 3) as Hl.
        rewrite Hdrop in Hl. simpl in Hl. lia.
Qed.

(** X3. [validatePostalCode] accepts five digits, or five digits, a
    hyphen and four digits, and nothing else. *)
Theorem validatePostalCode_shape (value : jsstring) :
  validatePostalCode value
  = forallb JS.isDigit (take 5 value)
    && ((length value =? 5)%nat
        || (length value =? 10)%nat
           && bool_decide (value !! 5%nat = Some 45%N)
           && forallb JS.isDigit (drop 6 value)).
Proof.
  apply eq_true_iff_eq. unfold validatePostalCode, digit, jsstring in *.
  rewrite test_Lang, Lang_Cat. split.
  - intros (s1 & s2 & -> & H1 & H2). apply Lang_times in H1 as [Hlen Hall].
    rewrite take_app_length' by done. rewrite Hall. cbn [andb].
    apply Lang_opt in H2 as [H2| ->].
    + apply Lang_Cat in H2 as (h & t & -> & Hh & Ht).
      apply Lang_chr in Hh as ->. apply Lang_times in Ht as [Hlen' Hall'].
      apply orb_true_iff. right.
      rewrite !andb_true_iff. split; [split|].
      * apply Nat.eqb_eq. rewrite !length_app, Hlen, Hlen'. reflexivity.
      * apply bool_decide_eq_true.
        rewrite lookup_app_r by lia. rewrite Hlen. reflexivity.
      * rewrite drop_app_ge by lia. rewrite Hlen. exact Hall'.
    + rewrite app_nil_r, Hlen. reflexivity.
  - intros Hok. apply andb_true_iff in Hok as [Hfive Hrest].
    exists (take 5 value), (drop 5 value). rewrite take_drop.
    split; [done|]. apply orb_true_iff in Hrest as [Hlen|Hlong].
    + apply Nat.eqb_eq in Hlen. split.
      * apply Lang_times. rewrite length_take. split; [lia | done].
      * apply Lang_opt. right. apply nil_length_inv.
        rewrite length_drop. lia.
    + apply andb_true_iff in Hlong as [Hlong Htail].
      apply andb_true_iff in Hlong as [Hlen Hdash].
      apply Nat.eqb_eq in Hlen. apply bool_decide_eq_true in Hdash.
      split.
      * apply Lang_times. rewrite length_take. split; [lia | done].
      * apply Lang_opt. left.
        rewrite (drop_S value 45%N 5 Hdash). apply Lang_Cat.
        exists [45%N], (drop 6 value). split; [done|].
        split; [by apply Lang_chr|].
        apply Lang_times. rewrite length_drop. split; [lia | done].
Qed.

(** X4. [validateEmail] accepts exactly the strings made of a local
    part, [@], a domain, a dot and a last label, where the three parts are
    not empty and hold neither white space nor [@]. *)
Theorem validateEmail_shape (value : jsstring) :
  validateEmail value = true
  <-> exists localPart domain label,
        value = localPart ++ [64%N] ++ domain ++ [46%N] ++ label
        /\ localPart <> [] /\ domain <> [] /\ label <> []
        /\ forallb notSpaceAt (localPart ++ domain ++ label) = true.
Proof.
  unfold validateEmail. rewrite test_Lang. split.
  - intros HL. apply Lang_Cat in HL as (l & r1 & -> & Hl & HL).
    apply Lang_Cat in HL as (a & r2 & -> & Ha & HL).
    apply Lang_Cat in HL as (d & r3 & -> & Hd & HL).
    apply Lang_Cat in HL as (dot & t & -> & Hdot & Ht).
    apply Lang_chr in Ha as ->. apply Lang_chr in Hdot as ->.
    apply Lang_plus in Hl as [Hl1 Hl2]. apply Lang_plus in Hd as [Hd1 Hd2].
    apply Lang_plus in Ht as [Ht1 Ht2].
    exists l, d, t. rewrite !forallb_app, Hl2, Hd2, Ht2. done.
  - intros (l & d & t & -> & Hl & Hd & Ht & Hall).
    rewrite !forallb_app in Hall.
    apply andb_true_iff in Hall as [Hl' Hall].
    apply andb_true_iff in Hall as [Hd' Ht'].
    apply Lang_Cat. exists l, ([64%N] ++ d ++ [46%N] ++ t).
    split; [done|]. split; [by apply Lang_plus|].
    apply Lang_Cat. exists [64%N], (d ++ [46%N] ++ t).
    split; [done|]. split; [by apply Lang_chr|].
    apply Lang_Cat. exists d, ([46%N] ++ t).
    split; [done|]. split; [by apply Lang_plus|].
    apply Lang_Cat. exists [46%N], t.
    split; [done|]. split; [by apply Lang_chr | by apply Lang_plus].
Qed.

Lemma notSpaceAt_inv (c : N) :
  notSpaceAt c = true -> JS.isWhiteSpace c = false /\ (64 =? c)%N = false.
Proof.
  unfold notSpaceAt. intros Hc. apply negb_true_iff, orb_false_iff in Hc.
  destruct Hc as [Hws Hat]. split; [done|]. by rewrite N.eqb_sym.
Qed.

Lemma notSpaceAt_part (s : jsstring) :
  forallb notSpaceAt s = true ->
  forallb (fun c => negb (JS.isWhiteSpace c)) s = true
  /\ List.filter (N.eqb 64) s = [].
Proof.
  induction s as [|c s IH]; [done|]. cbn [forallb List.filter].
  intros Hall. apply andb_true_iff in Hall as [Hc Hall].
  destruct (notSpaceAt_inv c Hc) as [-> ->]. destruct (IH Hall) as [-> ->].
  done.
Qed.

(** X5. An address [validateEmail] accepts holds no white space and
    exactly one [@], is at least five characters long and does not begin
    with [@]. *)
Theorem validateEmail_accepts_only (value : jsstring) :
  validateEmail value = true ->
  forallb (fun c => negb (JS.isWhiteSpace c)) value = true
  /\ length (List.filter (N.eqb 64) value) = 1%nat
  /\ (5 <= length value)%nat
  /\ hd 0%N value <> 64%N.
Proof.
  unfold validateEmail. rewrite test_Lang. intros HL.
  apply Lang_Cat in HL as (l & r1 & -> & Hl & HL).
  apply Lang_Cat in HL as (a & r2 & -> & Ha & HL).
  apply Lang_Cat in HL as (d & r3 & -> & Hd & HL).
  apply Lang_Cat in HL as (dot & t & -> & Hdot & Ht).
  apply Lang_chr in Ha as ->. apply Lang_chr in Hdot as ->.
  apply Lang_plus in Hl as [Hl1 Hl2]. apply Lang_plus in Hd as [Hd1 Hd2].
  apply Lang_plus in Ht as [Ht1 Ht2].
  destruct (notSpaceAt_part l Hl2) as [Hl3 Hl4].
  destruct (notSpaceAt_part d Hd2) as [Hd3 Hd4].
  destruct (notSpaceAt_part t Ht2) as [Ht3 Ht4].
  split; [|split; [|split]].
  - rewrite !forallb_app, Hl3, Hd3, Ht3. reflexivity.
  - rewrite !List.filter_app, Hl4, Hd4, Ht4. reflexivity.
  - rewrite !length_app. simpl.
    destruct l; [done|]. destruct d; [done|]. destruct t; [done|].
    simpl. lia.
  - destruct l as [|c l]; [done|]. simpl in *.
    apply andb_true_iff in Hl2 as [Hc _].
    apply notSpaceAt_inv in Hc as [_ Hc]. apply N.eqb_neq in Hc. congruence.
Qed.

Lemma validateEmail_accepts_only_witness :
  forallb (fun c => negb (JS.isWhiteSpace c)) (lit "ada@example.com") = true
  /\ length (List.filter (N.eqb 64) (lit "ada@example.com")) = 1%nat
  /\ (5 <= length (lit "ada@example.com"))%nat
  /\ hd 0%N (lit "ada@example.com") <> 64%N.
Proof.
  apply (validateEmail_accepts_only (lit "ada@example.com")).
  vm_compute. reflexivity.
Defined.

Lemma dropWhile_nil (p : N -> bool) (s : jsstring) :
  JS.dropWhile p s = [] <-> forallb p s = true.
Proof.
  induction s as [|c s IH]; simpl; [done|].
  destruct (p c); simpl; [exact IH | done].
Qed.

Lemma dropWhile_head (p : N -> bool) (s t : jsstring) (c : N) :
  JS.dropWhile p s = c :: t -> p c = false.
Proof.
  induction s as [|c' s IH]; simpl; [done|].
  destruct (p c') eqn:E; [exact IH|]. by intros [= <- _].
Qed.

Lemma trim_nil (s : jsstring) :
  JS.trim s = [] <-> forallb JS.isWhiteSpace s = true.
Proof.
  unfold JS.trim. split.
  - intros Hnil.
    assert (Hinner : JS.dropWhile JS.isWhiteSpace
                       (rev (JS.dropWhile JS.isWhiteSpace s)) = []).
    { destruct (JS.dropWhile JS.isWhiteSpace
                  (rev (JS.dropWhile JS.isWhiteSpace s))) as [|c t]; [done|].
      simpl in Hnil. by destruct (rev t). }
    apply dropWhile_nil in Hinner.
    destruct (JS.dropWhile JS.isWhiteSpace s) as [|c t] eqn:Hdrop.
    + by apply dropWhile_nil.
    + exfalso. simpl in Hinner. rewrite forallb_app in Hinner.
      apply andb_true_iff in Hinner as [_ Hc]. simpl in Hc.
      rewrite (dropWhile_head _ _ _ _ Hdrop) in Hc. done.
  - intros Hall. apply dropWhile_nil in Hall. rewrite Hall. reflexivity.
Qed.

(** X6. [validateRequired] accepts a value exactly when it holds a
    character that is not white space. *)
Theorem validateRequired_some_ink (value : jsstring) :
  validateRequired value
  = existsb (fun c => negb (JS.isWhiteSpace c)) value.
Proof.
  apply eq_true_iff_eq. unfold validateRequired.
  rewrite negb_true_iff, jsstring_eqb_neq, trim_nil, existsb_exists. split.
  - intros Hnot. induction value as [|c value IH]; simpl in Hnot; [done|].
    destruct (JS.isWhiteSpace c) eqn:E.
    + destruct (IH Hnot) as (c' & Hin & Hc'). exists c'. split; [by right|done].
    + exists c. split; [by left|]. by rewrite E.
  - intros (c & Hin & Hc) Hall. rewrite forallb_forall in Hall.
    rewrite (Hall c Hin) in Hc. done.
Qed.

(** *** Expiry dates *)

Lemma isDigit_cases (c : N) : JS.isDigit c = true -> In c digitCodes.
Proof.
  unfold JS.isDigit. intros Hc. apply andb_true_iff in Hc as [Hlo Hhi].
  apply N.leb_le in Hlo, Hhi.
  assert (c = 48 \/ c = 49 \/ c = 50 \/ c = 51 \/ c = 52 \/ c = 53 \/ c = 54
          \/ c = 55 \/ c = 56 \/ c = 57)%N as Hcases by lia.
  unfold digitCodes. simpl. intuition.
Qed.

Lemma parseInt_two_digits (a b : N) :
  JS.isDigit a = true -> JS.isDigit b = true ->
  JS.parseInt [a; b] = Some (twoDigits a b).
Proof.
  intros Ha Hb. apply isDigit_cases in Ha, Hb.
  assert (Hall : Forall (fun a => Forall (fun b =>
                   JS.parseInt [a; b] = Some (twoDigits a b)) digitCodes)
                   digitCodes).
  { apply (bool_decide_unpack _). vm_compute. exact I. }
  rewrite Forall_forall in Hall. apply list_elem_of_In in Ha, Hb.
  specialize (Hall a Ha). rewrite Forall_forall in Hall. by apply Hall.
Qed.

Lemma digit_not_slash (c : N) : JS.isDigit c = true -> (c =? 47)%N = false.
Proof.
  unfold JS.isDigit. intros Hc. apply andb_true_iff in Hc as [Hlo _].
  apply N.leb_le in Hlo. apply N.eqb_neq. lia.
Qed.

Lemma expiry_pattern (value : jsstring) :
  JS.test (JS.Cat (JS.times 2 digit) (JS.Cat (JS.chr 47) (JS.times 2 digit)))
          value = true
  <-> exists a b c d,
        value = [a; b; 47%N; c; d]
        /\ JS.isDigit a = true /\ JS.isDigit b = true
        /\ JS.isDigit c = true /\ JS.isDigit d = true.
Proof.
  unfold digit. rewrite test_Lang, Lang_Cat. split.
  - intros (s1 & r & -> & H1 & HL).
    apply Lang_Cat in HL as (sl & s2 & -> & Hsl & H2).
    apply Lang_chr in Hsl as ->.
    apply Lang_times in H1 as [Hlen1 Hall1].
    apply Lang_times in H2 as [Hlen2 Hall2].
    destruct s1 as [|a [|b [|]]]; try discriminate.
    destruct s2 as [|c [|d [|]]]; try discriminate.
    simpl in Hall1, Hall2.
    apply andb_true_iff in Hall1 as [Ha Hb]. rewrite andb_true_r in Hb.
    apply andb_true_iff in Hall2 as [Hc Hd]. rewrite andb_true_r in Hd.
    exists a, b, c, d. done.
  - intros (a & b & c & d & -> & Ha & Hb & Hc & Hd).
    exists [a; b], [47%N; c; d]. split; [done|]. split.
    + apply Lang_times. simpl. by rewrite Ha, Hb.
    + apply Lang_Cat. exists [47%N], [c; d]. split; [done|].
      split; [by apply Lang_chr|]. apply Lang_times. simpl. by rewrite Hc, Hd.
Qed.

Lemma expiry_on_digits (today : Today) (a b c d : N) :
  JS.isDigit a = true -> JS.isDigit b = true ->
  JS.isDigit c = true -> JS.isDigit d = true ->
  validateExpiryDate today [a; b; 47%N; c; d]
  = negb ((twoDigits a b <? 1) || (12 <? twoDigits a b))
    && negb ((twoDigits c d <? Z.rem (getFullYear today) 100)
             || (twoDigits c d =? Z.rem (getFullYear today) 100)
                && (twoDigits a b <? getMonth today + 1)).
Proof.
  intros Ha Hb Hc Hd. unfold validateExpiryDate.
  assert (Hpat : JS.test (JS.Cat (JS.times 2 digit)
                            (JS.Cat (JS.chr 47) (JS.times 2 digit)))
                         [a; b; 47%N; c; d] = true).
  { apply expiry_pattern. exists a, b, c, d. done. }
  rewrite Hpat. cbn [negb].
  assert (Hsplit : JS.split 47 [a; b; 47%N; c; d] = [[a; b]; [c; d]]).
  { cbn [JS.split]. rewrite (digit_not_slash a Ha), (digit_not_slash b Hb),
      (digit_not_slash c Hc), (digit_not_slash d Hd), N.eqb_refl. reflexivity. }
  rewrite Hsplit. cbn [nth_error parseIntOpt].
  rewrite (parseInt_two_digits a b Ha Hb), (parseInt_two_digits c d Hc Hd).
  unfold JS.gt, JS.lt, JS.eq.
  destruct ((twoDigits a b <? 1) || (12 <? twoDigits a b)); [done|].
  destruct ((twoDigits c d <? Z.rem (getFullYear today) 100)
            || (twoDigits c d =? Z.rem (getFullYear today) 100)
               && (twoDigits a b <? getMonth today + 1)); done.
Qed.

(** X7. [validateExpiryDate] accepts exactly the values [MM/YY], two
    digits, a slash and two digits, whose month is between 1 and 12 and
    whose year is after the current year modulo 100, or is that year with
    a month that is not before the current one. *)
Theorem validateExpiryDate_shape (today : Today) (value : jsstring) :
  validateExpiryDate today value = true
  <-> exists a b c d,
        value = [a; b; 47%N; c; d]
        /\ forallb JS.isDigit [a; b; c; d] = true
        /\ 1 <= twoDigits a b <= 12
        /\ (Z.rem (getFullYear today) 100 < twoDigits c d
            \/ (twoDigits c d = Z.rem (getFullYear today) 100
                /\ getMonth today + 1 <= twoDigits a b)).
Proof.
  split.
  - intros Hok.
    assert (Hpat : JS.test (JS.Cat (JS.times 2 digit)
                              (JS.Cat (JS.chr 47) (JS.times 2 digit)))
                           value = true).
    { unfold validateExpiryDate in Hok.
      destruct (JS.test _ value); [done | discriminate]. }
    apply expiry_pattern in Hpat as (a & b & c & d & -> & Ha & Hb & Hc & Hd).
    rewrite (expiry_on_digits today a b c d Ha Hb Hc Hd) in Hok.
    exists a, b, c, d. split; [done|]. split.
    { simpl. by rewrite Ha, Hb, Hc, Hd. }
    apply andb_true_iff in Hok as [Hmonth Hyear].
    apply negb_true_iff, orb_false_iff in Hmonth as [Hm1 Hm12].
    apply negb_true_iff, orb_false_iff in Hyear as [Hy Hym].
    apply Z.ltb_ge in Hm1, Hm12, Hy. split; [lia|].
    apply andb_false_iff in Hym as [Hne|Hge].
    + apply Z.eqb_neq in Hne. lia.
    + apply Z.ltb_ge in Hge. lia.
  - intros (a & b & c & d & -> & Hall & Hmonth & Hyear).
    simpl in Hall. apply andb_true_iff in Hall as [Ha Hall].
    apply andb_true_iff in Hall as [Hb Hall].
    apply andb_true_iff in Hall as [Hc Hd]. rewrite andb_true_r in Hd.
    rewrite (expiry_on_digits today a b c d Ha Hb Hc Hd).
    apply andb_true_iff. split; apply negb_true_iff, orb_false_iff.
    + split; apply Z.ltb_ge; lia.
    + split; [apply Z.ltb_ge; lia|].
      apply andb_false_iff.
      destruct Hyear as [Hlt|[Heq Hle]].
      * left. apply Z.eqb_neq. lia.
      * right. apply Z.ltb_ge. lia.
Qed.

(** *** Amounts *)

Lemma takeWhile_app (p : N -> bool) (ds rest : jsstring) :
  forallb p ds = true ->
  JS.takeWhile p (ds ++ rest) = ds ++ JS.takeWhile p rest.
Proof.
  induction ds as [|c ds IH]; simpl; [done|].
  intros Hall. apply andb_true_iff in Hall as [-> Hall]. by rewrite IH.
Qed.

Lemma dropWhile_app (p : N -> bool) (ds rest : jsstring) :
  forallb p ds = true ->
  JS.dropWhile p (ds ++ rest) = JS.dropWhile p rest.
Proof.
  induction ds as [|c ds IH]; simpl; [done|].
  intros Hall. apply andb_true_iff in Hall as [-> Hall]. by rewrite IH.
Qed.

Lemma takeWhile_all (p : N -> bool) (s : jsstring) :
  forallb p s = true -> JS.takeWhile p s = s.
Proof.
  induction s as [|c s IH]; simpl; [done|].
  intros Hall. apply andb_true_iff in Hall as [-> Hall]. by rewrite IH.
Qed.

Lemma number_head (c : N) (t : jsstring) :
  JS.isDigit c = true ->
  JS.dropWhile JS.isWhiteSpace (c :: t) = c :: t
  /\ JS.strSign (c :: t) = (false, c :: t)
  /\ JS.isPrefix (lit "Infinity") (c :: t) = false.
Proof.
  intros Hc. apply isDigit_cases in Hc. unfold digitCodes in Hc. simpl in Hc.
  destruct Hc as [<-|[<-|[<-|[<-|[<-|[<-|[<-|[<-|[<-|[<-|[]]]]]]]]]]];
    repeat split.
Qed.

(** What [parseFloat] reads off a string that begins with digits, when
    the digits are followed by nothing, by a hyphen, or by a dot and more
    digits that end the string. *)
Lemma parseFloat_digits (ip rest : jsstring) :
  ip <> [] -> forallb JS.isDigit ip = true ->
  match rest with [] => True | c :: _ => c = 45%N end ->
  JS.parseFloat (ip ++ rest) = JS.Decimal false (JS.digits_value ip) 0.
Proof.
  intros Hne Hall Hrest. destruct ip as [|c ip]; [done|].
  simpl in Hall. apply andb_true_iff in Hall as [Hc Hall].
  destruct (number_head c (ip ++ rest) Hc) as (Hdrop & Hsign & Hinf).
  unfold JS.parseFloat. change ((c :: ip) ++ rest) with (c :: ip ++ rest).
  rewrite Hdrop, Hsign, Hinf.
  change (c :: ip ++ rest) with ((c :: ip) ++ rest).
  assert (Hall' : forallb JS.isDigit (c :: ip) = true) by (simpl; by rewrite Hc).
  rewrite (takeWhile_app _ _ _ Hall'), (dropWhile_app _ _ _ Hall').
  destruct rest as [|r rest]; [|subst r]; simpl JS.takeWhile;
    simpl JS.dropWhile; rewrite !app_nil_r; reflexivity.
Qed.

Lemma parseFloat_fraction (ip fp : jsstring) :
  ip <> [] -> forallb JS.isDigit ip = true -> forallb JS.isDigit fp = true ->
  JS.parseFloat (ip ++ 46%N :: fp)
  = JS.Decimal false (JS.digits_value (ip ++ fp)) (- Z.of_nat (length fp)).
Proof.
  intros Hne Hall Hfp. destruct ip as [|c ip]; [done|].
  simpl in Hall. apply andb_true_iff in Hall as [Hc Hall].
  destruct (number_head c (ip ++ 46%N :: fp) Hc) as (Hdrop & Hsign & Hinf).
  unfold JS.parseFloat.
  change ((c :: ip) ++ 46%N :: fp) with (c :: ip ++ 46%N :: fp).
  rewrite Hdrop, Hsign, Hinf.
  change (c :: ip ++ 46%N :: fp) with ((c :: ip) ++ 46%N :: fp).
  assert (Hall' : forallb JS.isDigit (c :: ip) = true) by (simpl; by rewrite Hc).
  rewrite (takeWhile_app _ _ _ Hall'), (dropWhile_app _ _ _ Hall').
  cbn [JS.takeWhile JS.dropWhile].
  change (JS.isDigit 46) with false. cbv iota. rewrite app_nil_r.
  rewrite (takeWhile_all _ _ Hfp), (proj2 (dropWhile_nil _ _) Hfp).
  reflexivity.
Qed.

Lemma small_fraction_is_positive (m : N) (k : nat) :
  (k <= 323)%nat ->
  (10 ^ Z.of_nat k <? Z.of_N m * 2 ^ 1075) = (0 <? m)%N.
Proof.
  intros Hk.
  assert (Hbound : 10 ^ 323 < 2 ^ 1075) by (apply Z.ltb_lt; vm_compute; reflexivity).
  assert (Hpow : 10 ^ Z.of_nat k <= 10 ^ 323) by (apply Z.pow_le_mono_r; lia).
  assert (Hpos : 0 < 10 ^ Z.of_nat k) by (apply Z.pow_pos_nonneg; lia).
  destruct (N.ltb_spec 0 m) as [Hm|Hm].
  - apply Z.ltb_lt. nia.
  - apply Z.ltb_ge. assert (m = 0%N) as -> by lia. lia.
Qed.

(** X8. [validateAmount] on a plain decimal, digits or digits, a dot and
    at most 323 more digits: the amount is accepted exactly when one of
    its digits is not zero. *)
Theorem validateAmount_decimal (ip fp : jsstring) :
  ip <> [] -> forallb JS.isDigit ip = true -> forallb JS.isDigit fp = true ->
  (length fp <= 323)%nat ->
  validateAmount ip = (0 <? JS.digits_value ip)%N
  /\ validateAmount (ip ++ 46%N :: fp) = (0 <? JS.digits_value (ip ++ fp))%N.
Proof.
  intros Hne Hip Hfp Hlen. unfold validateAmount. split.
  - rewrite <- (app_nil_r ip) at 1 2.
    rewrite (parseFloat_digits ip [] Hne Hip I). reflexivity.
  - rewrite (parseFloat_fraction ip fp Hne Hip Hfp). cbn [JS.isNaN negb andb JS.gt0].
    destruct fp as [|c fp]; [reflexivity|].
    destruct (Z.leb_spec 0 (- Z.of_nat (length (c :: fp)))) as [Hle|Hlt].
    + simpl length in Hle. lia.
    + rewrite Z.opp_involutive. by apply small_fraction_is_positive.
Qed.

Lemma validateAmount_decimal_witness :
  validateAmount (lit "25") = true
  /\ validateAmount (lit "0.00") = false.
Proof.
  split.
  - apply (proj1 (validateAmount_decimal (lit "25") []
                    ltac:(discriminate) eq_refl eq_refl ltac:(simpl; lia))).
  - apply (proj2 (validateAmount_decimal (lit "0") (lit "00")
                    ltac:(discriminate) eq_refl eq_refl ltac:(simpl; lia))).
Defined.

(** X9. [validateAmount] never accepts a value whose first character
    after leading white space is a hyphen. *)
Theorem validateAmount_rejects_negative (value rest : jsstring) :
  JS.dropWhile JS.isWhiteSpace value = 45%N :: rest ->
  validateAmount value = false.
Proof.
  intros Hneg. unfold validateAmount, JS.parseFloat. rewrite Hneg.
  cbn [JS.strSign].
  destruct (JS.isPrefix (lit "Infinity") rest); [reflexivity|].
  destruct (JS.dropWhile JS.isDigit rest) as [|[|p] tl];
    destruct (JS.takeWhile JS.isDigit rest) as [|d ds]; try reflexivity;
    try (destruct (JS.takeWhile JS.isDigit tl); reflexivity);
    repeat (destruct p as [p|p|]; try reflexivity;
            try (destruct (JS.takeWhile JS.isDigit tl); reflexivity)).
Qed.

Lemma validateAmount_rejects_negative_witness :
  validateAmount (lit " -12.50") = false.
Proof.
  apply (validateAmount_rejects_negative (lit " -12.50") (lit "12.50")).
  reflexivity.
Defined.

(** X10. [validateAmount] reads the leading number only: digits followed
    by a hyphen and anything else are judged as the digits alone, so a
    sanitized amount such as ["12-34"] passes. *)
Theorem validateAmount_reads_prefix (ip rest : jsstring) :
  ip <> [] -> forallb JS.isDigit ip = true ->
  validateAmount (ip ++ 45%N :: rest) = (0 <? JS.digits_value ip)%N.
Proof.
  intros Hne Hip. unfold validateAmount.
  rewrite (parseFloat_digits ip (45%N :: rest) Hne Hip eq_refl). reflexivity.
Qed.

Lemma validateAmount_reads_prefix_witness :
  validateAmount (lit "12-34") = true
  /\ sanitizeNumeric (lit "12-34") = lit "12-34".
Proof.
  split; [|reflexivity].
  apply (validateAmount_reads_prefix (lit "12") (lit "34")
           ltac:(discriminate) eq_refl).
Defined.

(** ** The sanitizers *)

Lemma remove_none (p : N -> bool) (s : jsstring) :
  forallb (fun c => negb (p c)) s = true -> JS.remove p s = s.
Proof.
  unfold JS.remove. induction s as [|c s IH]; simpl; [done|].
  intros Hall. apply andb_true_iff in Hall as [-> Hall]. by rewrite IH.
Qed.

Lemma remove_clean (p : N -> bool) (s : jsstring) :
  forallb (fun c => negb (p c)) (JS.remove p s) = true.
Proof.
  unfold JS.remove. apply forallb_forall. intros c Hc.
  apply List.filter_In in Hc as [_ Hc]. exact Hc.
Qed.

Lemma forallb_take (p : N -> bool) (n : nat) (s : jsstring) :
  forallb p s = true -> forallb p (take n s) = true.
Proof.
  rewrite !forallb_all. apply Forall_take.
Qed.

(** X11. [sanitizeInput] returns at most 255 characters, none of them
    [<], [>], a double or a single quote; on a text without those
    characters it is the trimmed text cut to 255. *)
Theorem sanitizeInput_clean (input : jsstring) :
  (length (sanitizeInput input) <= 255)%nat
  /\ forallb (fun c => negb (isMarkup c)) (sanitizeInput input) = true
  /\ (forallb (fun c => negb (isMarkup c)) input = true ->
      sanitizeInput input = take 255 (JS.trim input)).
Proof.
  unfold sanitizeInput, JS.substring0. split; [|split].
  - rewrite length_take. lia.
  - apply forallb_take, remove_clean.
  - intros Hclean. f_equal. apply remove_none.
    unfold JS.trim. apply forallb_forall. intros c Hc.
    rewrite forallb_forall in Hclean. apply Hclean.
    apply in_rev in Hc.
    assert (Hsub : forall (t : jsstring) x,
               In x (JS.dropWhile JS.isWhiteSpace t) -> In x t).
    { intros t x. induction t as [|c' t IH]; simpl; [done|].
      destruct (JS.isWhiteSpace c'); [right; auto | done]. }
    apply Hsub in Hc. apply in_rev in Hc. by apply Hsub in Hc.
Qed.

Lemma sanitizeInput_clean_witness :
  sanitizeInput (lit "  O Neil ") = take 255 (JS.trim (lit "  O Neil ")).
Proof.
  apply (proj2 (proj2 (sanitizeInput_clean (lit "  O Neil ")))).
  reflexivity.
Defined.

(** X12. [sanitizeNumeric] returns at most 20 characters, each a digit,
    a dot or a hyphen, and sanitizing its result again changes nothing. *)
Theorem sanitizeNumeric_clean (input : jsstring) :
  (length (sanitizeNumeric input) <= 20)%nat
  /\ forallb isNumericChar (sanitizeNumeric input) = true
  /\ sanitizeNumeric (sanitizeNumeric input) = sanitizeNumeric input.
Proof.
  assert (Hkept : forallb isNumericChar (sanitizeNumeric input) = true).
  { unfold sanitizeNumeric, JS.substring0. apply forallb_take.
    pose proof (remove_clean (fun c => negb (isNumericChar c)) input) as Hc.
    rewrite forallb_forall in Hc. apply forallb_forall. intros c Hin.
    specialize (Hc c Hin). by rewrite negb_involutive in Hc. }
  split; [|split; [exact Hkept|]].
  - unfold sanitizeNumeric, JS.substring0. rewrite length_take. lia.
  - unfold sanitizeNumeric at 1. rewrite remove_none.
    + unfold sanitizeNumeric, JS.substring0. apply take_take.
    + rewrite forallb_forall in Hkept. apply forallb_forall. intros c Hin.
      rewrite negb_involutive. by apply Hkept.
Qed.

(** ** Transaction ids, continued *)

Lemma pretty_N_char_digit (x : N) :
  JS.isDigit (N_of_ascii (pretty_N_char x)) = true.
Proof.
  unfold pretty_N_char.
  destruct x as [|[[[[|[]|]|[]|]|[[]|[]|]|]|[[[]|[]|]|[[]|[]|]|]|]];
    reflexivity.
Qed.

Lemma pretty_N_go_digits (x : N) (s : string) :
  forallb JS.isDigit (lit s) = true ->
  forallb JS.isDigit (lit (pretty_N_go x s)) = true.
Proof.
  revert s. induction (N.lt_wf_0 x) as [x _ IH]; intros s Hs.
  destruct (decide (x = 0%N)) as [->|Hpos].
  - by rewrite pretty_N_go_0.
  - rewrite pretty_N_go_step by lia. apply IH.
    + apply N.div_lt; lia.
    + simpl. by rewrite pretty_N_char_digit, Hs.
Qed.

Lemma pretty_N_go_length (k : nat) (x : N) (s : string) :
  (x < 10 ^ N.of_nat k)%N ->
  (length (lit (pretty_N_go x s)) <= k + length (lit s))%nat.
Proof.
  revert x s. induction k as [|k IH]; intros x s Hlt.
  - assert (x = 0%N) as -> by (simpl in Hlt; lia).
    rewrite pretty_N_go_0. lia.
  - destruct (decide (x = 0%N)) as [->|Hpos].
    + rewrite pretty_N_go_0. lia.
    + rewrite pretty_N_go_step by lia.
      etransitivity; [apply IH|simpl; lia].
      apply N.Div0.div_lt_upper_bound.
      rewrite Nat2N.inj_succ, N.pow_succ_r' in Hlt. exact Hlt.
Qed.

(** A timestamp that is not negative prints as digits, at most [k] of
    them when it is below [10^k]. *)
Lemma numberToString_digits (n : Z) :
  0 <= n -> forallb JS.isDigit (JS.numberToString n) = true.
Proof.
  intros Hn. unfold JS.numberToString, pretty, pretty_Z.
  destruct n as [|p|p]; [reflexivity| |lia].
  unfold pretty, pretty_positive, pretty, pretty_N.
  destruct (decide (N.pos p = 0%N)); [reflexivity|].
  by apply pretty_N_go_digits.
Qed.

Lemma numberToString_length (n : Z) (k : nat) :
  0 <= n < 10 ^ Z.of_nat k -> (length (JS.numberToString n) <= Datatypes.S k)%nat.
Proof.
  intros [Hn Hlt]. unfold JS.numberToString, pretty, pretty_Z.
  destruct n as [|p|p]; [simpl; lia| |lia].
  unfold pretty, pretty_positive, pretty, pretty_N.
  destruct (decide (N.pos p = 0%N)); [simpl; lia|].
  etransitivity; [apply (pretty_N_go_length k)|simpl; lia].
  apply N2Z.inj_lt. rewrite N2Z.inj_pow, nat_N_Z. exact Hlt.
Qed.

Lemma dropWhile_head_kept (p : N -> bool) (s : jsstring) :
  match s with [] => True | c :: _ => p c = false end ->
  JS.dropWhile p s = s.
Proof. destruct s as [|c s]; simpl; [done|]. by intros ->. Qed.

Lemma trim_no_space (s : jsstring) :
  forallb (fun c => negb (JS.isWhiteSpace c)) s = true -> JS.trim s = s.
Proof.
  intros Hall. unfold JS.trim.
  assert (Hhead : forall t : jsstring,
             forallb (fun c => negb (JS.isWhiteSpace c)) t = true ->
             JS.dropWhile JS.isWhiteSpace t = t).
  { intros t Ht. apply dropWhile_head_kept. destruct t as [|c t]; [done|].
    simpl in Ht. apply andb_true_iff in Ht as [Hc _].
    by apply negb_true_iff in Hc. }
  rewrite (Hhead s Hall), Hhead, rev_involutive; [done|].
  apply forallb_forall. intros c Hc. apply in_rev in Hc.
  rewrite forallb_forall in Hall. by apply Hall.
Qed.

Lemma isIdChar_plain (c : N) :
  isIdChar c = true ->
  negb (JS.isWhiteSpace c) = true /\ negb (isMarkup c) = true.
Proof.
  unfold isIdChar, isBase36, JS.isDigit, JS.isWhiteSpace, isMarkup.
  intros Hc. rewrite !negb_true_iff.
  repeat match type of Hc with
         | (_ || _)%bool = true => apply orb_true_iff in Hc as [Hc|Hc]
         end;
    repeat match type of Hc with
           | (_ && _)%bool = true =>
               let H1 := fresh in let H2 := fresh in
               apply andb_true_iff in Hc as [H1 H2];
               apply N.leb_le in H1; apply N.leb_le in H2
           | (_ =? _)%N = true => apply N.eqb_eq in Hc
           end;
    split;
    repeat (apply orb_false_iff; split);
    first [ apply N.eqb_neq; lia
          | apply andb_false_iff;
            first [ left; apply N.leb_gt; lia | right; apply N.leb_gt; lia ] ].
Qed.

Lemma isDigit_isIdChar (s : jsstring) :
  forallb JS.isDigit s = true -> forallb isIdChar s = true.
Proof.
  rewrite !forallb_forall. intros Hall c Hc. specialize (Hall c Hc).
  unfold isIdChar, isBase36. by rewrite Hall.
Qed.

Lemma transactionId_chars (dateNow : Z) (x : Random) :
  0 <= dateNow -> forallb isIdChar (newTransactionId dateNow x) = true.
Proof.
  intros Hnow. unfold newTransactionId. rewrite !forallb_app.
  rewrite (isDigit_isIdChar _ (numberToString_digits dateNow Hnow)).
  assert (Hsuffix : forallb isIdChar (transactionSuffix x) = true).
  { rewrite transactionSuffix_digits. apply forallb_forall. intros c Hc.
    apply list_elem_of_In, elem_of_take in Hc as (i & Hc & _).
    apply list_lookup_fmap_Some in Hc as (d & -> & _).
    unfold isIdChar. by rewrite digit36_isBase36. }
  rewrite Hsuffix. reflexivity.
Qed.

Lemma transactionId_length (dateNow : Z) (x : Random) :
  0 <= dateNow < 10 ^ 16 ->
  (length (newTransactionId dateNow x) <= 31)%nat.
Proof.
  intros Hnow. unfold newTransactionId. rewrite !length_app.
  pose proof (numberToString_length dateNow 16 Hnow) as Hdigits.
  assert (Hsuffix : (length (transactionSuffix x) <= 9)%nat).
  { rewrite transactionSuffix_digits, length_take. lia. }
  simpl length at 1 3. lia.
Qed.

(** X13. A transaction id generated at a timestamp between 0 and
    [10^16] goes through [sanitizeInput] unchanged, so the id a client is
    given is the id the lookup route searches for. *)
Theorem transactionId_survives_sanitizing (dateNow : Z) (x : Random) :
  0 <= dateNow < 10 ^ 16 ->
  sanitizeInput (newTransactionId dateNow x) = newTransactionId dateNow x.
Proof.
  intros Hnow.
  assert (Hchars : forallb isIdChar (newTransactionId dateNow x) = true)
    by (apply transactionId_chars; lia).
  assert (Hplain : forall c, In c (newTransactionId dateNow x) ->
                     negb (JS.isWhiteSpace c) = true
                     /\ negb (isMarkup c) = true).
  { intros c Hc. apply isIdChar_plain.
    rewrite forallb_forall in Hchars. by apply Hchars. }
  unfold sanitizeInput, JS.substring0.
  rewrite trim_no_space by (apply forallb_forall; intros c Hc; by apply Hplain).
  rewrite remove_none by (apply forallb_forall; intros c Hc; by apply Hplain).
  apply take_ge. pose proof (transactionId_length dateNow x Hnow). lia.
Qed.

Lemma transactionId_survives_sanitizing_witness :
  sanitizeInput (newTransactionId 1762041600000 drawHalf)
  = newTransactionId 1762041600000 drawHalf.
Proof.
  apply (transactionId_survives_sanitizing 1762041600000 drawHalf).
  split; [discriminate | reflexivity].
Defined.

Lemma lit_inj (s t : string) : lit s = lit t -> s = t.
Proof.
  revert t. induction s as [|a s IH]; intros [|b t]; simpl; try done.
  intros [= Hab Hst]. f_equal; [|by apply IH].
  rewrite <- (ascii_N_embedding a), <- (ascii_N_embedding b). by rewrite Hab.
Qed.

Lemma split_at_hyphen (ds ds' r r' : jsstring) :
  forallb JS.isDigit ds = true -> forallb JS.isDigit ds' = true ->
  ds ++ 45%N :: r = ds' ++ 45%N :: r' -> ds = ds' /\ r = r'.
Proof.
  revert ds'. induction ds as [|c ds IH]; intros [|c' ds'] Hds Hds' Heq;
    simpl in *.
  - by injection Heq.
  - injection Heq as <- _. apply andb_true_iff in Hds' as [Hc _]. done.
  - injection Heq as -> _. apply andb_true_iff in Hds as [Hc _]. done.
  - injection Heq as <- Heq.
    apply andb_true_iff in Hds as [_ Hds].
    apply andb_true_iff in Hds' as [_ Hds'].
    destruct (IH ds' Hds Hds' Heq) as [-> ->]. done.
Qed.

(** X14. Two transaction ids generated at timestamps that are not
    negative are equal only when the timestamps are equal and the
    suffixes are equal. *)
Theorem transactionId_collision (dateNow dateNow' : Z) (x x' : Random) :
  0 <= dateNow -> 0 <= dateNow' ->
  newTransactionId dateNow x = newTransactionId dateNow' x'
  <-> dateNow = dateNow' /\ transactionSuffix x = transactionSuffix x'.
Proof.
  intros Hnow Hnow'. split.
  - unfold newTransactionId. intros Heq.
    apply app_inv_head in Heq.
    apply split_at_hyphen in Heq as [Hdigits Hsuffix];
      [|by apply numberToString_digits..].
    split; [|exact Hsuffix].
    unfold JS.numberToString in Hdigits. apply lit_inj in Hdigits.
    by apply pretty_Z_inj in Hdigits.
  - intros [-> Hsuffix]. unfold newTransactionId. by rewrite Hsuffix.
Qed.

Lemma transactionId_collision_witness :
  newTransactionId 1762041600000 drawHalf
  <> newTransactionId 1762041600001 drawHalf.
Proof.
  intros Heq.
  apply (transactionId_collision 1762041600000 1762041600001 drawHalf drawHalf)
    in Heq as [Heq _]; [discriminate Heq| |]; discriminate.
Defined.

(** ** The form as a whole *)

Lemma blank_is_rejected (value : jsstring) :
  validateRequired value = false ->
  validateCardNumber value = false /\ validateCVC value = false
  /\ validateAmount value = false /\ validateEmail value = false
  /\ validatePostalCode value = false
  /\ forall today, validateExpiryDate today value = false.
Proof.
  intros Hblank.
  assert (Hall : forallb JS.isWhiteSpace value = true).
  { apply trim_nil. unfold validateRequired in Hblank.
    apply negb_false_iff in Hblank. by apply jsstring_eqb_eq. }
  assert (Hnodigit : forall c, JS.isDigit c = true -> JS.isWhiteSpace c = false).
  { intros c Hc. apply isDigit_cases in Hc. unfold digitCodes in Hc.
    simpl in Hc. intuition; subst; reflexivity. }
  assert (Hhead : forall c t, value = c :: t -> JS.isDigit c = false).
  { intros c t ->. simpl in Hall. apply andb_true_iff in Hall as [Hc _].
    destruct (JS.isDigit c) eqn:E; [|done].
    rewrite (Hnodigit c E) in Hc. done. }
  assert (Hclean : JS.remove JS.isWhiteSpace value = []).
  { clear Hhead Hblank. unfold JS.remove.
    induction value as [|c value IH]; [done|].
    simpl in *. apply andb_true_iff in Hall as [-> Hall]. simpl. auto. }
  repeat split.
  - apply not_true_is_false. intros Hok. unfold validateCardNumber, digit in Hok.
    apply test_Lang, Lang_times in Hok as [Hlen _].
    rewrite Hclean in Hlen. discriminate.
  - apply not_true_is_false. intros Hok. unfold validateCVC, digit in Hok.
    apply test_Lang, Lang_Cat in Hok as (s1 & s2 & -> & H1 & _).
    apply Lang_times in H1 as [Hlen Hdigits].
    destruct s1 as [|c s1]; [done|]. simpl in Hdigits.
    apply andb_true_iff in Hdigits as [Hc _].
    rewrite (Hhead c (s1 ++ s2) eq_refl) in Hc. done.
  - unfold validateAmount, JS.parseFloat.
    rewrite (proj2 (dropWhile_nil _ _) Hall). reflexivity.
  - apply not_true_is_false. intros Hok.
    unfold validateEmail in Hok.
    apply test_Lang, Lang_Cat in Hok as (l & r & -> & Hl & _).
    apply Lang_plus in Hl as [Hne Hl].
    destruct l as [|c l]; [done|]. simpl in Hl, Hall.
    apply andb_true_iff in Hl as [Hc _]. apply andb_true_iff in Hall as [Hw _].
    apply notSpaceAt_inv in Hc as [Hc _]. congruence.
  - apply not_true_is_false. intros Hok.
    unfold validatePostalCode, digit in Hok.
    apply test_Lang, Lang_Cat in Hok as (s1 & s2 & -> & H1 & _).
    apply Lang_times in H1 as [Hlen Hdigits].
    destruct s1 as [|c s1]; [done|]. simpl in Hdigits.
    apply andb_true_iff in Hdigits as [Hc _].
    rewrite (Hhead c (s1 ++ s2) eq_refl) in Hc. done.
  - intros today. apply not_true_is_false. intros Hok.
    assert (Hpat : JS.test (JS.Cat (JS.times 2 digit)
                              (JS.Cat (JS.chr 47) (JS.times 2 digit)))
                           value = true).
    { unfold validateExpiryDate in Hok.
      destruct (JS.test _ value); [done | discriminate]. }
    apply expiry_pattern in Hpat as (a & b & c & d & Heq & Ha & _).
    rewrite (Hhead a _ Heq) in Ha. done.
Qed.

Lemma no_error_iff (rules : list Rule.t) :
  Forall (fun r => Rule.required r = true) rules ->
  checkRules rules = [] <-> Forall (fun r => ruleFails r = false) rules.
Proof.
  intros Hreq. rewrite checkRules_flat_map.
  induction Hreq as [|r rules Hr _ IH]; simpl.
  - split; constructor.
  - rewrite Forall_cons, <- IH, (ruleErrors_required r Hr). unfold ruleFails.
    destruct (validateRequired (Rule.value r)); simpl.
    + destruct (Rule.validator r (Rule.value r)); simpl; [tauto|].
      split; [discriminate | intros [? _]; discriminate].
    + split; [discriminate | intros [? _]; discriminate].
Qed.

Lemma fails_iff (required accepted : bool) :
  (required = false -> accepted = false) ->
  negb required || negb accepted = false <-> accepted = true.
Proof. destruct required, accepted; simpl; intuition congruence. Qed.

(** X15. [validatePaymentForm] reports no error exactly when the ten
    validators accept their fields: the required check on top of them
    rejects nothing a validator accepts. *)
Theorem validatePaymentForm_passes (today : Today) (formData : PaymentFormData.t) :
  validatePaymentForm today formData = []
  <-> validateCardNumber (PaymentFormData.cardNumber formData) = true
      /\ validateCVC (PaymentFormData.cvc formData) = true
      /\ validateExpiryDate today (PaymentFormData.expiryDate formData) = true
      /\ validateAmount (PaymentFormData.amount formData) = true
      /\ validateRequired (PaymentFormData.firstName formData) = true
      /\ validateRequired (PaymentFormData.lastName formData) = true
      /\ validateEmail (PaymentFormData.email formData) = true
      /\ validateRequired (PaymentFormData.city formData) = true
      /\ validateRequired (PaymentFormData.state formData) = true
      /\ validatePostalCode (PaymentFormData.postalCode formData) = true.
Proof.
  unfold validatePaymentForm.
  rewrite (no_error_iff _ (validations_required today formData)).
  unfold validations. rewrite !Forall_cons, Forall_nil. unfold ruleFails.
  cbn [Rule.value Rule.validator].
  rewrite (fails_iff _ _
             (fun Hb => proj1 (blank_is_rejected _ Hb))).
  rewrite (fails_iff _ _
             (fun Hb => proj1 (proj2 (blank_is_rejected _ Hb)))).
  rewrite (fails_iff _ (validateExpiryDate today _)
             (fun Hb => proj2 (proj2 (proj2 (proj2 (proj2
                          (blank_is_rejected _ Hb))))) today)).
  rewrite (fails_iff _ (validateAmount _)
             (fun Hb => proj1 (proj2 (proj2 (blank_is_rejected _ Hb))))).
  rewrite (fails_iff _ (validateEmail _)
             (fun Hb => proj1 (proj2 (proj2 (proj2 (blank_is_rejected _ Hb)))))).
  rewrite (fails_iff _ (validatePostalCode _)
             (fun Hb => proj1 (proj2 (proj2 (proj2 (proj2
                          (blank_is_rejected _ Hb))))))).
  rewrite !(fails_iff _ (validateRequired _) (fun Hb => Hb)).
  tauto.
Qed.

(** ** POST /api/payment, the other outcomes *)

(** X16. A submission that sanitizes but does not validate is answered
    with 400, the message ["Validation failed"] and the whole list of
    errors, one for each failing field in the order of the fields; no
    storage call is made and the store is left as it was. *)
Theorem postPayment_invalid `{CaseMapping} {S : Type} {storage : IStorage S}
    (env : Env S) (formData : RequestBody.t) (sanitizedData : PaymentFormData.t)
    (s : S) :
  sanitizeBody formData = Some sanitizedData ->
  validatePaymentForm (today env) sanitizedData <> [] ->
  exists errors,
    run (postPayment env formData) s
    = (Returned (Response.mk 400 false (lit "Validation failed") errors
                   None None Response.NoData),
       mkWorld s [])
    /\ errors = validatePaymentForm (today env) sanitizedData
    /\ map field errors
       = List.filter (fieldFails (today env) sanitizedData) fieldOrder.
Proof.
  intros Hsan Herrors.
  exists (validatePaymentForm (today env) sanitizedData).
  split; [|split; [reflexivity|]].
  - unfold run, postPayment, tryCatch, bind, orThrow, ret. rewrite Hsan.
    destruct (validatePaymentForm (today env) sanitizedData) as [|e errors];
      [done|].
    reflexivity.
  - unfold validatePaymentForm. rewrite checkRules_flat_map.
    rewrite (ruleErrors_fields _ (validations_required _ _)).
    apply failing_fields_of_rules.
Qed.

Lemma postPayment_invalid_witness :
  run (postPayment (H := latinCaseMapping)
         (storage := @memStorage latinCaseMapping)
         (sampleEnv approved) bodyWithBadCvc) MemStorage.constructor
  = (Returned (Response.mk 400 false (lit "Validation failed")
                 [mkError (lit "cvc") (lit "CVC must be 3-4 digits")]
                 None None Response.NoData),
     mkWorld MemStorage.constructor []).
Proof.
  destruct (postPayment_invalid (H := latinCaseMapping)
              (storage := @memStorage latinCaseMapping)
              (sampleEnv approved) bodyWithBadCvc
              _ MemStorage.constructor eq_refl)
    as (errors & Hrun & Herrors & _).
  - vm_compute. discriminate.
  - rewrite Hrun, Herrors. vm_compute. reflexivity.
Defined.

Lemma sanitizeBody_raises `{CaseMapping} (formData : RequestBody.t) :
  Exists (fun v => asString v = None) (stringFields formData)
  \/ RequestBody.message formData = JSTruthy ->
  sanitizeBody formData = None.
Proof.
  intros Hbad. unfold sanitizeBody.
  destruct (asString (RequestBody.cardNumber formData)) eqn:E1; [|done].
  destruct (asString (RequestBody.cvc formData)) eqn:E2; [|done].
  destruct (asString (RequestBody.expiryDate formData)) eqn:E3; [|done].
  destruct (asString (RequestBody.amount formData)) eqn:E4; [|done].
  destruct (asString (RequestBody.firstName formData)) eqn:E5; [|done].
  destruct (asString (RequestBody.lastName formData)) eqn:E6; [|done].
  destruct (asString (RequestBody.email formData)) eqn:E7; [|done].
  destruct (asString (RequestBody.city formData)) eqn:E8; [|done].
  destruct (asString (RequestBody.state formData)) eqn:E9; [|done].
  destruct (asString (RequestBody.postalCode formData)) eqn:E10; [|done].
  simpl. destruct Hbad as [Hbad| ->]; [|done].
  unfold stringFields in Hbad.
  repeat (apply Exists_cons in Hbad as [Hbad|Hbad]; [congruence|]).
  by apply Exists_nil in Hbad.
Qed.

(** X17. A body in which one of the ten fields is not a string, a
    missing field included, or whose message is a truthy value that is
    not a string, is answered with 500: sanitizing raises before
    validation runs, so no "is required" error is ever reported for it;
    no storage call is made. *)
Theorem postPayment_malformed `{CaseMapping} {S : Type} {storage : IStorage S}
    (env : Env S) (formData : RequestBody.t) (s : S) :
  Exists (fun v => asString v = None) (stringFields formData)
  \/ RequestBody.message formData = JSTruthy ->
  run (postPayment env formData) s = (Returned serverError, mkWorld s []).
Proof.
  intros Hbad. unfold run, postPayment, tryCatch, bind, orThrow.
  rewrite (sanitizeBody_raises formData Hbad). reflexivity.
Qed.

Lemma postPayment_malformed_witness :
  run (postPayment (H := latinCaseMapping)
         (storage := @memStorage latinCaseMapping)
         (sampleEnv approved) bodyWithoutCvc) MemStorage.constructor
  = (Returned serverError, mkWorld MemStorage.constructor []).
Proof.
  apply (postPayment_malformed (H := latinCaseMapping)
           (storage := @memStorage latinCaseMapping)).
  left. unfold stringFields, bodyWithoutCvc. simpl.
  apply Exists_cons_tl, Exists_cons_hd. reflexivity.
Defined.

Lemma sanitizeBody_cardNumber `{CaseMapping} (formData : RequestBody.t)
    (sanitizedData : PaymentFormData.t) :
  sanitizeBody formData = Some sanitizedData ->
  exists raw, PaymentFormData.cardNumber sanitizedData = sanitizeNumeric raw.
Proof.
  unfold sanitizeBody. intros Hsan.
  destruct (asString (RequestBody.cardNumber formData)) as [raw|]; [|done].
  destruct (asString (RequestBody.cvc formData)); [|done].
  destruct (asString (RequestBody.expiryDate formData)); [|done].
  destruct (asString (RequestBody.amount formData)); [|done].
  destruct (asString (RequestBody.firstName formData)); [|done].
  destruct (asString (RequestBody.lastName formData)); [|done].
  destruct (asString (RequestBody.email formData)); [|done].
  destruct (asString (RequestBody.city formData)); [|done].
  destruct (asString (RequestBody.state formData)); [|done].
  destruct (asString (RequestBody.postalCode formData)); [|done].
  destruct (asString (orEmpty (RequestBody.message formData))); [|done].
  simpl in Hsan. injection Hsan as <-. by exists raw.
Qed.

Lemma sanitizeNumeric_kept (input : jsstring) :
  forallb isNumericChar (sanitizeNumeric input) = true.
Proof.
  unfold sanitizeNumeric, JS.substring0. apply forallb_take.
  pose proof (remove_clean (fun c => negb (isNumericChar c)) input) as Hc.
  rewrite forallb_forall in Hc. apply forallb_forall. intros c Hin.
  specialize (Hc c Hin). by rewrite negb_involutive in Hc.
Qed.

Lemma numeric_no_space (s : jsstring) :
  forallb isNumericChar s = true -> JS.remove JS.isWhiteSpace s = s.
Proof.
  intros Hall. apply remove_none. rewrite forallb_forall in Hall.
  apply forallb_forall. intros c Hc. specialize (Hall c Hc).
  unfold isNumericChar, JS.isDigit in Hall. apply negb_true_iff.
  unfold JS.isWhiteSpace.
  repeat match type of Hall with
         | (_ || _)%bool = true => apply orb_true_iff in Hall as [Hall|Hall]
         end;
    repeat match type of Hall with
           | (_ && _)%bool = true =>
               let H1 := fresh in let H2 := fresh in
               apply andb_true_iff in Hall as [H1 H2];
               apply N.leb_le in H1; apply N.leb_le in H2
           | (_ =? _)%N = true => apply N.eqb_eq in Hall
           end;
    repeat (apply orb_false_iff; split);
    first [ apply N.eqb_neq; lia
          | apply andb_false_iff;
            first [ left; apply N.leb_gt; lia | right; apply N.leb_gt; lia ] ].
Qed.

Lemma mask_sixteen (cardNumber : jsstring) :
  length (JS.remove JS.isWhiteSpace cardNumber) = 16%nat ->
  maskCardNumber cardNumber
  = replicate 12 star ++ drop 12 (JS.remove JS.isWhiteSpace cardNumber).
Proof.
  intros Hlen. unfold maskCardNumber, JS.repeat, JS.slice_last.
  rewrite Hlen. reflexivity.
Qed.

(** X18. In the ephemeral backend a fully valid submission, left alone
    during the delay, makes two storage calls, [createPayment] with the
    sanitized data and then [updatePayment] on the id just assigned, and
    leaves under that id a record whose card number is twelve mask
    characters followed by the last four of the sixteen digits
    submitted. *)
Theorem postPayment_stores_masked `{CaseMapping}
    (env : Env MemStorage.t) (formData : RequestBody.t)
    (sanitizedData : PaymentFormData.t) (mem : MemStorage.t) :
  sanitizeBody formData = Some sanitizedData ->
  validatePaymentForm (today env) sanitizedData = [] ->
  (forall s, otherRequests env s = s) ->
  let id := MemStorage.currentPaymentId mem in
  let insert :=
    pendingPayment sanitizedData
      (newTransactionId (dateNow env) (suffixDraw env)) in
  let update := UpdatePayment.mk (Some (finalStatus (outcomeDraw env))) in
  exists response final,
    run (postPayment env formData) mem
    = (Returned response,
       mkWorld final [CreatePayment insert; UpdatePaymentCall id update])
    /\ InsertPayment.cardNumber insert = PaymentFormData.cardNumber sanitizedData
    /\ length (PaymentFormData.cardNumber sanitizedData) = 16%nat
    /\ forallb JS.isDigit (PaymentFormData.cardNumber sanitizedData) = true
    /\ MemStorage.getPayment id final
       = Some (Payment.update (newPayment insert id (createdInstant env))
                 update (updatedInstant env))
    /\ maskCardNumber (InsertPayment.cardNumber insert)
       = replicate 12 star ++ drop 12 (PaymentFormData.cardNumber sanitizedData).
Proof.
  intros Hsan Hvalid Halone id insert update.
  destruct (sanitizeBody_cardNumber _ _ Hsan) as [raw Hraw].
  assert (Hclean : JS.remove JS.isWhiteSpace
                     (PaymentFormData.cardNumber sanitizedData)
                   = PaymentFormData.cardNumber sanitizedData).
  { rewrite Hraw. apply numeric_no_space, sanitizeNumeric_kept. }
  assert (Hcard : validateCardNumber (PaymentFormData.cardNumber sanitizedData)
                  = true).
  { apply not_false_iff_true. intros Hrej.
    assert (Hin : In (Rule.mk (lit "cardNumber")
                        (PaymentFormData.cardNumber sanitizedData)
                        validateCardNumber
                        (lit "Card number must be 16 digits") true)
                     (validations (today env) sanitizedData)) by (by left).
    unfold validatePaymentForm in Hvalid.
    apply (no_error_iff _ (validations_required _ _)) in Hvalid.
    rewrite Forall_forall in Hvalid.
    specialize (Hvalid _ (proj2 (list_elem_of_In _ _) Hin)).
    unfold ruleFails in Hvalid. simpl in Hvalid. rewrite Hrej in Hvalid.
    by rewrite orb_true_r in Hvalid. }
  unfold validateCardNumber, digit in Hcard.
  apply test_Lang, Lang_times in Hcard as [Hlen Hdigits].
  rewrite Hclean in Hlen, Hdigits.
  unfold run, postPayment, tryCatch, bind, orThrow, call, await, ret.
  rewrite Hsan, Hvalid. cbn [length Nat.ltb Nat.leb store calls app].
  fold insert. cbn [createPayment memStorage returning fst snd store calls app].
  rewrite Halone. unfold finalStatus in update. unfold update.
  destruct (lessThanTenth (outcomeDraw env));
    cbn [updatePayment memStorage returning fst snd store calls app];
    unfold MemStorage.updatePayment, MemStorage.createPayment;
    cbn [MemStorage.payments fst snd]; rewrite get_set_eq;
    cbn [fst snd store calls app];
    (do 2 eexists; split; [reflexivity|]);
    (split; [reflexivity|]); (split; [exact Hlen|]);
    (split; [exact Hdigits|]);
    (split; [unfold MemStorage.getPayment; cbn [MemStorage.payments];
             apply get_set_eq|]);
    rewrite mask_sixteen; cbn [InsertPayment.cardNumber insert pendingPayment];
    rewrite ?Hclean; done.
Qed.

Lemma postPayment_stores_masked_witness :
  exists response final log,
    run (postPayment (H := latinCaseMapping)
           (storage := @memStorage latinCaseMapping)
           (sampleEnv approved) sampleBody) MemStorage.constructor
    = (Returned response, mkWorld final log)
    /\ (Payment.cardNumber <$> MemStorage.getPayment 1 final)
       = Some (lit "************1111").
Proof.
  destruct (postPayment_stores_masked (H := latinCaseMapping)
              (sampleEnv approved) sampleBody _ MemStorage.constructor
              eq_refl eq_refl (fun s => eq_refl))
    as (response & final & Hrun & _ & _ & _ & Hget & _).
  exists response, final. eexists. split; [exact Hrun|].
  change (MemStorage.currentPaymentId MemStorage.constructor) with 1 in Hget.
  rewrite Hget. vm_compute. reflexivity.
Defined.

(** ** PATCH and DELETE on a payment that exists *)

Section Routes.
Context {S : Type} {storage : IStorage S}.

Hypothesis update_rewrites :
  forall now id d s,
    exists s',
      updatePayment now id d s
      = (Returned ((fun p => Payment.update p d now) <$> getPayment id s), s')
      /\ getPayment id s'
         = (fun p => Payment.update p d now) <$> getPayment id s.

Hypothesis delete_removes :
  forall id s p,
    getPayment id s = Some p ->
    exists s',
      deletePayment id s = (Returned true, s')
      /\ getPayment id s' = None
      /\ (forall id', id' <> id -> getPayment id' s' = getPayment id' s).

Lemma patched_with (now : Z) (id status : jsstring) (n : Z) (s : S) :
  JS.parseInt id = Some n ->
  includes validStatuses (sanitizeInput status) = true ->
  patched now id status n s.
Proof.
  intros Hid Hstatus. unfold patched.
  destruct (update_rewrites now n
              (UpdatePayment.mk (Some (sanitizeInput status))) s)
    as (s' & Hupdate & Hget).
  unfold run, patchPaymentStatus, tryCatch, bind, orThrow, asString, call, ret.
  rewrite Hid, Hstatus. cbn [negb store calls app]. rewrite Hupdate.
  destruct (getPayment n s) as [p|]; cbn [fmap option_fmap option_map] in *;
    (do 2 eexists; split; [reflexivity|]); (split; [reflexivity|exact Hget]).
Qed.

Lemma deleteOutcome_with (id : jsstring) (s : S) : deleteOutcome id s.
Proof.
  unfold deleteOutcome.
  destruct (JS.parseInt id) as [n|] eqn:Hid.
  - destruct (getPayment n s) as [p|] eqn:Hget.
    + destruct (delete_removes n s p Hget) as (s' & Hdelete & Hgone & Hothers).
      exists s'. split; [|split; [exact Hgone|split; [exact Hothers|]]].
      * unfold run, deletePaymentRoute, tryCatch, bind, peek, quiet, ret.
        rewrite Hid. cbn [store calls]. rewrite Hget. cbn [store calls].
        rewrite Hdelete. reflexivity.
      * unfold run, deletePaymentRoute, tryCatch, bind, peek, quiet, ret.
        rewrite Hid. cbn [store calls]. rewrite Hgone. reflexivity.
    + unfold run, deletePaymentRoute, tryCatch, bind, peek, quiet, ret.
      rewrite Hid. cbn [store calls]. rewrite Hget. reflexivity.
  - unfold run, deletePaymentRoute, tryCatch, bind, peek, quiet, ret.
    rewrite Hid. reflexivity.
Qed.
End Routes.

Lemma memStorage_delete_removes `{CaseMapping} id (s : MemStorage.t) p :
  getPayment id s = Some p ->
  exists s',
    deletePayment id s = (Returned true, s')
    /\ getPayment id s' = None
    /\ (forall id', id' <> id -> getPayment id' s' = getPayment id' s).
Proof.
  simpl. unfold MemStorage.getPayment. intros Hget.
  exists (snd (MemStorage.deletePayment id s)). split; [|split].
  - unfold returning, MemStorage.deletePayment, JSMap.delete, JSMap.has.
    rewrite Hget. reflexivity.
  - rewrite payments_deletePayment. apply get_delete_eq.
  - intros id' Hne. rewrite payments_deletePayment. by apply get_delete_ne.
Qed.

Lemma find_filtered_out (rows : list Payment.t) (id : Z) :
  List.find (fun row => Payment.id row =? id)
    (List.filter (fun row => negb (Payment.id row =? id)) rows) = None.
Proof.
  induction rows as [|row rows IH]; simpl; [done|].
  destruct (Payment.id row =? id) eqn:E; simpl; [done|]. by rewrite E.
Qed.

Lemma find_filtered_other (rows : list Payment.t) (id id' : Z) :
  id' <> id ->
  List.find (fun row => Payment.id row =? id')
    (List.filter (fun row => negb (Payment.id row =? id)) rows)
  = List.find (fun row => Payment.id row =? id') rows.
Proof.
  intros Hne. induction rows as [|row rows IH]; simpl; [done|].
  destruct (Z.eqb_spec (Payment.id row) id) as [Heq|Hneq]; simpl.
  - destruct (Z.eqb_spec (Payment.id row) id'); [lia | exact IH].
  - by rewrite IH.
Qed.

Lemma databaseStorage_delete_removes id (s : DatabaseStorage.t) p :
  getPayment id s = Some p ->
  exists s',
    deletePayment id s = (Returned true, s')
    /\ getPayment id s' = None
    /\ (forall id', id' <> id -> getPayment id' s' = getPayment id' s).
Proof.
  simpl. unfold DatabaseStorage.getPayment. intros Hget.
  exists (snd (DatabaseStorage.deletePayment id s)). split; [|split].
  - unfold returning, DatabaseStorage.deletePayment. simpl. f_equal. f_equal.
    apply find_some in Hget as [Hin Hid].
    destruct (List.filter (fun row => Payment.id row =? id)
                (DatabaseStorage.payments s)) as [|r rs] eqn:Hf; [|done].
    assert (Hmem : In p (List.filter (fun row => Payment.id row =? id)
                           (DatabaseStorage.payments s)))
      by (by apply List.filter_In).
    rewrite Hf in Hmem. done.
  - simpl. apply find_filtered_out.
  - intros id' Hne. simpl. by apply find_filtered_other.
Qed.

(** X19. PATCH with an id that [parseInt] reads as a number and a status
    that is valid after sanitizing makes one storage call, the update. If
    the store holds a payment under the id, the answer is 200 and the
    payment is stored with the new status and [updatedAt] set to the
    instant of the update, every other field as before; if it holds none
    the answer is 404 and none is created. Both backends. *)
Theorem patch_updates_status `{CaseMapping} :
  (forall now id status n (mem : MemStorage.t),
     JS.parseInt id = Some n ->
     includes validStatuses (sanitizeInput status) = true ->
     patched now id status n mem)
  /\ (forall now id status n (db : DatabaseStorage.t),
        JS.parseInt id = Some n ->
        includes validStatuses (sanitizeInput status) = true ->
        patched now id status n db).
Proof.
  split; intros now id status n s Hid Hstatus.
  - apply patched_with; [|exact Hid|exact Hstatus].
    apply memStorage_update_rewrites.
  - apply patched_with; [|exact Hid|exact Hstatus].
    apply databaseStorage_update_rewrites.
Qed.

Lemma patch_updates_status_witness :
  patched (storage := @memStorage latinCaseMapping) 500 (lit "1")
          (lit " refunded ") 1
          (finalStore sampleHistory MemStorage.constructor)
  /\ patched (storage := databaseStorage) 500 (lit "7") (lit "failed") 7
             DatabaseStorage.empty.
Proof.
  split.
  - apply (proj1 (patch_updates_status (H := latinCaseMapping)));
      vm_compute; reflexivity.
  - apply (proj2 (patch_updates_status (H := latinCaseMapping)));
      vm_compute; reflexivity.
Defined.

(** X20. DELETE answers 400 when [parseInt] reads no number in the id
    and 404 when the store holds no payment under it, leaving the store
    as it was; when it holds one the answer is 200 with the id and the
    transaction id of that payment, the payment is gone afterwards, every
    other id reads as before, and a second DELETE of the same id is
    answered with 404. Both backends. *)
Theorem delete_route_outcomes `{CaseMapping} :
  (forall id (mem : MemStorage.t), deleteOutcome id mem)
  /\ (forall id (db : DatabaseStorage.t), deleteOutcome id db).
Proof.
  split; intros id s; apply deleteOutcome_with.
  - apply memStorage_delete_removes.
  - apply databaseStorage_delete_removes.
Qed.

(** ** The read routes *)

Lemma set_set {V : Type} (m : JSMap.t V) (k : Z) (v v' : V) :
  JSMap.set k v' (JSMap.set k v m) = JSMap.set k v' m.
Proof.
  induction m as [|[k0 v0] m IH]; simpl.
  - by rewrite Z.eqb_refl.
  - destruct (k0 =? k) eqn:E; simpl.
    + by rewrite Z.eqb_refl.
    + by rewrite E, IH.
Qed.

Lemma find_values_set {V : Type} (f : V -> bool) (m : JSMap.t V) (k : Z) (v : V) :
  List.find f (JSMap.values m) = None -> f v = true ->
  List.find f (JSMap.values (JSMap.set k v m)) = Some v.
Proof.
  intros Hnone Hv. induction m as [|[k0 v0] m IH]; simpl in *.
  - by rewrite Hv.
  - destruct (f v0) eqn:E0; [discriminate|].
    destruct (k0 =? k); simpl.
    + by rewrite Hv.
    + rewrite E0. by apply IH.
Qed.

Lemma In_values_set {V : Type} (m : JSMap.t V) (k : Z) (v : V) :
  In v (JSMap.values (JSMap.set k v m)).
Proof.
  induction m as [|[k0 v0] m IH]; simpl; [by left|].
  destruct (k0 =? k); simpl; [by left | by right].
Qed.

(** The run of the pipeline on the ephemeral backend, left alone during
    the delay, with the store it leaves. *)
Lemma memStorage_pipeline_run `{CaseMapping}
    (env : Env MemStorage.t) (formData : RequestBody.t)
    (sanitizedData : PaymentFormData.t) (mem : MemStorage.t) :
  sanitizeBody formData = Some sanitizedData ->
  validatePaymentForm (today env) sanitizedData = [] ->
  (forall s, otherRequests env s = s) ->
  let id := MemStorage.currentPaymentId mem in
  let insert :=
    pendingPayment sanitizedData
      (newTransactionId (dateNow env) (suffixDraw env)) in
  let stored :=
    Payment.update (newPayment insert id (createdInstant env))
      (UpdatePayment.mk (Some (finalStatus (outcomeDraw env))))
      (updatedInstant env) in
  exists response log,
    run (postPayment env formData) mem
    = (Returned response,
       mkWorld (MemStorage.mk (MemStorage.users mem)
                  (JSMap.set id stored (MemStorage.payments mem))
                  (MemStorage.currentUserId mem) (increment id))
               log).
Proof.
  intros Hsan Hvalid Halone id insert stored.
  unfold run, postPayment, tryCatch, bind, orThrow, call, await, ret.
  rewrite Hsan, Hvalid. cbn [length Nat.ltb Nat.leb store calls app].
  fold insert. cbn [createPayment memStorage returning fst snd store calls app].
  rewrite Halone. unfold stored, finalStatus.
  destruct (lessThanTenth (outcomeDraw env));
    cbn [updatePayment memStorage returning fst snd store calls app];
    unfold MemStorage.updatePayment, MemStorage.createPayment;
    cbn [MemStorage.payments fst snd]; rewrite get_set_eq;
    cbn [fst snd store calls app MemStorage.users MemStorage.payments
           MemStorage.currentUserId MemStorage.currentPaymentId];
    rewrite set_set; do 2 eexists; reflexivity.
Qed.

(** X21. In the ephemeral backend, after a fully valid submission whose
    transaction id no stored payment carries, generated at a timestamp
    between 0 and [10^16] and left alone during the delay,
    GET /api/payment/:transactionId with the id the pipeline generated
    answers 200 with the id of the new record, its final status, the
    sanitized amount and address and both timestamps, and changes
    nothing. *)
Theorem lookup_after_payment `{CaseMapping}
    (env : Env MemStorage.t) (formData : RequestBody.t)
    (sanitizedData : PaymentFormData.t) (mem : MemStorage.t) :
  sanitizeBody formData = Some sanitizedData ->
  validatePaymentForm (today env) sanitizedData = [] ->
  (forall s, otherRequests env s = s) ->
  0 <= dateNow env < 10 ^ 16 ->
  MemStorage.getPaymentByTransactionId
    (newTransactionId (dateNow env) (suffixDraw env)) mem = None ->
  exists response final log,
    run (postPayment env formData) mem = (Returned response, mkWorld final log)
    /\ run (getPaymentRoute (newTransactionId (dateNow env) (suffixDraw env)))
           final
       = (Returned
            (Reply.mk 200 true None
               (Some (PaymentDetails.mk (MemStorage.currentPaymentId mem)
                        (newTransactionId (dateNow env) (suffixDraw env))
                        (PaymentFormData.amount sanitizedData)
                        (finalStatus (outcomeDraw env))
                        (PaymentFormData.firstName sanitizedData ++ lit " "
                           ++ PaymentFormData.lastName sanitizedData)
                        (PaymentFormData.email sanitizedData)
                        (createdInstant env) (updatedInstant env)))),
          mkWorld final []).
Proof.
  intros Hsan Hvalid Halone Hnow Hfresh.
  destruct (memStorage_pipeline_run env formData sanitizedData mem
              Hsan Hvalid Halone) as (response & log & Hrun).
  do 3 eexists. split; [exact Hrun|].
  assert (Hsame : sanitizeInput (newTransactionId (dateNow env) (suffixDraw env))
                  = newTransactionId (dateNow env) (suffixDraw env)).
  { assert (Hchars : forallb isIdChar
                       (newTransactionId (dateNow env) (suffixDraw env)) = true)
      by (apply transactionId_chars; lia).
    rewrite forallb_forall in Hchars.
    unfold sanitizeInput, JS.substring0.
    rewrite trim_no_space
      by (apply forallb_forall; intros c Hc; by apply isIdChar_plain, Hchars).
    rewrite remove_none
      by (apply forallb_forall; intros c Hc; by apply isIdChar_plain, Hchars).
    apply take_ge.
    pose proof (transactionId_length (dateNow env) (suffixDraw env) Hnow). lia. }
  unfold run, getPaymentRoute, tryCatch, bind, peek, ret. rewrite Hsame.
  cbn [store getPaymentByTransactionId memQueries].
  unfold MemStorage.getPaymentByTransactionId in *. cbn [MemStorage.payments].
  rewrite (find_values_set _ _ _ _ Hfresh).
  - unfold finalStatus. destruct (lessThanTenth (outcomeDraw env)); reflexivity.
  - apply jsstring_eqb_eq. reflexivity.
Qed.

Lemma lookup_after_payment_witness :
  exists response final log reply,
    run (postPayment (H := latinCaseMapping)
           (storage := @memStorage latinCaseMapping)
           (sampleEnv approved) sampleBody) MemStorage.constructor
    = (Returned response, mkWorld final log)
    /\ run (getPaymentRoute (lit "TXN-1762041600000-abc123z07")) final
       = (Returned reply, mkWorld final [])
    /\ Reply.status reply = 200.
Proof.
  destruct (lookup_after_payment (H := latinCaseMapping)
              (sampleEnv approved) sampleBody _ MemStorage.constructor
              eq_refl eq_refl (fun s => eq_refl)
              ltac:(split; [discriminate | reflexivity]) eq_refl)
    as (response & final & log & Hrun & Hlookup).
  exists response, final, log. eexists. split; [exact Hrun|].
  split; [exact Hlookup | reflexivity].
Defined.

(** X22. Through the customer route the durable backend does not tell
    upper case from lower: a stored payment whose address is the
    sanitized form of [email], as the pipeline stores it, is listed for
    every query with the same lower-case form. The route answers 200,
    lists exactly the rows whose address is the sanitized query, counts
    them, and leaves the table alone. *)
Theorem customer_route_durable `{CaseMapping}
    (db : DatabaseStorage.t) (email query : jsstring) (row : Payment.t) :
  In row (DatabaseStorage.getAllPayments db) ->
  Payment.email row = sanitizeEmail email ->
  toLowerCase email = toLowerCase query ->
  exists history,
    run (getCustomerPaymentsRoute (storage := databaseStorage) query) db
    = (Returned (Reply.mk 200 true None (Some history)), mkWorld db [])
    /\ CustomerHistory.email history = sanitizeEmail query
    /\ CustomerHistory.payments history
       = map customerPayment
           (List.filter (fun r => jsstring_eqb (Payment.email r)
                                    (sanitizeEmail query))
                        (DatabaseStorage.getAllPayments db))
    /\ CustomerHistory.paymentCount history
       = length (CustomerHistory.payments history)
    /\ In (customerPayment row) (CustomerHistory.payments history).
Proof.
  intros Hrow Hemail Hcase.
  assert (Hsame : sanitizeEmail email = sanitizeEmail query).
  { unfold sanitizeEmail. by rewrite Hcase. }
  eexists. split; [reflexivity|]. cbn [CustomerHistory.email
    CustomerHistory.payments CustomerHistory.paymentCount store].
  split; [reflexivity|]. split; [reflexivity|]. split.
  - by rewrite length_map.
  - apply in_map. cbn [getPaymentsByEmail databaseStorage].
    unfold DatabaseStorage.getPaymentsByEmail. apply List.filter_In.
    split; [exact Hrow|]. apply jsstring_eqb_eq. congruence.
Qed.

Lemma customer_route_durable_witness :
  let db := snd (DatabaseStorage.createPayment 0
                   (sampleInsert "4111111111111111" "alice@example.com" "TXN-1-a")
                   DatabaseStorage.empty) in
  exists history,
    run (getCustomerPaymentsRoute (H := latinCaseMapping)
           (storage := databaseStorage) (lit "ALICE@Example.com")) db
    = (Returned (Reply.mk 200 true None (Some history)), mkWorld db [])
    /\ CustomerHistory.paymentCount history = 1%nat.
Proof.
  intros db.
  destruct (customer_route_durable (H := latinCaseMapping) db
              (lit "alice@example.com") (lit "ALICE@Example.com")
              (newPayment (sampleInsert "4111111111111111" "alice@example.com"
                             "TXN-1-a") 1 0))
    as (history & Hrun & _ & Hlist & Hcount & _).
  - left. reflexivity.
  - reflexivity.
  - reflexivity.
  - exists history. split; [exact Hrun|]. rewrite Hcount, Hlist. reflexivity.
Defined.

(** ** The status report *)

Section Reports.
Context {S : Type} {storage : IStorage S} {queries : IStorageQueries S}.

Hypothesis update_rewrites :
  forall now id d s,
    exists s',
      updatePayment now id d s
      = (Returned ((fun p => Payment.update p d now) <$> getPayment id s), s')
      /\ getPayment id s'
         = (fun p => Payment.update p d now) <$> getPayment id s.

Hypothesis stored_is_listed :
  forall id s p,
    getPayment id s = Some p ->
    In p (getPaymentsByStatus (Payment.status p) s).

Lemma reportedAfterPatch_with (now : Z) (id status : jsstring) (n : Z) (s : S)
    (p : Payment.t) :
  JS.parseInt id = Some n ->
  includes validStatuses (sanitizeInput status) = true ->
  getPayment n s = Some p ->
  reportedAfterPatch now id status n s p.
Proof.
  intros Hid Hstatus Hp.
  destruct (patched_with update_rewrites now id status n s Hid Hstatus)
    as (response & s' & Hrun & Hafter).
  rewrite Hp in Hafter. destruct Hafter as [_ Hget].
  exists response, s'. eexists. split; [exact Hrun|].
  split; [reflexivity|].
  cbn [StatusReport.status StatusReport.count StatusReport.payments store].
  split; [reflexivity|]. split; [by rewrite length_map|].
  apply in_map. apply (stored_is_listed _ _ _ Hget).
Qed.
End Reports.

Lemma memStorage_stored_is_listed `{CaseMapping} id (s : MemStorage.t) p :
  getPayment id s = Some p ->
  In p (getPaymentsByStatus (Payment.status p) s).
Proof.
  cbn [getPayment memStorage getPaymentsByStatus memQueries].
  unfold MemStorage.getPayment, MemStorage.getPaymentsByStatus. intros Hget.
  apply List.filter_In. split; [by eapply get_In_values|].
  by apply jsstring_eqb_eq.
Qed.

Lemma databaseStorage_stored_is_listed id (s : DatabaseStorage.t) p :
  getPayment id s = Some p ->
  In p (getPaymentsByStatus (Payment.status p) s).
Proof.
  cbn [getPayment databaseStorage getPaymentsByStatus databaseQueries].
  unfold DatabaseStorage.getPayment, DatabaseStorage.getPaymentsByStatus.
  intros Hget. apply List.find_some in Hget as [Hin _].
  apply List.filter_In. split; [exact Hin|]. by apply jsstring_eqb_eq.
Qed.

(** X23. In both backends, after PATCH /api/payment/:id/status has set a
    stored payment to one of the four statuses, the report
    GET /api/payments/status/:status for the same status answers 200,
    names the sanitized status, counts the payments it lists and lists
    the payment as updated. *)
Theorem patched_payment_is_reported `{CaseMapping} :
  (forall now id status n (mem : MemStorage.t) p,
     JS.parseInt id = Some n ->
     includes validStatuses (sanitizeInput status) = true ->
     MemStorage.getPayment n mem = Some p ->
     reportedAfterPatch now id status n mem p)
  /\ (forall now id status n (db : DatabaseStorage.t) p,
        JS.parseInt id = Some n ->
        includes validStatuses (sanitizeInput status) = true ->
        DatabaseStorage.getPayment n db = Some p ->
        reportedAfterPatch now id status n db p).
Proof.
  split; intros now id status n s p Hid Hstatus Hp.
  - apply reportedAfterPatch_with; try done.
    + apply memStorage_update_rewrites.
    + apply memStorage_stored_is_listed.
  - apply reportedAfterPatch_with; try done.
    + apply databaseStorage_update_rewrites.
    + apply databaseStorage_stored_is_listed.
Qed.

Lemma patched_payment_is_reported_witness :
  reportedAfterPatch (storage := @memStorage latinCaseMapping) 500 (lit "1")
    (lit " refunded ") 1
    (snd (MemStorage.createPayment 0
            (sampleInsert "4111111111111111" "ada@example.com" "TXN-1-a")
            MemStorage.constructor))
    (newPayment (sampleInsert "4111111111111111" "ada@example.com" "TXN-1-a")
       1 0)
  /\ reportedAfterPatch (storage := databaseStorage) 500 (lit "1")
       (lit "failed") 1
       (snd (DatabaseStorage.createPayment 0
               (sampleInsert "4111111111111111" "ada@example.com" "TXN-1-a")
               DatabaseStorage.empty))
       (newPayment (sampleInsert "4111111111111111" "ada@example.com" "TXN-1-a")
          1 0).
Proof.
  split.
  - apply (proj1 (patched_payment_is_reported (H := latinCaseMapping)));
      vm_compute; reflexivity.
  - apply (proj2 (patched_payment_is_reported (H := latinCaseMapping)));
      vm_compute; reflexivity.
Defined.

(** ** The store of the ephemeral backend *)

Lemma keys_set {V : Type} (m : JSMap.t V) (k : Z) (v : V) :
  map fst (JSMap.set k v m)
  = if JSMap.has k m then map fst m else map fst m ++ [k].
Proof.
  unfold JSMap.has. induction m as [|[k0 v0] m IH]; simpl; [done|].
  destruct (k0 =? k) eqn:E; simpl.
  - apply Z.eqb_eq in E. by subst.
  - rewrite IH. by destruct (JSMap.get k m).
Qed.

Lemma has_key {V : Type} (m : JSMap.t V) (k : Z) :
  JSMap.has k m = true <-> In k (map fst m).
Proof.
  unfold JSMap.has. induction m as [|[k0 v0] m IH]; simpl; [split; [done|tauto]|].
  destruct (k0 =? k) eqn:E.
  - apply Z.eqb_eq in E. split; [by left|done].
  - apply Z.eqb_neq in E. rewrite IH. split; [by right|]. by intros [?|?].
Qed.

Lemma In_set {V : Type} (m : JSMap.t V) (k : Z) (v : V) (kv : Z * V) :
  In kv (JSMap.set k v m) -> kv = (k, v) \/ In kv m.
Proof.
  induction m as [|[k0 v0] m IH]; simpl.
  - intros [<-|[]]. by left.
  - destruct (k0 =? k); simpl.
    + intros [<-|?]; [by left | by right; right].
    + intros [<-|?]; [by right; left|]. destruct IH as [?|?]; auto.
Qed.

Lemma get_of_In {V : Type} (m : JSMap.t V) (k : Z) (v : V) :
  NoDup (map fst m) -> In (k, v) m -> JSMap.get k m = Some v.
Proof.
  induction m as [|[k0 v0] m IH]; simpl; [done|].
  intros Hnodup [Heq|Hin].
  - injection Heq as -> ->. by rewrite Z.eqb_refl.
  - apply NoDup_cons in Hnodup as [Hfresh Hnodup].
    destruct (k0 =? k) eqn:E.
    + apply Z.eqb_eq in E. subst. destruct Hfresh. apply list_elem_of_In.
      change k with (fst (k, v)). by apply in_map.
    + by apply IH.
Qed.

Lemma In_of_get {V : Type} (m : JSMap.t V) (k : Z) (v : V) :
  JSMap.get k m = Some v -> In (k, v) m.
Proof.
  induction m as [|[k0 v0] m IH]; simpl; [done|].
  destruct (k0 =? k) eqn:E.
  - apply Z.eqb_eq in E. intros [= ->]. left. by subst.
  - intros Hget. right. by apply IH.
Qed.

Lemma keyed_set (m : JSMap.t Payment.t) (c c' k : Z) (p : Payment.t) :
  keyed m c -> c <= c' -> Payment.id p = k -> 1 <= k <= c' ->
  keyed (JSMap.set k p m) c'.
Proof.
  intros [Hnodup Hall] Hle Hid Hk. split.
  - rewrite keys_set. destruct (JSMap.has k m) eqn:E; [done|].
    apply NoDup_app. split; [done|]. split; [|apply NoDup_singleton].
    intros k0 Hin Hlast%list_elem_of_In. destruct Hlast as [<-|[]].
    apply list_elem_of_In, has_key in Hin. congruence.
  - apply List.Forall_forall. intros kv [->|Hin]%In_set; [done|].
    rewrite List.Forall_forall in Hall. destruct (Hall kv Hin). split; [done|lia].
Qed.

Lemma keyed_filter (m : JSMap.t Payment.t) (c : Z) (f : Z * Payment.t -> bool) :
  keyed m c -> keyed (List.filter f m) c.
Proof.
  intros [Hnodup Hall]. split.
  - clear Hall. induction m as [|kv m IH]; simpl; [constructor|].
    apply NoDup_cons in Hnodup as [Hfresh Hnodup].
    destruct (f kv); simpl; [|by apply IH].
    apply NoDup_cons. split; [|by apply IH].
    intros Hin%list_elem_of_In. apply Hfresh, list_elem_of_In.
    apply in_map_iff in Hin as (kv' & Hk & Hin).
    apply List.filter_In in Hin as [Hin _]. rewrite <- Hk. by apply in_map.
  - rewrite List.Forall_forall in *. intros kv Hin.
    apply List.filter_In in Hin as [Hin _]. by apply Hall.
Qed.

Lemma keyed_step (op : Op) (this : MemStorage.t) :
  1 <= MemStorage.currentPaymentId this ->
  keyed (MemStorage.payments this) (MemStorage.currentPaymentId this) ->
  1 <= MemStorage.currentPaymentId (step op this)
  /\ keyed (MemStorage.payments (step op this))
           (MemStorage.currentPaymentId (step op this)).
Proof.
  intros Hone Hkeyed.
  destruct op as [now insertPayment|now id d|id]; cbn [step].
  - unfold MemStorage.createPayment.
    cbn [snd MemStorage.payments MemStorage.currentPaymentId].
    pose proof (increment_le (MemStorage.currentPaymentId this)).
    split; [lia|]. eapply keyed_set; [exact Hkeyed|lia|reflexivity|lia].
  - unfold MemStorage.updatePayment.
    destruct (JSMap.get id (MemStorage.payments this)) as [p|] eqn:Hget;
      cbn [snd MemStorage.payments MemStorage.currentPaymentId]; [|done].
    split; [done|]. destruct Hkeyed as [Hnodup Hall].
    pose proof (In_of_get _ _ _ Hget) as Hin.
    rewrite List.Forall_forall in Hall. destruct (Hall _ Hin) as [Hid Hk].
    eapply keyed_set; [by split; [|apply List.Forall_forall]|lia|exact Hid|exact Hk].
  - unfold MemStorage.deletePayment, JSMap.delete.
    cbn [snd MemStorage.payments MemStorage.currentPaymentId].
    split; [done|]. by apply keyed_filter.
Qed.

Lemma keyed_history (ops : list Op) (this : MemStorage.t) :
  1 <= MemStorage.currentPaymentId this ->
  keyed (MemStorage.payments this) (MemStorage.currentPaymentId this) ->
  keyed (MemStorage.payments (finalStore ops this))
        (MemStorage.currentPaymentId (finalStore ops this)).
Proof.
  revert this. induction ops as [|op ops IH]; intros this Hone Hkeyed; [done|].
  destruct (keyed_step op this Hone Hkeyed). by apply IH.
Qed.

(** X24. Whatever payments were created, updated and deleted in the
    ephemeral backend since it started, the stored payments have
    pairwise distinct ids, [getAllPayments] lists exactly the payments
    [getPayment] finds under their own ids, and every stored id lies
    between 1 and the counter. *)
Theorem memStorage_payments_keyed (ops : list Op) :
  let this := finalStore ops MemStorage.constructor in
  NoDup (map Payment.id (MemStorage.getAllPayments this))
  /\ (forall p, In p (MemStorage.getAllPayments this)
                <-> MemStorage.getPayment (Payment.id p) this = Some p)
  /\ (forall p, In p (MemStorage.getAllPayments this) ->
                1 <= Payment.id p <= MemStorage.currentPaymentId this).
Proof.
  intros this.
  assert (Hkeyed : keyed (MemStorage.payments this)
                         (MemStorage.currentPaymentId this)).
  { apply keyed_history; [done|]. split; [constructor|constructor]. }
  destruct Hkeyed as [Hnodup Hall]. rewrite List.Forall_forall in Hall.
  unfold MemStorage.getAllPayments, MemStorage.getPayment, JSMap.values.
  split; [|split].
  - rewrite map_map.
    rewrite (map_ext_in _ fst); [done|]. intros kv Hin. by apply Hall.
  - intros p. split.
    + intros (kv & <- & Hin)%in_map_iff. destruct (Hall kv Hin) as [-> _].
      apply get_of_In; [done|]. by destruct kv.
    + apply get_In_values.
  - intros p (kv & <- & Hin)%in_map_iff. destruct (Hall kv Hin) as [-> ?]. done.
Qed.

Lemma find_values_set_kept {V : Type} (f : V -> bool) (m : JSMap.t V)
    (k : Z) (v p : V) :
  JSMap.get k m = None -> List.find f (JSMap.values m) = Some p ->
  List.find f (JSMap.values (JSMap.set k v m)) = Some p.
Proof.
  induction m as [|[k0 v0] m IH]; simpl; [done|].
  destruct (k0 =? k) eqn:E; [done|]. simpl.
  destruct (f v0); [done|]. apply IH.
Qed.

(** X25. The ephemeral backend does not check that a transaction id is
    new: [createPayment] with a transaction id a stored payment already
    carries succeeds and stores the new payment under the next id, and
    [getPaymentByTransactionId] goes on answering the older payment. *)
Theorem memStorage_repeated_transactionId
    (now : Z) (insertPayment : InsertPayment.t) (this : MemStorage.t)
    (older : Payment.t) :
  MemStorage.getPaymentByTransactionId
    (InsertPayment.transactionId insertPayment) this = Some older ->
  MemStorage.getPayment (MemStorage.currentPaymentId this) this = None ->
  let '(created, this') := MemStorage.createPayment now insertPayment this in
  Payment.id created = MemStorage.currentPaymentId this
  /\ Payment.transactionId created = Payment.transactionId older
  /\ MemStorage.getPayment (Payment.id created) this' = Some created
  /\ MemStorage.getPaymentByTransactionId
       (InsertPayment.transactionId insertPayment) this' = Some older
  /\ In older (MemStorage.getAllPayments this')
  /\ In created (MemStorage.getAllPayments this').
Proof.
  intros Holder Hfresh. unfold MemStorage.createPayment.
  unfold MemStorage.getPaymentByTransactionId, MemStorage.getPayment,
    MemStorage.getAllPayments in *.
  cbn [MemStorage.payments newPayment Payment.id Payment.transactionId].
  pose proof (find_values_set_kept _ _ _
                (newPayment insertPayment (MemStorage.currentPaymentId this) now)
                _ Hfresh Holder) as Hkept.
  repeat split.
  - apply List.find_some in Holder as [_ Heq].
    apply jsstring_eqb_eq in Heq. by rewrite Heq.
  - apply get_set_eq.
  - exact Hkept.
  - by apply List.find_some in Hkept as [? _].
  - apply In_values_set.
Qed.

Lemma memStorage_repeated_transactionId_witness :
  let this :=
    snd (MemStorage.createPayment 0
           (sampleInsert "4111111111111111" "ada@example.com" "TXN-1-a")
           MemStorage.constructor) in
  let '(created, this') :=
    MemStorage.createPayment 5
      (sampleInsert "5500000000000004" "bob@example.com" "TXN-1-a") this in
  Payment.id created = 2
  /\ MemStorage.getPaymentByTransactionId (lit "TXN-1-a") this'
     = Some (newPayment
               (sampleInsert "4111111111111111" "ada@example.com" "TXN-1-a")
               1 0).
Proof.
  intros this.
  pose proof (memStorage_repeated_transactionId 5
                (sampleInsert "5500000000000004" "bob@example.com" "TXN-1-a")
                this _ eq_refl eq_refl) as Hrepeat.
  cbv beta iota zeta in Hrepeat |- *.
  destruct (MemStorage.createPayment 5 _ this) as [created this'].
  destruct Hrepeat as (Hid & _ & _ & Hfind & _). split; [exact Hid|exact Hfind].
Defined.

(** ** Users of the ephemeral backend *)

Lemma find_values_set_fresh {V : Type} (f : V -> bool) (m : JSMap.t V)
    (k : Z) (v : V) :
  JSMap.get k m = None ->
  List.find f (JSMap.values (JSMap.set k v m))
  = match List.find f (JSMap.values m) with
    | Some earlier => Some earlier
    | None => if f v then Some v else None
    end.
Proof.
  induction m as [|[k0 v0] m IH]; simpl; [done|].
  destruct (k0 =? k) eqn:E; [done|]. simpl.
  destruct (f v0); [done|]. apply IH.
Qed.

(** X26. In the ephemeral backend a user created under a fresh id can be
    read back by id. [getUserByUsername] only ever answers a user that
    has the name asked for; after the creation it answers, for every
    name, the user it answered before if there was one, and otherwise
    the new user if the name is the new user's and nobody if it is not:
    [createUser] checks no name, and the earliest user stored with a
    name is the one found. Payments are left alone. *)
Theorem memStorage_createUser_lookup
    (insertUser : InsertUser.t) (this : MemStorage.t) :
  MemStorage.getUser (MemStorage.currentUserId this) this = None ->
  let '(user, this') := MemStorage.createUser insertUser this in
  user = User.mk (MemStorage.currentUserId this)
                 (InsertUser.username insertUser)
                 (InsertUser.password insertUser)
  /\ MemStorage.getUser (User.id user) this' = Some user
  /\ (forall name,
        MemStorage.getUserByUsername name this'
        = match MemStorage.getUserByUsername name this with
          | Some earlier => Some earlier
          | None =>
              if jsstring_eqb (InsertUser.username insertUser) name
              then Some user else None
          end)
  /\ (forall name found,
        MemStorage.getUserByUsername name this' = Some found ->
        User.username found = name)
  /\ MemStorage.payments this' = MemStorage.payments this
  /\ MemStorage.currentPaymentId this' = MemStorage.currentPaymentId this.
Proof.
  intros Hfresh. unfold MemStorage.createUser, MemStorage.getUser,
    MemStorage.getUserByUsername in *.
  cbn [MemStorage.users MemStorage.payments MemStorage.currentPaymentId User.id].
  split; [reflexivity|]. split; [apply get_set_eq|].
  split; [|split; [|split; reflexivity]].
  - intros name. by rewrite (find_values_set_fresh _ _ _ _ Hfresh).
  - intros name found Hfound. apply List.find_some in Hfound as [_ Hname].
    by apply jsstring_eqb_eq.
Qed.

Lemma memStorage_createUser_lookup_witness :
  let '(ada, this) :=
    MemStorage.createUser (InsertUser.mk (lit "ada") (lit "first"))
      MemStorage.constructor in
  let '(user, this') :=
    MemStorage.createUser (InsertUser.mk (lit "ada") (lit "second")) this in
  User.id user = 2
  /\ MemStorage.getUserByUsername (lit "ada") this' = Some ada
  /\ MemStorage.getUserByUsername (lit "bob") this' = None.
Proof.
  pose proof (memStorage_createUser_lookup
                (InsertUser.mk (lit "ada") (lit "second"))
                (snd (MemStorage.createUser
                        (InsertUser.mk (lit "ada") (lit "first"))
                        MemStorage.constructor))
                eq_refl) as Hlookup.
  cbv beta iota zeta delta [MemStorage.createUser snd] in Hlookup |- *.
  destruct Hlookup as (_ & _ & Hfind & _).
  split; [reflexivity|]. split.
  - rewrite (Hfind (lit "ada")). vm_compute. reflexivity.
  - rewrite (Hfind (lit "bob")). vm_compute. reflexivity.
Defined.


(** X27. In the ephemeral backend [updateUser] on a stored user keeps
    the id, replaces exactly the fields the update carries and stores
    the result; [deleteUser] then answers [true], after which the id
    reads as absent and a second [deleteUser] answers [false]. Neither
    touches the payments or the counters. *)
Theorem memStorage_user_update_delete
    (id : Z) (userData : PartialUser.t) (this : MemStorage.t) (user : User.t) :
  MemStorage.getUser id this = Some user ->
  let '(updated, this1) := MemStorage.updateUser id userData this in
  let '(deleted, this2) := MemStorage.deleteUser id this1 in
  let '(again, this3) := MemStorage.deleteUser id this2 in
  updated
  = Some (User.mk (User.id user)
            (default (User.username user) (PartialUser.username userData))
            (default (User.password user) (PartialUser.password userData)))
  /\ MemStorage.getUser id this1 = updated
  /\ deleted = true
  /\ MemStorage.getUser id this2 = None
  /\ again = false
  /\ MemStorage.payments this3 = MemStorage.payments this
  /\ MemStorage.currentUserId this3 = MemStorage.currentUserId this
  /\ MemStorage.currentPaymentId this3 = MemStorage.currentPaymentId this.
Proof.
  intros Hget. unfold MemStorage.updateUser, MemStorage.getUser in *.
  rewrite Hget. unfold MemStorage.deleteUser, JSMap.delete, JSMap.has.
  cbn [MemStorage.users MemStorage.payments MemStorage.currentUserId
         MemStorage.currentPaymentId].
  rewrite get_set_eq.
  pose proof (get_delete_eq
                (JSMap.set id
                   (User.mk (User.id user)
                      (default (User.username user)
                         (PartialUser.username userData))
                      (default (User.password user)
                         (PartialUser.password userData)))
                   (MemStorage.users this)) id) as Hgone.
  unfold JSMap.delete in Hgone. cbn [snd] in Hgone. rewrite Hgone.
  repeat split.
Qed.

Lemma memStorage_user_update_delete_witness :
  let this :=
    snd (MemStorage.createUser (InsertUser.mk (lit "ada") (lit "first"))
           MemStorage.constructor) in
  let '(updated, this1) :=
    MemStorage.updateUser 1 (PartialUser.mk None (Some (lit "second"))) this in
  updated = Some (User.mk 1 (lit "ada") (lit "second")).
Proof.
  intros this.
  pose proof (memStorage_user_update_delete 1
                (PartialUser.mk None (Some (lit "second"))) this
                (User.mk 1 (lit "ada") (lit "first")) eq_refl) as Hlife.
  vm_compute in Hlife |- *. by destruct Hlife as (Hupdated & _).
Defined.

Lemma lookupOutcome_of_find {S : Type} {queries : IStorageQueries S}
    (all : S -> list Payment.t) (transactionId : jsstring) (s : S) :
  (forall t, getPaymentByTransactionId t s
             = List.find (fun p => jsstring_eqb (Payment.transactionId p) t)
                         (all s)) ->
  lookupOutcome all transactionId s.
Proof.
  intros Hfind. unfold lookupOutcome, run, getPaymentRoute, tryCatch, bind,
    peek, ret. cbn [store]. rewrite Hfind.
  destruct (List.find _ (all s)) as [p|] eqn:E; eexists; (split; [reflexivity|]).
  - right. split; [reflexivity|]. exists p.
    apply List.find_some in E as [Hin Heq]. apply jsstring_eqb_eq in Heq. done.
  - left. split; [reflexivity|]. split; [reflexivity|].
    apply List.Forall_forall. intros p Hin Heq.
    pose proof (List.find_none _ _ E p Hin) as Hne.
    apply jsstring_eqb_neq in Hne. done.
Qed.

(** X28. GET /api/payment/:transactionId searches for the sanitized id,
    in both backends: it answers 404 without data when no stored payment
    carries it, and 200 with the details of a stored payment that
    carries it otherwise; it is never answered with 500 and leaves the
    store as it was. *)
Theorem lookup_route_outcomes :
  (forall transactionId (mem : MemStorage.t),
     lookupOutcome MemStorage.getAllPayments transactionId mem)
  /\ (forall transactionId (db : DatabaseStorage.t),
        lookupOutcome DatabaseStorage.getAllPayments transactionId db).
Proof. split; intros; by apply lookupOutcome_of_find. Qed.

(** DELETE /api/payment/9007199254740993 on a store that holds a payment
    under the id [2^53]: the id read is [2^53], and the payment is
    deleted. *)
Example ex_delete_rounded_id :
  let payment :=
    newPayment (sampleInsert "4111111111111111" "ada@example.com" "TXN-1-a")
               9007199254740992 0 in
  let mem :=
    MemStorage.mk JSMap.empty (JSMap.set 9007199254740992 payment JSMap.empty)
                  1 9007199254740992 in
  run (deletePaymentRoute (storage := @memStorage latinCaseMapping)
         (lit "9007199254740993")) mem
  = (Returned
       (Reply.mk 200 true (Some (lit "Payment record deleted successfully"))
          (Some (DeletedPayment.mk 9007199254740992 (lit "TXN-1-a")))),
     mkWorld (MemStorage.mk JSMap.empty JSMap.empty 1 9007199254740992) []).
Proof. vm_compute. reflexivity. Qed.
